(** * TikTok Creative Factory: prompt assembly and generation dispatch

    A shallow embedding of the structured-prompt library
    ([buildStructuredPrompt], [buildVideoStructuredPrompt],
    [generateVariationSpecs], [generateFallbackVariations],
    [generateVideo]) and of the structured-prompt generation endpoint
    ([POST]), followed by the properties of the specification that were
    checked against them.

    The rest of the library ([generateAIStorylines], [generateImage],
    [generateFileName], [ensureOutputDir], both versions of
    [generateVideo] with their polling loop, [buildTrendPrompt]), the
    earlier endpoint with its [buildBasePrompt], and the loop with which
    the dashboard reads the event stream are embedded after that, with
    properties of their own at the end.

    Conventions of the embedding.
    - JavaScript strings are [string]; an optional field is an [option];
      [a || d] on strings is [js_or] (the empty string is falsy).
    - Integers that the code handles as JavaScript numbers are [Z] or
      [nat]; the one division of the code ([i / variantCount]) is taken
      in the rationals.
    - A JavaScript object read with a computed key ([table[key]]) is a
      finite map for its own keys together with the members every plain
      object inherits from [Object.prototype] ([js_get]).
    - Calls that leave the program (the text model, the image and video
      generators) are oracles of a [World]; what the program sends out
      and in which order is recorded in a trace of [Action]s.
    - Services of the JavaScript runtime whose exact results no property
      depends on ([JSON.parse], [parseInt], base64 encoding, number
      printing) and the two preset catalogs, which are data files, are
      fields of an environment [Env]; every theorem holds for all
      environments. *)

From Stdlib Require Import Ascii QArith Qround.
From stdpp Require Import gmap strings list pretty sorting.

Open Scope string_scope.
Open Scope list_scope.

(** ** JavaScript helpers *)

Module JS.

(** Truthiness of a string: the empty string is the only falsy one. *)
Definition truthy (s : string) : bool :=
  match s with EmptyString => false | String _ _ => true end.

(** [a || d] where [a] is an optional string. *)
Definition js_or (a : option string) (d : string) : string :=
  match a with
  | Some s => if truthy s then s else d
  | None => d
  end.

(** An optional string used as a condition. *)
Definition truthy_opt (a : option string) : bool :=
  match a with Some s => truthy s | None => false end.

(** [Array.prototype.join]. *)
Definition join (sep : string) (l : list string) : string := String.concat sep l.

(** [s.replace('s', '')]: the first occurrence of the letter is dropped. *)
Fixpoint replace_first_s (s : string) : string :=
  match s with
  | EmptyString => EmptyString
  | String c r => if Ascii.eqb c "s"%char then r else String c (replace_first_s r)
  end.

(** [s.startsWith(p)]. *)
Definition startsWith (s p : string) : bool := String.prefix p s.

(** Members that every plain object inherits from [Object.prototype];
    each of them is a function or an object, hence truthy. *)
Definition Object_prototype_keys : list string :=
  [ "constructor"; "__proto__"; "hasOwnProperty"; "isPrototypeOf";
    "propertyIsEnumerable"; "toLocaleString"; "toString"; "valueOf";
    "__defineGetter__"; "__defineSetter__"; "__lookupGetter__";
    "__lookupSetter__" ].

(** Result of reading [table[key]] on a plain object. *)
Inductive PropRead (A : Type) : Type :=
| Own (a : A)
| Inherited
| Missing.
Arguments Own {A} a.
Arguments Inherited {A}.
Arguments Missing {A}.

Definition js_get {A : Type} (own : option A) (key : string) : PropRead A :=
  match own with
  | Some a => Own a
  | None => if bool_decide (key ∈ Object_prototype_keys) then Inherited else Missing
  end.

(** Own-property lookup in an object literal. *)
Fixpoint assoc {A : Type} (key : string) (table : list (string * A)) : option A :=
  match table with
  | [] => None
  | (k, v) :: rest => if String.eqb k key then Some v else assoc key rest
  end.

(** [t] occurs in [s] as a substring. *)
Definition occurs_in (t s : string) : Prop :=
  ∃ pre post : string, s = pre +:+ t +:+ post.

End JS.

(** ** JSON values, as [JSON.parse] returns them *)

Set Warnings "-register-all".

Inductive Json : Type :=
| JNull
| JBool (b : bool)
| JNum (q : Q)
| JStr (s : string)
| JArr (l : list Json)
| JObj (fields : list (string * Json)).

(** ** Environment: catalogs, process settings, runtime services *)

Record Preset := { name : string; prompt : string }.

Definition Buffer := list Byte.byte.

Record Env := {
  (** [creative-trend-presets.json], reduced to an object keyed by id *)
  CREATIVE_TREND_PRESETS : gmap string Preset;
  (** [video-creative-trend-presets.json], reduced likewise *)
  VIDEO_CREATIVE_TREND_PRESETS : gmap string Preset;
  (** [process.env] *)
  GEMINI_API_KEY : option string;
  GOOGLE_API_KEY : option string;
  VIDEO_MODEL : string;
  (** [String(Object.prototype[k])] for an inherited member [k] *)
  inherited_text : string → string;
  (** [String(parseInt(s))] *)
  parseInt_text : string → string;
  (** [JSON.parse]; [None] when it throws a [SyntaxError] *)
  JSON_parse : string → option Json;
  (** [String(n)] for a number *)
  number_text : Q → string;
  (** [buf.toString("base64")] *)
  base64 : Buffer → string;
  (** [String.prototype.trim] *)
  trim : string → string
}.

(** ** Parameters of the prompt builders *)

Inductive TrendType := preset | ai_generated | skip.

Module CreativeTrend.
Record t := {
  type : TrendType;
  presetId : option string;
  customPrompt : option string
}.
End CreativeTrend.

Module VariationFields.
(** The [variationSpecs] member of [StructuredPromptParams]. *)
Record t := {
  lighting : option string;
  environment : option string;
  cameraAngle : option string;
  materials : option string
}.
End VariationFields.

Module StructuredPromptParams.
Record t := {
  referenceImageInteraction : option string;
  referenceImageCount : nat;
  creativeTrend : option CreativeTrend.t;
  brandGuidelines : string;
  primaryColor : string;
  secondaryColor : string;
  moodboardImageCount : nat;
  moodboardStartIndex : nat;
  aspectRatio : string;
  variantNumber : option Z;
  variationSpecs : option VariationFields.t
}.
End StructuredPromptParams.

Inductive ReferenceImagePurpose :=
| character | product | environment | keyframe | style_guide | custom.

Module VideoReferenceImage.
Record t := {
  index : nat;
  purpose : ReferenceImagePurpose;
  customDescription : option string
}.
End VideoReferenceImage.

Module VideoPromptParams.
Record t := {
  referenceImages : list VideoReferenceImage.t;
  creativeTrend : option CreativeTrend.t;
  brandGuidelines : string;
  primaryColor : string;
  secondaryColor : string;
  narrative : string;
  narrativeTemplate : option string;
  aspectRatio : string;
  duration : string
}.
End VideoPromptParams.

(** ** The prompt assembler *)

Module Prompt.

Import JS.

(** The separator of [sections.join]. *)
Definition separator : string := "

---

".

(** Headers that open the optional and the required sections. *)
Definition INTERACTION_HEADER : string := "REFERENCE IMAGES INTERACTION:".
Definition TREND_HEADER : string := "CREATIVE TREND:".
Definition BRAND_HEADER : string := "BRAND GUIDELINES:".
Definition PALETTE_HEADER : string := "COLOR PALETTE:".
Definition MOODBOARD_HEADER : string := "LOOK & FEEL REFERENCE (MOODBOARD):".
Definition IMAGE_SPEC_HEADER : string := "IMAGE SPECIFICATIONS:".
Definition VARIATION_HEADER : string := "VARIATION SPECIFICATIONS FOR VARIANT #".
Definition REFERENCE_HEADER : string := "REFERENCE IMAGES:".
Definition NARRATIVE_HEADER : string := "NARRATIVE / STORYLINE:".
Definition VIDEO_SPEC_HEADER : string := "VIDEO SPECIFICATIONS:".

Definition nl : string := "
".

(** Sections 3 (image) and 2 (video): the creative trend, resolved
    against a preset catalog. An inherited member read as a preset has
    no [prompt], which the template prints as [undefined]. *)
Definition creativeTrendSection (catalog : gmap string Preset)
    (trend : option CreativeTrend.t) : list string :=
  match trend with
  | None => []
  | Some ct =>
    match CreativeTrend.type ct with
    | preset =>
      match CreativeTrend.presetId ct with
      | Some id =>
        if truthy id then
          match js_get (catalog !! id) id with
          | Own p => [TREND_HEADER +:+ nl +:+ prompt p]
          | Inherited => [TREND_HEADER +:+ nl +:+ "undefined"]
          | Missing => []
          end
        else []
      | None => []
      end
    | ai_generated =>
      match CreativeTrend.customPrompt ct with
      | Some text => if truthy text then [TREND_HEADER +:+ nl +:+ text] else []
      | None => []
      end
    | skip => []
    end
  end.

Section Image.
Variable env : Env.
Import StructuredPromptParams.

(** Section 2: reference images interaction. *)
Definition interactionSection (params : StructuredPromptParams.t) : list string :=
  match referenceImageInteraction params with
  | Some text =>
    if truthy text && bool_decide (1 < referenceImageCount params)%nat then
      [INTERACTION_HEADER +:+ nl +:+ text +:+ "

Composition Requirements:
- Ensure seamless integration between referenced elements
- Match lighting, perspective, and scale across combined elements
- Blend edges naturally to avoid obvious compositing
- Maintain consistent depth of field and atmospheric perspective
- Preserve the quality and detail of key elements from each referenced image"]
    else []
  | None => []
  end.

(** Section 4: brand guidelines. *)
Definition brandSection (params : StructuredPromptParams.t) : string :=
  BRAND_HEADER +:+ nl +:+
  js_or (Some (brandGuidelines params))
    "Maintain professional, modern brand aesthetic with clean compositions and premium quality.".

(** Section 5: colour palette. *)
Definition paletteSection (params : StructuredPromptParams.t) : string :=
  PALETTE_HEADER +:+ nl +:+ "Primary Color: " +:+ primaryColor params +:+ nl +:+
  "Secondary Color: " +:+ secondaryColor params +:+ "

Use these colors as the dominant color scheme throughout the composition. The primary color should be the most prominent, with secondary color as supporting accent.".

(** Section 6: look and feel reference. *)
Definition moodboardRefs (params : StructuredPromptParams.t) : string :=
  join ", "
    (map (λ i : nat, "[image " +:+ pretty (moodboardStartIndex params + i + 1)%nat +:+ "]")
         (seq 0 (moodboardImageCount params))).

Definition moodboardSection (params : StructuredPromptParams.t) : list string :=
  if bool_decide (0 < moodboardImageCount params)%nat then
    [MOODBOARD_HEADER +:+ nl +:+
     "Draw inspiration from the visual style shown in " +:+ moodboardRefs params +:+
     ". These images establish the desired mood, lighting quality, composition approach, and aesthetic treatment. Emulate the color grading, atmospheric qualities, texturing methods, and overall visual language present in these references while adapting them to the creative concept."]
  else [].

(** Section 7: aspect ratio. *)
Definition aspectGuidance : list (string * string) :=
  [ ("9:16", "Optimize for vertical mobile viewing with focal point in upper-middle third");
    ("1:1", "Balanced, centered composition suitable for Instagram feed");
    ("4:5", "Slightly vertical composition with breathing room at top and bottom");
    ("16:9", "Cinematic wide composition with horizontal emphasis") ].

Definition aspectGuidanceText (ratio : string) : string :=
  match js_get (assoc ratio aspectGuidance) ratio with
  | Own text => text
  | Inherited => inherited_text env ratio
  | Missing => EmptyString
  end.

Definition imageSpecSection (params : StructuredPromptParams.t) : string :=
  IMAGE_SPEC_HEADER +:+ nl +:+
  "Generate image in " +:+ aspectRatio params +:+ " aspect ratio." +:+ nl +:+
  aspectGuidanceText (aspectRatio params).

(** Section 8: variations, for variants 2 to 10. *)
Definition variationPart (label : string) (field : option string) : list string :=
  match field with
  | Some text => if truthy text then [label +:+ text] else []
  | None => []
  end.

Definition variationParts (specs : VariationFields.t) : list string :=
  variationPart "Lighting: " (VariationFields.lighting specs) ++
  variationPart "Environment: " (VariationFields.environment specs) ++
  variationPart "Camera Angle: " (VariationFields.cameraAngle specs) ++
  variationPart "Materials: " (VariationFields.materials specs).

Definition variationSection (params : StructuredPromptParams.t) : list string :=
  match variantNumber params, variationSpecs params with
  | Some n, Some specs =>
    if bool_decide (1 < n)%Z then
      match variationParts specs with
      | [] => []
      | parts => [VARIATION_HEADER +:+ pretty n +:+ ":" +:+ nl +:+ nl +:+
                  join (nl +:+ nl) parts]
      end
    else []
  | _, _ => []
  end.

(** The array [sections] at the end of [buildStructuredPrompt]. *)
Definition imageSections (params : StructuredPromptParams.t) : list string :=
  interactionSection params ++
  creativeTrendSection (CREATIVE_TREND_PRESETS env) (creativeTrend params) ++
  [brandSection params] ++
  [paletteSection params] ++
  moodboardSection params ++
  [imageSpecSection params] ++
  variationSection params.

Definition buildStructuredPrompt (params : StructuredPromptParams.t) : string :=
  join separator (imageSections params).

End Image.

Section Video.
Variable env : Env.
Import VideoPromptParams.

Definition hasReferenceImages (params : VideoPromptParams.t) : bool :=
  bool_decide (0 < length (referenceImages params))%nat.

(** [hasReferenceImages ? "8s" : params.duration] *)
Definition effectiveDuration (params : VideoPromptParams.t) : string :=
  if hasReferenceImages params then "8s" else duration params.

(** [parseInt(effectiveDuration.replace('s', ''))], as the templates print it. *)
Definition durationSeconds (params : VideoPromptParams.t) : string :=
  parseInt_text env (replace_first_s (effectiveDuration params)).

(** Section 1: reference images. *)
Definition purposeLabel (img : VideoReferenceImage.t) : string :=
  match VideoReferenceImage.purpose img with
  | character => "Main influencer/character"
  | product => "Product to be featured"
  | environment => "Brand environment/location"
  | keyframe => "Key visual moment"
  | style_guide => "Visual style reference"
  | custom => js_or (VideoReferenceImage.customDescription img) "Custom reference"
  end.

Definition imageDescriptions (params : VideoPromptParams.t) : string :=
  join nl
    (map (λ img, "[image " +:+ pretty (VideoReferenceImage.index img) +:+ "] - " +:+
                 purposeLabel img)
         (referenceImages params)).

(** The fixed text that closes the reference-images section. *)
Definition REFERENCE_NOTICE : string := "

These images serve as visual anchors for character consistency, environment design, and key visual moments throughout the 8-second video sequence.

NOTE: Due to reference image constraints, this video is optimized for 8-second duration with focused, impactful storytelling.".

Definition referenceSection (params : VideoPromptParams.t) : list string :=
  if hasReferenceImages params then
    [REFERENCE_HEADER +:+ nl +:+ imageDescriptions params +:+ REFERENCE_NOTICE]
  else [].

(** Section 3: brand guidelines. *)
Definition brandGuidelinesContent (params : VideoPromptParams.t) : string :=
  js_or (Some (brandGuidelines params))
    ("Maintain professional, modern brand aesthetic with clean compositions and premium quality.

DO:
- Maintain consistent brand presence throughout " +:+ effectiveDuration params +:+ " video
- Use smooth, professional camera movements
- Ensure clear product/brand visibility in key frames
- Keep pacing energetic and focused (no wasted frames)

DON'T:
- Attempt complex multi-scene narratives (time too limited)
- Use slow, lingering shots (must maximize " +:+ effectiveDuration params +:+ ")
- Obscure brand elements with effects or transitions").

Definition videoBrandSection (params : VideoPromptParams.t) : string :=
  BRAND_HEADER +:+ nl +:+ brandGuidelinesContent params.

(** Section 4: colour palette; the text after the two colour lines is
    [paletteGuidance] of the effective duration. *)
Definition paletteGuidance (d : string) : string :=
  "Apply these colors consistently throughout the entire " +:+ d +:+
  " video sequence. The primary color should dominate the color scheme across all frames, with the secondary color as a supporting accent.

Color Application (" +:+ d +:+ " format):
- Establish color palette immediately in opening frame
- Maintain consistent color grading across all " +:+ replace_first_s d +:+ " seconds
- Use primary color in lighting design where appropriate
- Apply color palette to animated elements and motion graphics".

Definition videoPaletteSection (params : VideoPromptParams.t) : string :=
  PALETTE_HEADER +:+ nl +:+ "Primary Color: " +:+ primaryColor params +:+ nl +:+
  "Secondary Color: " +:+ secondaryColor params +:+ nl +:+ nl +:+
  paletteGuidance (effectiveDuration params).

(** Section 5: narrative. *)
Definition narrativeGuidance (params : VideoPromptParams.t) : string :=
  if hasReferenceImages params then "

Structure the narrative to include (within 8 seconds):
- Opening hook (0-2 seconds) - Immediate visual interest
- Core moment/action (2-6 seconds) - Main content or transformation
- Payoff/conclusion (6-8 seconds) - Resolution or call-to-action

Keep scenes minimal, transitions quick or nonexistent, and focus on single impactful moment."
  else EmptyString.

Definition narrativeSection (params : VideoPromptParams.t) : string :=
  NARRATIVE_HEADER +:+ nl +:+ narrative params +:+ narrativeGuidance params.

(** Section 6: video specifications. *)
Definition videoAspectGuidance (seconds : string) : list (string * string) :=
  [ ("9:16", "9:16 (Vertical/TikTok, Reels, Shorts): Optimize for vertical mobile viewing with key action in center-upper frame. Subject should fill frame appropriately. Ideal for portrait-oriented content and full-screen mobile engagement. " +:+ seconds +:+ "-second format perfect for snackable TikTok content.");
    ("1:1", "1:1 (Square/Instagram Feed): Balanced, centered composition. Works well for product showcases and symmetrical framing. Ensure important elements stay within safe zone. " +:+ seconds +:+ "-second duration ideal for looping Instagram feed content.");
    ("16:9", "16:9 (Landscape/YouTube, Horizontal): Cinematic widescreen composition. Utilize horizontal space efficiently within " +:+ seconds +:+ "-second timeframe. Use rule of thirds for subject placement. Ideal for YouTube Shorts introductory clips.") ].

Definition videoAspectGuidanceText (seconds ratio : string) : string :=
  match js_get (assoc ratio (videoAspectGuidance seconds)) ratio with
  | Own text => text
  | Inherited => inherited_text env ratio
  | Missing => default EmptyString (assoc "9:16" (videoAspectGuidance seconds))
  end.

Definition durationNote (params : VideoPromptParams.t) : string :=
  if hasReferenceImages params
  then "Duration: 8 seconds (reference image constraint with Google Veo 3.1)"
  else "Duration: " +:+ effectiveDuration params.

Definition videoSpecSection (params : VideoPromptParams.t) : string :=
  VIDEO_SPEC_HEADER +:+ nl +:+
  "Generate video in " +:+ aspectRatio params +:+ " aspect ratio." +:+ nl +:+
  durationNote params +:+ nl +:+ nl +:+
  videoAspectGuidanceText (durationSeconds params) (aspectRatio params) +:+ "

Framing Guidelines:
- Establish framing immediately in first frame (no time for slow reveals)
- Maintain consistent framing throughout camera movements
- Ensure subject/product remains properly framed during motion
- Account for platform-specific safe zones
- Design for potential looping (" +:+ durationSeconds params +:+
  "-second videos often auto-loop on platforms)".

(** The array [sections] at the end of [buildVideoStructuredPrompt]. *)
Definition videoSections (params : VideoPromptParams.t) : list string :=
  referenceSection params ++
  creativeTrendSection (VIDEO_CREATIVE_TREND_PRESETS env) (creativeTrend params) ++
  [videoBrandSection params] ++
  [videoPaletteSection params] ++
  [narrativeSection params] ++
  [videoSpecSection params].

Definition buildVideoStructuredPrompt (params : VideoPromptParams.t) : string :=
  join separator (videoSections params).

End Video.

End Prompt.

(** ** Data exchanged with the callers and the collaborators *)

Module ImageGenerationParams.
Record t := {
  prompt : string;
  referenceImages : option (list Buffer);
  aspectRatio : option string;
  numberOfImages : option Z
}.
End ImageGenerationParams.

Module VideoGenerationParams.
Record t := {
  prompt : string;
  anchorImages : option (list Buffer);
  duration : option string;
  aspectRatio : option string
}.
End VideoGenerationParams.

Inductive MediaType := image | video.

Module GenerationResult.
Record t := {
  type : MediaType;
  filePath : string;
  fileName : string;
  mimeType : string
}.
End GenerationResult.

Module VariationSpec.
Record t := {
  lighting : string;
  environment : string;
  cameraAngle : string;
  materials : string
}.
End VariationSpec.

(** The argument of [client.models.generateContent]. *)
Module ContentRequest.
Record t := {
  model : string;
  text : string;
  systemInstruction : string;
  maxOutputTokens : Z
}.
End ContentRequest.

(** How a call ends: with a value, or with a thrown [Error] and its message. *)
Inductive Completion (A : Type) : Type :=
| Returned (a : A)
| Threw (message : string).
Arguments Returned {A} a.
Arguments Threw {A} message.

(** What [client.models.generateContent] does: it throws, or it answers
    with a response whose [text] may be undefined. *)
Inductive ContentOutcome :=
| ContentThrows (message : string)
| ContentText (text : option string).

(** The collaborators of one request. [generateImage] is asked with the
    number of calls made before, so that equal prompts may be answered
    differently. *)
Record World := {
  generateContent : ContentRequest.t → ContentOutcome;
  generateImage : nat → ImageGenerationParams.t → Completion GenerationResult.t;
  generateVideo : VideoGenerationParams.t → Completion GenerationResult.t
}.

(** ** Events of the progress stream *)

Module FileInfo.
Record t := { filePath : string; fileName : string; mimeType : string }.
End FileInfo.

Inductive ResultValue :=
| SingleFile (filePath : string)
| FileList (filePaths : list string).

Module ImageMetadata.
Record t := {
  count : nat;
  files : list FileInfo.t;
  trend : string;
  aspectRatio : string;
  downloadUrl : string
}.
End ImageMetadata.

Module VideoMetadata.
Record t := {
  fileName : string;
  mimeType : string;
  trend : string;
  duration : string;
  aspectRatio : string;
  downloadUrl : string;
  hasReferenceImages : bool
}.
End VideoMetadata.

(** The three shapes of a JSON payload written after [data: ]. *)
Inductive SseEvent :=
| StatusEvent (status : string) (progress : Z)
| ImageResultEvent (result : ResultValue) (metadata : ImageMetadata.t)
| VideoResultEvent (result : string) (metadata : VideoMetadata.t)
| ErrorEvent (error : string).

(** What one request does, in order. *)
Inductive Action :=
| Enqueue (event : SseEvent)
| Close
| CallGenerateContent (request : ContentRequest.t)
| CallGenerateImage (params : ImageGenerationParams.t)
| CallGenerateVideo (params : VideoGenerationParams.t).

(** ** Computations that act and may throw *)

Module Effect.

Definition M (A : Type) : Type := list Action * Completion A.

Definition ret {A : Type} (a : A) : M A := ([], Returned a).

Definition bind {A B : Type} (k : A → M B) (m : M A) : M B :=
  match m with
  | (t, Returned a) => let '(t', r) := k a in ((t ++ t')%list, r)
  | (t, Threw e) => (t, Threw e)
  end.

(** stdpp's monad notations: [x ← m; k] and [m;; k]. *)
#[global] Instance M_ret : MRet M := @ret.
#[global] Instance M_bind : MBind M := @bind.

Definition throw {A : Type} (message : string) : M A := ([], Threw message).

(** [try { m } catch (error) { handler error.message }] *)
Definition try_catch {A : Type} (m : M A) (handler : string → M A) : M A :=
  match m with
  | (t, Threw e) => let '(t', r) := handler e in ((t ++ t')%list, r)
  | done => done
  end.

Definition act (a : Action) : M unit := ([a], Returned tt).

(** A call that neither acts nor is observed, but may throw. *)
Definition lift {A : Type} (c : Completion A) : M A := ([], c).

Definition trace {A : Type} (m : M A) : list Action := fst m.
Definition completion {A : Type} (m : M A) : Completion A := snd m.

End Effect.

(** ** The text-model helpers and the variation generator *)

Module TextModel.

Import JS Effect.

(** A double quote, and a quoted piece of a template. *)
Definition dq : string := String (Ascii.ascii_of_nat 34) EmptyString.
Definition quoted (s : string) : string := dq +:+ s +:+ dq.

Definition nl : string := Prompt.nl.

(** *** Fallback variations *)

Definition lightingOptions : list string :=
  [ "soft natural lighting with diffused shadows";
    "dramatic studio lighting with high contrast";
    "golden hour glow with warm rim lighting";
    "cool blue tones with ethereal atmosphere";
    "warm ambient light with subtle gradients" ].

Definition environmentOptions : list string :=
  [ "minimal white background with clean aesthetic";
    "textured natural backdrop with organic elements";
    "lifestyle setting with contextual props";
    "abstract gradient background with modern feel";
    "outdoor environment with natural lighting" ].

Definition cameraOptions : list string :=
  [ "eye-level front view for direct engagement";
    "slight overhead angle at 15 degrees";
    "low angle hero shot creating empowerment";
    "dynamic 3/4 view with depth";
    "top-down flat lay composition" ].

Definition materialOptions : list string :=
  [ "matte surfaces with soft texture";
    "glossy reflective surfaces with subtle highlights";
    "textured organic materials with natural grain";
    "metallic accents with premium finish";
    "soft fabric textures with gentle folds" ].

(** [options[i % options.length]] *)
Definition pick (options : list string) (i : nat) : string :=
  nth (i mod length options) options EmptyString.

(** [factors.includes(f)] *)
Definition includes (factors : list string) (f : string) : bool :=
  bool_decide (f ∈ factors).

Definition fallbackVariation (factors : list string) (i : nat) : VariationSpec.t :=
  {| VariationSpec.lighting :=
       if includes factors "lighting" then pick lightingOptions i
       else "standard studio lighting";
     VariationSpec.environment :=
       if includes factors "environment" then pick environmentOptions i
       else "clean studio background";
     VariationSpec.cameraAngle :=
       if includes factors "camera-angle" then pick cameraOptions i
       else "standard product angle";
     VariationSpec.materials :=
       if includes factors "materials" then pick materialOptions i
       else "natural product materials" |}.

(** The loop [for (let i = 0; i < count; i++)] pushes one entry per index. *)
Definition generateFallbackVariations (count : Z) (factors : list string)
    : list VariationSpec.t :=
  map (fallbackVariation factors) (seq 0 (Z.to_nat count)).

(** A [VariationSpec] as the object it is at run time. *)
Definition specObject (v : VariationSpec.t) : Json :=
  JObj [ ("lighting", JStr (VariationSpec.lighting v));
         ("environment", JStr (VariationSpec.environment v));
         ("cameraAngle", JStr (VariationSpec.cameraAngle v));
         ("materials", JStr (VariationSpec.materials v)) ].

(** What the handler of [generateVariationSpecs] returns:
    [generateFallbackVariations(variantCount - 1, varianceFactors)]. *)
Definition fallbackValue (factors : list string) (variantCount : Z) : Json :=
  JArr (map specObject (generateFallbackVariations (variantCount - 1) factors)).

(** *** Cleaning the reply before [JSON.parse] *)

Fixpoint drop (n : nat) (s : string) : string :=
  match n, s with
  | S k, String _ r => drop k r
  | _, _ => s
  end.

Definition backticks : string := "```".

(** Length of the match of [/```json?\n?/] at the start of [s], or 0. *)
Definition openFenceLength (s : string) : nat :=
  if String.prefix "```jso" s then
    let r1 := drop 6 s in
    let a := if String.prefix "n" r1 then 1%nat else 0%nat in
    let r2 := drop a r1 in
    let b := if String.prefix nl r2 then 1%nat else 0%nat in
    (6 + a + b)%nat
  else 0%nat.

(** [s.replace(/```json?\n?/g, empty)]; [skip] characters of a match remain. *)
Fixpoint stripOpenFences (skip : nat) (s : string) : string :=
  match s with
  | EmptyString => EmptyString
  | String c r =>
    match skip with
    | S k => stripOpenFences k r
    | O =>
      match openFenceLength s with
      | O => String c (stripOpenFences 0 r)
      | S k => stripOpenFences k r
      end
    end
  end.

(** [s.replace(/```$/g, empty)] *)
Fixpoint stripClosingFence (s : string) : string :=
  match s with
  | EmptyString => EmptyString
  | String c r => if String.eqb s backticks then EmptyString
                  else String c (stripClosingFence r)
  end.

(** [factorsToVary] *)
Definition factorLabel (f : string) : string :=
  if String.eqb f "lighting" then "Lighting style and mood"
  else if String.eqb f "environment" then "Background/environment setting"
  else if String.eqb f "camera-angle" then "Camera angle and perspective"
  else if String.eqb f "materials" then "Material textures and surface treatments"
  else f.

Section Client.
Variable env : Env.
Variable world : World.

(** [process.env.GEMINI_API_KEY || process.env.GOOGLE_API_KEY], or an error. *)
Definition getApiKey : Completion string :=
  let apiKey := js_or (GEMINI_API_KEY env) (js_or (GOOGLE_API_KEY env) EmptyString) in
  if truthy apiKey then Returned apiKey
  else Threw "GOOGLE_API_KEY or GEMINI_API_KEY must be set in .env.local".

(** The client is the key it was made with. *)
Definition getClient : Completion string := getApiKey.

(** [await client.models.generateContent(request)] *)
Definition callGenerateContent (request : ContentRequest.t) : M (option string) :=
  act (CallGenerateContent request);;
  match generateContent world request with
  | ContentThrows message => throw message
  | ContentText text => mret text
  end.

(** *** Creative trend from a description (image) *)

Definition trendSystemPrompt : string :=
"You are a creative director for TikTok/Instagram content. Your job is to transform a brief description into a detailed creative direction for AI image generation.

Given a user's description of a creative trend, generate a DETAILED creative prompt that includes:
1. Visual Style - Specific artistic direction (lighting, colors, textures, mood)
2. Composition - How elements should be arranged and framed
3. Atmosphere - The emotional feel and vibe of the image
4. Technical Details - Camera perspective, depth of field, special effects

Keep the output focused, actionable, and designed for product photography/promotional content.
Output ONLY the creative direction text, no additional explanation or formatting.".

Definition trendUserPrompt (description : string) : string :=
  "Transform this creative trend description into a detailed image generation prompt:

" +:+ quoted description +:+ "

Generate a comprehensive creative direction that an AI image generator can follow to create stunning product visuals.".

Definition trendRequest (description : string) : ContentRequest.t :=
  {| ContentRequest.model := "gemini-2.0-flash";
     ContentRequest.text := trendUserPrompt description;
     ContentRequest.systemInstruction := trendSystemPrompt;
     ContentRequest.maxOutputTokens := 800 |}.

Definition generateCreativeTrendFromDescription (description : string) : M string :=
  _ ← lift getClient;
  try_catch
    (text ← callGenerateContent (trendRequest description);
     mret (js_or (trim env <$> text) EmptyString))
    (λ _, throw "Failed to generate creative trend from description").

(** *** Creative trend from a description (video) *)

Definition videoTrendSystemPrompt : string :=
"You are a creative director for TikTok/Instagram video content. Your job is to transform a brief description into a detailed creative direction for AI video generation.

Given a user's description of a video trend, generate a DETAILED creative prompt that includes:
1. Visual Style - Animation style, movement quality, color treatment
2. Camera Motion - Specific camera movements (smooth, handheld, cinematic, etc.)
3. Pacing & Rhythm - How the video should flow (MUST be optimized for 8-second format)
4. Transitions - Minimal due to time constraint, quick cuts preferred
5. Motion Graphics - Quick, clear effects if applicable

CRITICAL: All directions must be achievable within an 8-second timeframe. Focus on single impactful moments, not complex multi-scene narratives.

Output ONLY the creative direction text, no additional explanation or formatting.".

Definition videoTrendUserPrompt (description : string) : string :=
  "Transform this video trend description into a detailed video generation prompt optimized for 8 seconds:

" +:+ quoted description +:+ "

Generate a comprehensive creative direction that an AI video generator can follow to create stunning short-form content.".

Definition videoTrendRequest (description : string) : ContentRequest.t :=
  {| ContentRequest.model := "gemini-2.0-flash";
     ContentRequest.text := videoTrendUserPrompt description;
     ContentRequest.systemInstruction := videoTrendSystemPrompt;
     ContentRequest.maxOutputTokens := 800 |}.

Definition generateVideoCreativeTrendFromDescription (description : string) : M string :=
  _ ← lift getClient;
  try_catch
    (text ← callGenerateContent (videoTrendRequest description);
     mret (js_or (trim env <$> text) EmptyString))
    (λ _, throw "Failed to generate video creative trend from description").

(** *** Variation specifications *)

Definition variationSystemPrompt : string :=
"You are a creative director specializing in product photography variations. Your job is to generate unique, cohesive variation specifications for a series of product images.

Each variation should be distinct but maintain brand consistency. Output ONLY a valid JSON array with no additional text or markdown formatting.".

Definition variationUserPrompt (baseCreativeDirection brandGuidelines : string)
    (varianceFactors : list string) (variantCount : Z) : string :=
  "Generate " +:+ pretty (variantCount - 1)%Z +:+ " unique variation specifications for product images.

BASE CREATIVE DIRECTION:
" +:+ baseCreativeDirection +:+ "

BRAND GUIDELINES:
" +:+ js_or (Some brandGuidelines) "Professional, modern brand aesthetic" +:+ "

FACTORS TO VARY: " +:+ join ", " (map factorLabel varianceFactors) +:+ "

Generate a JSON array of variation objects. Each object MUST have these exact keys:
- " +:+ quoted "lighting" +:+ ": Specific lighting description (e.g., " +:+
  quoted "soft diffused morning light with gentle shadows" +:+ ")
- " +:+ quoted "environment" +:+ ": Background/setting description (e.g., " +:+
  quoted "minimalist white studio with subtle gradient" +:+ ")
- " +:+ quoted "cameraAngle" +:+ ": Camera perspective (e.g., " +:+
  quoted "eye-level front view with slight 15-degree tilt" +:+ ")
- " +:+ quoted "materials" +:+ ": Surface/texture emphasis (e.g., " +:+
  quoted "matte surfaces with soft velvet undertones" +:+ ")

Make each variation distinctly different while maintaining brand cohesion.
Output ONLY the JSON array, no explanation or markdown code blocks.

Example format:
[{" +:+ quoted "lighting" +:+ ":" +:+ quoted "..." +:+ "," +:+
  quoted "environment" +:+ ":" +:+ quoted "..." +:+ "," +:+
  quoted "cameraAngle" +:+ ":" +:+ quoted "..." +:+ "," +:+
  quoted "materials" +:+ ":" +:+ quoted "..." +:+ "}]".

(** [response.text?.trim() || "[]"], then the fences are removed when
    the text starts with one. *)
Definition cleanJson (text : option string) : string :=
  let responseText := js_or (trim env <$> text) "[]" in
  if startsWith responseText backticks
  then trim env (stripClosingFence (stripOpenFences 0 responseText))
  else responseText.

(** [JSON.parse(cleanJson)] followed by the read of [variations.length],
    which throws on [null]. The messages of the two errors are those of
    the engine; the handler around them ignores its argument. *)
Definition parseVariations (text : option string) : M Json :=
  match JSON_parse env (cleanJson text) with
  | None => throw "SyntaxError"
  | Some JNull => throw "TypeError"
  | Some variations => mret variations
  end.

Definition variationRequest (baseCreativeDirection brandGuidelines : string)
    (varianceFactors : list string) (variantCount : Z) : ContentRequest.t :=
  {| ContentRequest.model := "gemini-2.0-flash";
     ContentRequest.text :=
       variationUserPrompt baseCreativeDirection brandGuidelines
                           varianceFactors variantCount;
     ContentRequest.systemInstruction := variationSystemPrompt;
     ContentRequest.maxOutputTokens := 2000 |}.

Definition generateVariationSpecs (baseCreativeDirection brandGuidelines : string)
    (varianceFactors : list string) (variantCount : Z) : M Json :=
  if bool_decide (variantCount ≤ 1)%Z || bool_decide (length varianceFactors = 0%nat)
  then mret (JArr [])
  else
    _ ← lift getClient;
    try_catch
      (text ← callGenerateContent
         (variationRequest baseCreativeDirection brandGuidelines
                           varianceFactors variantCount);
       parseVariations text)
      (λ _, mret (fallbackValue varianceFactors variantCount)).

End Client.

End TextModel.

(** ** The generation endpoint (structured-prompt route) *)

Inductive ProtocolType := IMAGE | VIDEO.

Module TrendChoice.
(** [creativeTrendType] and [videoCreativeTrendType] *)
Inductive t := preset | ai | skip.
End TrendChoice.

Module GenerationConfig.
Record t := {
  protocolType : ProtocolType;
  trendType : string;
  brandGuidelines : option string;
  primaryColor : option string;
  secondaryColor : option string;
  aspectRatio : option string;
  variantCount : option Z;
  varianceFactors : option (list string);
  useAIStoryline : option bool;
  narrative : option string;
  videoLength : option string;
  useImageInteraction : option bool;
  imageInteractionDescription : option string;
  creativeTrendType : option TrendChoice.t;
  selectedPreset : option string;
  aiTrendDescription : option string;
  imagePurposes : option (list ReferenceImagePurpose);
  customPurposeDescriptions : option (list string);
  narrativeTemplate : option string;
  videoCreativeTrendType : option TrendChoice.t;
  selectedVideoPreset : option string;
  aiVideoTrendDescription : option string
}.
End GenerationConfig.

(** A value of a multipart form: a text field or an uploaded file. *)
Inductive FormValue :=
| FormText (text : string)
| FormFile (content : Buffer).

(** The request, as far as the handler reads it: [request.formData()]
    gives the entries in order, or throws. *)
Record NextRequest := {
  formData : Completion (list (string * FormValue))
}.

(** Values of JavaScript, as the endpoint handles a parsed reply. *)
Module JsValue.

Import JS.

Definition truthy (v : Json) : bool :=
  match v with
  | JNull => false
  | JBool b => b
  | JNum q => negb (Qeq_bool q 0)
  | JStr s => JS.truthy s
  | JArr _ | JObj _ => true
  end.

(** [v[i]] for an index [i]: the element of an array, the character
    of a string, the member of an object that is named by the digits of
    [i]; a number and a boolean have no such member. *)
Definition index (v : Json) (i : nat) : option Json :=
  match v with
  | JArr l => l !! i
  | JStr s => match String.get i s with
              | Some c => Some (JStr (String c EmptyString))
              | None => None
              end
  | JObj fields => assoc (pretty i) fields
  | _ => None
  end.

(** [v.key] for one of the keys of a variation; only an object has them. *)
Definition field (v : Json) (key : string) : option Json :=
  match v with
  | JObj fields => assoc key fields
  | _ => None
  end.

Section Text.
Variable env : Env.

(** [String(v)], as a template prints it. *)
Fixpoint text (v : Json) : string :=
  match v with
  | JNull => "null"
  | JBool true => "true"
  | JBool false => "false"
  | JNum q => number_text env q
  | JStr s => s
  | JArr l => join "," (map (λ e, match e with JNull => EmptyString | _ => text e end) l)
  | JObj _ => "[object Object]"
  end.

(** [`${v}`] where [v] may be undefined. *)
Definition interpolate (v : option Json) : string :=
  match v with
  | Some v => text v
  | None => "undefined"
  end.

End Text.

End JsValue.

Module Route.

Import JS Effect.
Import GenerationConfig.

Definition nl : string := Prompt.nl.

(** [sendStatus(controller, encoder, message, progress)] *)
Definition sendStatus (message : string) (progress : Z) : M unit :=
  act (Enqueue (StatusEvent message progress)).

Definition sendError (message : string) : M unit :=
  act (Enqueue (ErrorEvent message)).

(** [formData.get("config")]: the first value under that name. *)
Fixpoint formGet (key : string) (entries : list (string * FormValue)) : option FormValue :=
  match entries with
  | [] => None
  | (k, v) :: rest => if String.eqb k key then Some v else formGet key rest
  end.

Definition isFile (v : FormValue) : bool :=
  match v with FormFile _ => true | FormText _ => false end.

Definition fileContent (v : FormValue) : Buffer :=
  match v with FormFile b => b | FormText _ => [] end.

(** The buffers pushed to [anchorImageBuffers]. *)
Definition anchorImageBuffers (entries : list (string * FormValue)) : list Buffer :=
  map (λ e, fileContent e.2)
    (filter (λ e, isFile e.2 && negb (String.eqb e.1 "config") &&
                   startsWith e.1 "anchorImage_" = true) entries).

(** The buffers pushed to [uploadedImages]. *)
Definition uploadedImages (entries : list (string * FormValue)) : list Buffer :=
  map (λ e, fileContent e.2)
    (filter (λ e, isFile e.2 && negb (String.eqb e.1 "config") &&
                   negb (startsWith e.1 "anchorImage_") &&
                   (startsWith e.1 "productImage_" || String.eqb e.1 "lookAndFeel") = true)
            entries).

Definition productImageCount (entries : list (string * FormValue)) : nat :=
  length (filter (λ e, startsWith e.1 "productImage_" = true) entries).

Definition moodboardImageCount (entries : list (string * FormValue)) : nat :=
  length (filter (λ e, String.eqb e.1 "lookAndFeel" = true) entries).

(** [25 + Math.floor((i / variantCount) * 60)], the quotient being exact. *)
Definition progressBase (i : nat) (variantCount : Z) : Z :=
  25 + Qfloor ((inject_Z (Z.of_nat i) / inject_Z variantCount) * 60)%Q.

(** [config.variantCount || 1] *)
Definition variantCountOf (config : GenerationConfig.t) : Z :=
  match variantCount config with
  | Some n => if bool_decide (n = 0)%Z then 1%Z else n
  | None => 1%Z
  end.

(** [hasReferenceImages ? "8s" : config.videoLength || "6s"] *)
Definition requestDuration (hasReferenceImages : bool) (config : GenerationConfig.t) : string :=
  if hasReferenceImages then "8s" else js_or (videoLength config) "6s".

Definition isTrue (b : option bool) : bool := default false b.

Section Handler.
Variable env : Env.
Variable world : World.
(** [JSON.parse(configStr)] read as a [GenerationConfig], the type the
    handler declares for it; it throws on text that is not JSON. The
    handler does not check the parsed value. A value of another type
    ([null], a field of another type, a fractional [variantCount]) is
    not represented: on such a value the handler may raise a
    [TypeError] where it uses a member, and one that is raised outside
    the inner [try] ends the stream through the outer [catch], like
    every other failure there, with an error event and the close. *)
Variable parseConfig : string → Completion GenerationConfig.t.

(** The parameters handed to [buildStructuredPrompt]. *)
Definition creativeTrendConfig (config : GenerationConfig.t)
    (aiGeneratedTrend : option string) : CreativeTrend.t :=
  match creativeTrendType config, selectedPreset config, aiGeneratedTrend with
  | Some TrendChoice.preset, Some sel, _ =>
    if truthy sel then
      {| CreativeTrend.type := preset; CreativeTrend.presetId := Some sel;
         CreativeTrend.customPrompt := None |}
    else
      {| CreativeTrend.type := skip; CreativeTrend.presetId := None;
         CreativeTrend.customPrompt := None |}
  | Some TrendChoice.ai, _, Some generated =>
    if truthy generated then
      {| CreativeTrend.type := ai_generated; CreativeTrend.presetId := None;
         CreativeTrend.customPrompt := Some generated |}
    else
      {| CreativeTrend.type := skip; CreativeTrend.presetId := None;
         CreativeTrend.customPrompt := None |}
  | _, _, _ =>
    {| CreativeTrend.type := skip; CreativeTrend.presetId := None;
       CreativeTrend.customPrompt := None |}
  end.

Definition structuredPromptParams (config : GenerationConfig.t)
    (entries : list (string * FormValue)) (aiGeneratedTrend : option string)
    : StructuredPromptParams.t :=
  {| StructuredPromptParams.referenceImageInteraction :=
       if isTrue (useImageInteraction config)
       then imageInteractionDescription config else None;
     StructuredPromptParams.referenceImageCount := productImageCount entries;
     StructuredPromptParams.creativeTrend :=
       Some (creativeTrendConfig config aiGeneratedTrend);
     StructuredPromptParams.brandGuidelines := js_or (brandGuidelines config) EmptyString;
     StructuredPromptParams.primaryColor := js_or (primaryColor config) "#25F4EE";
     StructuredPromptParams.secondaryColor := js_or (secondaryColor config) "#FE2C55";
     StructuredPromptParams.moodboardImageCount := moodboardImageCount entries;
     StructuredPromptParams.moodboardStartIndex := productImageCount entries;
     StructuredPromptParams.aspectRatio := js_or (aspectRatio config) "9:16";
     StructuredPromptParams.variantNumber := None;
     StructuredPromptParams.variationSpecs := None |}.

(** [await generateImage(params)], the [k]-th call of the request. *)
Definition callGenerateImage (k : nat) (params : ImageGenerationParams.t)
    : M GenerationResult.t :=
  act (CallGenerateImage params);;
  lift (generateImage world k params).

(** [await generateVideo(params)] *)
Definition callGenerateVideo (params : VideoGenerationParams.t) : M GenerationResult.t :=
  act (CallGenerateVideo params);;
  lift (generateVideo world params).

(** *** Image branch *)

(** The prompt of variant [i]. *)
Definition variationSection (i : nat) (spec : Json) : string :=
  Prompt.VARIATION_HEADER +:+ pretty (i + 1)%nat +:+ ":

Lighting: " +:+ JsValue.interpolate env (JsValue.field spec "lighting") +:+ "

Environment: " +:+ JsValue.interpolate env (JsValue.field spec "environment") +:+ "

Camera Angle: " +:+ JsValue.interpolate env (JsValue.field spec "cameraAngle") +:+ "

Materials: " +:+ JsValue.interpolate env (JsValue.field spec "materials").

Definition variantPrompt (structuredPrompt : string) (variationSpecs : Json) (i : nat)
    : string :=
  match i with
  | O => structuredPrompt
  | S j =>
    match JsValue.index variationSpecs j with
    | Some spec =>
      if JsValue.truthy spec
      then structuredPrompt +:+ Prompt.separator +:+ variationSection i spec
      else structuredPrompt
    | None => structuredPrompt
    end
  end.

Definition imageParams (config : GenerationConfig.t) (uploaded : list Buffer)
    (prompt : string) : ImageGenerationParams.t :=
  {| ImageGenerationParams.prompt := prompt;
     ImageGenerationParams.referenceImages :=
       if bool_decide (0 < length uploaded)%nat then Some uploaded else None;
     ImageGenerationParams.aspectRatio := Some (js_or (aspectRatio config) "9:16");
     ImageGenerationParams.numberOfImages := Some 1%Z |}.

Definition fileInfo (r : GenerationResult.t) : FileInfo.t :=
  {| FileInfo.filePath := GenerationResult.filePath r;
     FileInfo.fileName := GenerationResult.fileName r;
     FileInfo.mimeType := GenerationResult.mimeType r |}.

(** The status message and the parameters of unit [i]. *)
Definition unitMessage (config : GenerationConfig.t) (i : nat) : string :=
  "Generating image " +:+ pretty (i + 1)%nat +:+ " of " +:+
  pretty (variantCountOf config) +:+ "...".

Definition unitParams (config : GenerationConfig.t) (uploaded : list Buffer)
    (structuredPrompt : string) (variationSpecs : Json) (i : nat)
    : ImageGenerationParams.t :=
  imageParams config uploaded (variantPrompt structuredPrompt variationSpecs i).

(** The body of [for (let i = 0; i < variantCount; i++)], run for the
    indices that remain; [results] is the array filled so far. *)
Fixpoint imageLoop (config : GenerationConfig.t) (uploaded : list Buffer)
    (structuredPrompt : string) (variationSpecs : Json)
    (indices : list nat) (results : list FileInfo.t) : M (list FileInfo.t) :=
  match indices with
  | [] => mret results
  | i :: rest =>
    sendStatus (unitMessage config i) (progressBase i (variantCountOf config));;
    result ← callGenerateImage i
      (unitParams config uploaded structuredPrompt variationSpecs i);
    imageLoop config uploaded structuredPrompt variationSpecs rest
              (results ++ [fileInfo result])
  end.

(** The payload of the result event; reading [results[0].filePath]
    throws when nothing was generated. *)
Definition imageResultPayload (config : GenerationConfig.t) (results : list FileInfo.t)
    : Completion SseEvent :=
  match results with
  | [] => Threw "Cannot read properties of undefined (reading 'filePath')"
  | first :: others =>
    Returned (ImageResultEvent
      (match others with
       | [] => SingleFile (FileInfo.filePath first)
       | _ => FileList (map FileInfo.filePath results)
       end)
      {| ImageMetadata.count := length results;
         ImageMetadata.files := results;
         ImageMetadata.trend := trendType config;
         ImageMetadata.aspectRatio := js_or (aspectRatio config) "9:16";
         ImageMetadata.downloadUrl := FileInfo.filePath first |})
  end.

Definition baseCreativeDirection (config : GenerationConfig.t)
    (aiGeneratedTrend : option string) : string :=
  match creativeTrendType config, selectedPreset config, aiGeneratedTrend with
  | Some TrendChoice.preset, Some sel, _ =>
    if truthy sel then "Preset: " +:+ sel
    else "Product photography with professional aesthetic"
  | Some TrendChoice.ai, _, Some generated =>
    if truthy generated then generated
    else "Product photography with professional aesthetic"
  | _, _, _ => "Product photography with professional aesthetic"
  end.

(** The factors to vary, when [variantCount > 1 && config.varianceFactors
    && config.varianceFactors.length > 0]. *)
Definition factorsToVary (config : GenerationConfig.t) : option (list string) :=
  match varianceFactors config with
  | Some factors =>
    if bool_decide (1 < variantCountOf config)%Z && bool_decide (0 < length factors)%nat
    then Some factors else None
  | None => None
  end.

(** The optional call of [generateVariationSpecs]. *)
Definition variationSpecsStep (config : GenerationConfig.t)
    (aiGeneratedTrend : option string) : M Json :=
  match factorsToVary config with
  | Some factors =>
    sendStatus "AI generating unique variation specs for each variant..." 22;;
    TextModel.generateVariationSpecs env world
      (baseCreativeDirection config aiGeneratedTrend)
      (js_or (brandGuidelines config) EmptyString)
      factors (variantCountOf config)
  | None => mret (JArr [])
  end.

Definition imageBranch (config : GenerationConfig.t) (uploaded : list Buffer)
    (structuredPrompt : string) (aiGeneratedTrend : option string) : M unit :=
  sendStatus "Connecting to Nano Banana Pro (gemini-3-pro-image)..." 20;;
  try_catch
    (variationSpecs ← variationSpecsStep config aiGeneratedTrend;
     results ← imageLoop config uploaded structuredPrompt variationSpecs
                 (seq 0 (Z.to_nat (variantCountOf config))) [];
     sendStatus (pretty (variantCountOf config) +:+ " image(s) generated successfully!") 90;;
     sendStatus "Preparing for preview..." 95;;
     payload ← lift (imageResultPayload config results);
     act (Enqueue payload))
    (λ message, sendError message).

(** *** Video branch *)

Definition videoReferenceImages (config : GenerationConfig.t) (anchors : list Buffer)
    : list VideoReferenceImage.t :=
  imap (λ i _,
    let given := imagePurposes config ≫= (λ l, l !! i) in
    {| VideoReferenceImage.index := (i + 1)%nat;
       VideoReferenceImage.purpose := default product given;
       VideoReferenceImage.customDescription :=
         match given with
         | Some custom => customPurposeDescriptions config ≫= (λ l, l !! i)
         | _ => None
         end |}) anchors.

Definition videoCreativeTrendConfig (config : GenerationConfig.t)
    (aiGeneratedVideoTrend : option string) : CreativeTrend.t :=
  match videoCreativeTrendType config, selectedVideoPreset config, aiGeneratedVideoTrend with
  | Some TrendChoice.preset, Some sel, _ =>
    if truthy sel then
      {| CreativeTrend.type := preset; CreativeTrend.presetId := Some sel;
         CreativeTrend.customPrompt := None |}
    else
      {| CreativeTrend.type := skip; CreativeTrend.presetId := None;
         CreativeTrend.customPrompt := None |}
  | Some TrendChoice.ai, _, Some generated =>
    if truthy generated then
      {| CreativeTrend.type := ai_generated; CreativeTrend.presetId := None;
         CreativeTrend.customPrompt := Some generated |}
    else
      {| CreativeTrend.type := skip; CreativeTrend.presetId := None;
         CreativeTrend.customPrompt := None |}
  | _, _, _ =>
    {| CreativeTrend.type := skip; CreativeTrend.presetId := None;
       CreativeTrend.customPrompt := None |}
  end.

Definition videoPromptParams (config : GenerationConfig.t) (anchors : list Buffer)
    (aiGeneratedVideoTrend : option string) : VideoPromptParams.t :=
  {| VideoPromptParams.referenceImages := videoReferenceImages config anchors;
     VideoPromptParams.creativeTrend :=
       Some (videoCreativeTrendConfig config aiGeneratedVideoTrend);
     VideoPromptParams.brandGuidelines := js_or (brandGuidelines config) EmptyString;
     VideoPromptParams.primaryColor := js_or (primaryColor config) "#25F4EE";
     VideoPromptParams.secondaryColor := js_or (secondaryColor config) "#FE2C55";
     VideoPromptParams.narrative :=
       js_or (narrative config) "Create an engaging video loop.";
     VideoPromptParams.narrativeTemplate := narrativeTemplate config;
     VideoPromptParams.aspectRatio := js_or (aspectRatio config) "9:16";
     VideoPromptParams.duration :=
       requestDuration (bool_decide (0 < length anchors)%nat) config |}.

(** The parameters handed to [generateVideo]. *)
Definition videoParams (config : GenerationConfig.t) (anchors : list Buffer)
    (videoPrompt : string) : VideoGenerationParams.t :=
  {| VideoGenerationParams.prompt := videoPrompt;
     VideoGenerationParams.anchorImages :=
       if bool_decide (0 < length anchors)%nat then Some anchors else None;
     VideoGenerationParams.duration :=
       Some (requestDuration (bool_decide (0 < length anchors)%nat) config);
     VideoGenerationParams.aspectRatio := Some (js_or (aspectRatio config) "9:16") |}.

Definition videoResultEvent (config : GenerationConfig.t) (anchors : list Buffer)
    (result : GenerationResult.t) : SseEvent :=
  VideoResultEvent (GenerationResult.filePath result)
    {| VideoMetadata.fileName := GenerationResult.fileName result;
       VideoMetadata.mimeType := GenerationResult.mimeType result;
       VideoMetadata.trend := js_or (selectedVideoPreset config) (trendType config);
       VideoMetadata.duration :=
         requestDuration (bool_decide (0 < length anchors)%nat) config;
       VideoMetadata.aspectRatio := js_or (aspectRatio config) "9:16";
       VideoMetadata.downloadUrl := GenerationResult.filePath result;
       VideoMetadata.hasReferenceImages := bool_decide (0 < length anchors)%nat |}.

(** The description to expand, when
    [config.videoCreativeTrendType === "ai" && config.aiVideoTrendDescription]. *)
Definition videoTrendDescription (config : GenerationConfig.t) : option string :=
  match videoCreativeTrendType config, aiVideoTrendDescription config with
  | Some TrendChoice.ai, Some description =>
    if truthy description then Some description else None
  | _, _ => None
  end.

(** The optional call of [generateVideoCreativeTrendFromDescription]. *)
Definition videoTrendStep (config : GenerationConfig.t) : M (option string) :=
  match videoTrendDescription config with
  | Some description =>
    sendStatus "AI generating video creative trend from your description..." 25;;
    generated ← TextModel.generateVideoCreativeTrendFromDescription env world description;
    mret (Some generated)
  | None => mret None
  end.

Definition videoBranch (config : GenerationConfig.t) (anchors : list Buffer) : M unit :=
  sendStatus "Connecting to Veo 3.1..." 20;;
  aiGeneratedVideoTrend ← videoTrendStep config;
  sendStatus "Building structured video prompt..." 30;;
  let videoPrompt :=
    Prompt.buildVideoStructuredPrompt env
      (videoPromptParams config anchors aiGeneratedVideoTrend) in
  sendStatus "Generating video loop (this may take a few minutes)..." 40;;
  try_catch
    (result ← callGenerateVideo (videoParams config anchors videoPrompt);
     sendStatus "Video generated successfully!" 90;;
     sendStatus "Preparing for preview..." 95;;
     act (Enqueue (videoResultEvent config anchors result)))
    (λ message, sendError message).

(** *** The handler *)

(** The description to expand, when
    [config.creativeTrendType === "ai" && config.aiTrendDescription]. *)
Definition trendDescription (config : GenerationConfig.t) : option string :=
  match creativeTrendType config, aiTrendDescription config with
  | Some TrendChoice.ai, Some description =>
    if truthy description then Some description else None
  | _, _ => None
  end.

(** The optional call of [generateCreativeTrendFromDescription]. *)
Definition trendStep (config : GenerationConfig.t) : M (option string) :=
  match trendDescription config with
  | Some description =>
    sendStatus "AI generating creative trend from your description..." 12;;
    generated ← TextModel.generateCreativeTrendFromDescription env world description;
    mret (Some generated)
  | None => mret None
  end.

(** The number printed in the second status message:
    [uploadedImages.length + anchorImageBuffers.length || 1]. *)
Definition fileCount (entries : list (string * FormValue)) : nat :=
  let n := (length (uploadedImages entries) + length (anchorImageBuffers entries))%nat in
  if bool_decide (n = 0%nat) then 1%nat else n.

(** [if (config.protocolType === "IMAGE") { ... } else { ... }] *)
Definition dispatch (config : GenerationConfig.t) (entries : list (string * FormValue))
    (aiGeneratedTrend : option string) : M unit :=
  match protocolType config with
  | IMAGE =>
    imageBranch config (uploadedImages entries)
      (Prompt.buildStructuredPrompt env
         (structuredPromptParams config entries aiGeneratedTrend))
      aiGeneratedTrend
  | VIDEO => videoBranch config (anchorImageBuffers entries)
  end.

(** What follows the parsing of the configuration. *)
Definition generate (config : GenerationConfig.t) (entries : list (string * FormValue))
    : M unit :=
  sendStatus "Initializing AI generation..." 5;;
  sendStatus ("Processing " +:+ pretty (fileCount entries) +:+ " uploaded file(s)...") 10;;
  aiGeneratedTrend ← trendStep config;
  sendStatus "Applying structured prompt template..." 15;;
  dispatch config entries aiGeneratedTrend;;
  sendStatus "Complete!" 100;;
  act Close.

(** [formData.get("config") as string]: a missing or empty field is
    falsy; an uploaded file under that name is truthy and is parsed as
    the text [[object File]]. *)
Definition configText (entries : list (string * FormValue)) : option string :=
  match formGet "config" entries with
  | Some (FormText text) => if truthy text then Some text else None
  | Some (FormFile _) => Some "[object File]"
  | None => None
  end.

(** The body of the outer [try]. *)
Definition handle (request : NextRequest) : M unit :=
  entries ← lift (formData request);
  match configText entries with
  | None =>
    sendError "No configuration provided";;
    act Close
  | Some configStr =>
    config ← lift (parseConfig configStr);
    generate config entries
  end.

(** [start(controller)]: everything the stream receives, in order. *)
Definition POST (request : NextRequest) : list Action :=
  trace (try_catch (handle request)
           (λ message, sendError message;; act Close)).

End Handler.

End Route.

(** ** The video generation wrapper, up to the request it issues *)

Module VideoClient.

Module VendorImage.
Record t := { imageBytes : string; mimeType : string }.
End VendorImage.

(** The argument of [client.models.generateVideos]. *)
Module GenerateVideosRequest.
Record t := {
  model : string;
  prompt : string;
  image : option VendorImage.t;
  aspectRatio : string
}.
End GenerateVideosRequest.

Section Wrapper.
Variable env : Env.
Import VideoGenerationParams.

(** [anchorImages.slice(0, 3).map(...)] *)
Definition referenceImages (anchors : list Buffer) : list VendorImage.t :=
  map (λ img, {| VendorImage.imageBytes := base64 env img;
                 VendorImage.mimeType := "image/png" |})
      (take 3 anchors).

(** The request of [generateVideo]; [aspectRatio] is "9:16" when the
    parameter is undefined. *)
Definition generateVideosRequest (params : VideoGenerationParams.t)
    : GenerateVideosRequest.t :=
  let ratio := default "9:16" (aspectRatio params) in
  match anchorImages params with
  | Some (first :: others) =>
    {| GenerateVideosRequest.model := VIDEO_MODEL env;
       GenerateVideosRequest.prompt := prompt params;
       GenerateVideosRequest.image := head (referenceImages (first :: others));
       GenerateVideosRequest.aspectRatio := ratio |}
  | _ =>
    {| GenerateVideosRequest.model := VIDEO_MODEL env;
       GenerateVideosRequest.prompt := prompt params;
       GenerateVideosRequest.image := None;
       GenerateVideosRequest.aspectRatio := ratio |}
  end.

(** [generateVideo] makes its client first, which throws without an
    API key, and then issues the request. *)
Definition issuedRequest (params : VideoGenerationParams.t)
    : Completion GenerateVideosRequest.t :=
  match TextModel.getClient env with
  | Returned _ => Returned (generateVideosRequest params)
  | Threw message => Threw message
  end.

End Wrapper.

End VideoClient.

(** * Observations on traces *)

Module Observe.

Definition statusOf (a : Action) : option Z :=
  match a with
  | Enqueue (StatusEvent _ progress) => Some progress
  | _ => None
  end.

(** A result event or an error event ends the work of a request. *)
Definition terminalOf (a : Action) : option SseEvent :=
  match a with
  | Enqueue (StatusEvent _ _) => None
  | Enqueue event => Some event
  | _ => None
  end.

Definition imageCallOf (a : Action) : option ImageGenerationParams.t :=
  match a with CallGenerateImage params => Some params | _ => None end.

Definition videoCallOf (a : Action) : option VideoGenerationParams.t :=
  match a with CallGenerateVideo params => Some params | _ => None end.

Definition isClose (a : Action) : bool :=
  match a with Close => true | _ => false end.

(** The progress values of the status events, in order. *)
Definition statuses (t : list Action) : list Z := omap statusOf t.

(** The result and error events, in order. *)
Definition terminals (t : list Action) : list SseEvent := omap terminalOf t.

(** The parameters of the calls of [generateImage], in order. *)
Definition imageCalls (t : list Action) : list ImageGenerationParams.t :=
  omap imageCallOf t.

(** The parameters of the calls of [generateVideo], in order. *)
Definition videoCalls (t : list Action) : list VideoGenerationParams.t :=
  omap videoCallOf t.

(** A generation call of either kind. *)
Definition isGenerationCall (a : Action) : bool :=
  match a with
  | CallGenerateImage _ | CallGenerateVideo _ => true
  | _ => false
  end.

(** Nothing but requests to the text model. *)
Definition contentOnly (t : list Action) : Prop :=
  Forall (λ a, ∃ request, a = CallGenerateContent request) t.

(** The values of [l] never decrease and lie between [lo] and [hi]. *)
Definition Climbs (lo hi : Z) (l : list Z) : Prop :=
  (lo ≤ hi)%Z ∧ StronglySorted Z.le l ∧ Forall (λ x, lo ≤ x ≤ hi)%Z l.

(** A stretch of a trace: its progress values climb from [lo] to [hi],
    it holds [n] result or error events, and the stream stays open. *)
Definition Segment (lo hi : Z) (n : nat) (t : list Action) : Prop :=
  Climbs lo hi (statuses t) ∧ length (terminals t) = n ∧ Close ∉ t.

(** A stretch with neither a generation call nor a terminal event. *)
Definition callFree (t : list Action) : Prop :=
  imageCalls t = [] ∧ videoCalls t = [] ∧ terminals t = [].

(** The entries of a value returned by [generateVariationSpecs], when
    it is an array. *)
Definition entries (v : Json) : option (list Json) :=
  match v with JArr l => Some l | _ => None end.

End Observe.

(** * The shape of a stream *)

(** Names for the pieces of a trace, used to state what the handler
    does case by case. *)
Module Shape.

Import Effect Observe JS Route GenerationConfig.

Section Pieces.
Variable env : Env.
Variable world : World.
Variable parseConfig : string → Completion GenerationConfig.t.

(** What [generateVariationSpecs] returns once its request was sent. *)
Definition variationsAfter (outcome : ContentOutcome) (factors : list string) (n : Z)
    : Json :=
  match outcome with
  | ContentThrows _ => TextModel.fallbackValue factors n
  | ContentText text =>
    match JSON_parse env (TextModel.cleanJson env text) with
    | None | Some JNull => TextModel.fallbackValue factors n
    | Some variations => variations
    end
  end.

(** What unit [i] of the image loop adds to the trace. *)
Definition unitActions (config : GenerationConfig.t) (uploaded : list Buffer)
    (structuredPrompt : string) (variationSpecs : Json) (i : nat) : list Action :=
  [ Enqueue (StatusEvent (unitMessage config i) (progressBase i (variantCountOf config)));
    CallGenerateImage (unitParams env config uploaded structuredPrompt variationSpecs i) ].

(** How the call of unit [i] ends. *)
Definition unitOutcome (config : GenerationConfig.t) (uploaded : list Buffer)
    (structuredPrompt : string) (variationSpecs : Json) (i : nat)
    : Completion GenerationResult.t :=
  generateImage world i (unitParams env config uploaded structuredPrompt variationSpecs i).

Definition connecting : Action :=
  Enqueue (StatusEvent "Connecting to Nano Banana Pro (gemini-3-pro-image)..." 20).

(** The two status events that follow the last unit. *)
Definition finishing (config : GenerationConfig.t) : list Action :=
  [ Enqueue (StatusEvent (pretty (variantCountOf config) +:+
                          " image(s) generated successfully!") 90);
    Enqueue (StatusEvent "Preparing for preview..." 95) ].

(** How the image branch ends after its variation step returned
    [specs]: [j] units were started and [tail] follows them. *)
Inductive ImageEnd (config : GenerationConfig.t) (uploaded : list Buffer)
    (structuredPrompt : string) (specs : Json) (j : nat) (tail : list Action) : Prop :=
| AllGenerated (results : list FileInfo.t) (event : SseEvent) :
    j = Z.to_nat (variantCountOf config) →
    (∀ i, (i < Z.to_nat (variantCountOf config))%nat →
          ∃ r, unitOutcome config uploaded structuredPrompt specs i = Returned r) →
    imageResultPayload config results = Returned event →
    length results = Z.to_nat (variantCountOf config) →
    tail = finishing config ++ [Enqueue event] →
    ImageEnd config uploaded structuredPrompt specs j tail
| NothingGenerated (message : string) :
    j = Z.to_nat (variantCountOf config) →
    Z.to_nat (variantCountOf config) = 0%nat →
    imageResultPayload config [] = Threw message →
    tail = finishing config ++ [Enqueue (ErrorEvent message)] →
    ImageEnd config uploaded structuredPrompt specs j tail
| UnitFailed (k : nat) (message : string) :
    j = S k → (j ≤ Z.to_nat (variantCountOf config))%nat →
    (∀ i, (i < k)%nat →
          ∃ r, unitOutcome config uploaded structuredPrompt specs i = Returned r) →
    unitOutcome config uploaded structuredPrompt specs k = Threw message →
    tail = [Enqueue (ErrorEvent message)] →
    ImageEnd config uploaded structuredPrompt specs j tail.

(** The parameters of the one call of [generateVideo]. *)
Definition videoCall (config : GenerationConfig.t) (anchors : list Buffer)
    (trend : option string) : VideoGenerationParams.t :=
  videoParams config anchors
    (Prompt.buildVideoStructuredPrompt env (videoPromptParams config anchors trend)).

(** What follows the call of [generateVideo]. *)
Definition videoEnd (config : GenerationConfig.t) (anchors : list Buffer)
    (outcome : Completion GenerationResult.t) : list Action :=
  match outcome with
  | Returned result =>
    [ Enqueue (StatusEvent "Video generated successfully!" 90);
      Enqueue (StatusEvent "Preparing for preview..." 95);
      Enqueue (videoResultEvent config anchors result) ]
  | Threw message => [Enqueue (ErrorEvent message)]
  end.

(** The end of a stream that was not aborted. *)
Definition complete : list Action :=
  [Enqueue (StatusEvent "Complete!" 100); Close].

(** The request gets as far as the generation call: the form and the
    configuration are read and no trend expansion throws. *)
Definition reachesDispatch (request : NextRequest) : Prop :=
  ∃ entries text config,
    formData request = Returned entries ∧
    configText entries = Some text ∧
    parseConfig text = Returned config ∧
    (∃ trend, completion (trendStep env world config) = Returned trend) ∧
    (protocolType config = VIDEO →
     ∃ trend, completion (videoTrendStep env world config) = Returned trend).

(** What a stream shows of its generation calls. *)
Inductive Calls (request : NextRequest) (t : list Action) : Prop :=
| WithoutCall (message : string) :
    imageCalls t = [] → videoCalls t = [] →
    terminals t = [ErrorEvent message] →
    Calls request t
| ImageCalls (config : GenerationConfig.t) (uploaded : list Buffer) (prompt : string)
    (specs : Json) (j : nat) (tail : list Action) :
    ImageEnd config uploaded prompt specs j tail →
    imageCalls t = map (unitParams env config uploaded prompt specs) (seq 0 j) →
    videoCalls t = [] →
    terminals t = terminals tail →
    Calls request t
| VideoCall (entries : list (string * FormValue)) (text : string)
    (config : GenerationConfig.t) (trend : option string) :
    formData request = Returned entries →
    configText entries = Some text →
    parseConfig text = Returned config →
    imageCalls t = [] →
    videoCalls t = [videoCall config (anchorImageBuffers entries) trend] →
    terminals t =
      terminals (videoEnd config (anchorImageBuffers entries)
                   (generateVideo world
                      (videoCall config (anchorImageBuffers entries) trend))) →
    Calls request t.

End Pieces.

End Shape.

(** * Parameters that differ in one input *)

Module Vary.
Import StructuredPromptParams.

(** [params] with another number of moodboard images. *)
Definition withMoodboard (n : nat) (params : StructuredPromptParams.t)
    : StructuredPromptParams.t :=
  {| referenceImageInteraction := referenceImageInteraction params;
     referenceImageCount := referenceImageCount params;
     creativeTrend := creativeTrend params;
     brandGuidelines := brandGuidelines params;
     primaryColor := primaryColor params;
     secondaryColor := secondaryColor params;
     moodboardImageCount := n;
     moodboardStartIndex := moodboardStartIndex params;
     aspectRatio := aspectRatio params;
     variantNumber := variantNumber params;
     variationSpecs := variationSpecs params |}.

(** [params] with another interaction text. *)
Definition withInteraction (text : option string) (params : StructuredPromptParams.t)
    : StructuredPromptParams.t :=
  {| referenceImageInteraction := text;
     referenceImageCount := referenceImageCount params;
     creativeTrend := creativeTrend params;
     brandGuidelines := brandGuidelines params;
     primaryColor := primaryColor params;
     secondaryColor := secondaryColor params;
     moodboardImageCount := moodboardImageCount params;
     moodboardStartIndex := moodboardStartIndex params;
     aspectRatio := aspectRatio params;
     variantNumber := variantNumber params;
     variationSpecs := variationSpecs params |}.

End Vary.

(** * Texts that a header does not occur in *)

(** The texts that [buildStructuredPrompt] copies into the prompt: from
    its parameters, from the catalog of presets and from the table of
    the aspect ratios. *)
Module Copied.
Import JS StructuredPromptParams.

(** The text of the creative trend section, after its header. *)
Definition trendText (catalog : gmap string Preset) (trend : option CreativeTrend.t)
    : option string :=
  match trend with
  | None => None
  | Some ct =>
    match CreativeTrend.type ct with
    | preset =>
      match CreativeTrend.presetId ct with
      | Some id =>
        if truthy id then
          match js_get (catalog !! id) id with
          | Own p => Some (prompt p)
          | Inherited => Some "undefined"
          | Missing => None
          end
        else None
      | None => None
      end
    | ai_generated =>
      match CreativeTrend.customPrompt ct with
      | Some text => if truthy text then Some text else None
      | None => None
      end
    | skip => None
    end
  end.

(** The interaction text, when its section is written. *)
Definition interactionText (params : StructuredPromptParams.t) : option string :=
  match referenceImageInteraction params with
  | Some text =>
    if truthy text && bool_decide (1 < referenceImageCount params)%nat then Some text
    else None
  | None => None
  end.

(** The fields of the variation, when its section may be written. *)
Definition variationTexts (params : StructuredPromptParams.t) : list string :=
  match variantNumber params, variationSpecs params with
  | Some n, Some specs =>
    if bool_decide (1 < n)%Z then
      option_list (VariationFields.lighting specs) ++
      option_list (VariationFields.environment specs) ++
      option_list (VariationFields.cameraAngle specs) ++
      option_list (VariationFields.materials specs)
    else []
  | _, _ => []
  end.

Definition copiedTexts (env : Env) (params : StructuredPromptParams.t) : list string :=
  option_list (interactionText params) ++
  option_list (trendText (CREATIVE_TREND_PRESETS env) (creativeTrend params)) ++
  [ brandGuidelines params; primaryColor params; secondaryColor params;
    aspectRatio params; Prompt.aspectGuidanceText env (aspectRatio params) ] ++
  variationTexts params.

(** [header] occurs in none of the copied texts. *)
Definition free (header : string) (env : Env) (params : StructuredPromptParams.t)
    : Prop :=
  Forall (λ text, ¬ occurs_in header text) (copiedTexts env params).

End Copied.

(** How an occurrence of a header could come about where two texts
    meet. *)
Module Scan.
Import JS.

(** The ends of a text that are not empty, longest first. *)
Fixpoint tails (s : string) : list string :=
  match s with
  | EmptyString => []
  | String _ r => s :: tails r
  end.

(** The proper ends of a header. *)
Definition ends (h : string) : list string := tails (TextModel.drop 1 h).

(** Neither text starts with the other. *)
Definition apart (a b : string) : bool :=
  negb (startsWith a b) && negb (startsWith b a).

(** A fixed text that no occurrence of [h] starts in, whatever
    follows it. *)
Definition closed (h fixed : string) : bool := forallb (apart h) (tails fixed).

(** A fixed text that no occurrence of [h] can touch, whatever stands
    before and after it: none starts in it, and none that started
    before it goes on into it. *)
Definition sealed (h fixed : string) : bool :=
  closed h fixed && forallb (apart fixed) (ends h).

(** [h] does not occur in [r], and [r] does not start with a proper
    end of [h]. *)
Definition Fresh (h r : string) : Prop :=
  ¬ occurs_in h r ∧ Forall (λ t, startsWith r t = false) (ends h).

(** A text that can stand before any text that is fresh. *)
Definition Pre (h s : string) : Prop :=
  ∀ rest, Fresh h rest → ¬ occurs_in h (s +:+ rest).

(** A text that keeps what follows it fresh. *)
Definition Link (h s : string) : Prop :=
  ∀ rest, Fresh h rest → Fresh h (s +:+ rest).

Fixpoint characters (s : string) : list ascii :=
  match s with
  | EmptyString => []
  | String c r => c :: characters r
  end.

(** A character of a numeral. *)
Definition numeric (c : ascii) : bool :=
  existsb (Ascii.eqb c) (characters "0123456789-").

(** A text made of such characters. *)
Definition numeral (s : string) : Prop := Forall (λ c, numeric c = true) (characters s).

(** No character of a numeral occurs in [h], and [h] is not empty. *)
Definition wordy (h : string) : bool :=
  forallb (λ c, negb (numeric c)) (characters h) &&
  negb (String.eqb h EmptyString).

End Scan.

(** * Sample inputs *)

Module Sample.

Definition studio : Preset :=
  {| name := "Studio"; prompt := "Clean studio look with soft shadows." |}.

(** Text services that are exact on the inputs of the examples:
    numerals without sign or leading zero for [parseInt], texts without
    surrounding white space for [trim], and the listed texts for
    [JSON.parse]. *)
Definition parse (text : string) : option Json :=
  if String.eqb text "[]" then Some (JArr [])
  else if String.eqb text "{}" then Some (JObj [])
  else None.

Definition env : Env :=
  {| CREATIVE_TREND_PRESETS := {[ "studio" := studio ]};
     VIDEO_CREATIVE_TREND_PRESETS := {[ "studio" := studio ]};
     GEMINI_API_KEY := Some "key";
     GOOGLE_API_KEY := None;
     VIDEO_MODEL := "veo-3.1-generate-preview";
     inherited_text := λ _, "function";
     parseInt_text := λ s, s;
     JSON_parse := parse;
     number_text := λ _, "0";
     base64 := λ _, "AA==";
     trim := λ s, s |}.

(** The same process without an API key. *)
Definition envWithoutKey : Env :=
  {| CREATIVE_TREND_PRESETS := CREATIVE_TREND_PRESETS env;
     VIDEO_CREATIVE_TREND_PRESETS := VIDEO_CREATIVE_TREND_PRESETS env;
     GEMINI_API_KEY := None;
     GOOGLE_API_KEY := None;
     VIDEO_MODEL := VIDEO_MODEL env;
     inherited_text := inherited_text env;
     parseInt_text := parseInt_text env;
     JSON_parse := JSON_parse env;
     number_text := number_text env;
     base64 := base64 env;
     trim := trim env |}.

Definition picture : GenerationResult.t :=
  {| GenerationResult.type := image;
     GenerationResult.filePath := "data:image/png;base64,AA==";
     GenerationResult.fileName := "image_1_a.png";
     GenerationResult.mimeType := "image/png" |}.

Definition clip : GenerationResult.t :=
  {| GenerationResult.type := video;
     GenerationResult.filePath := "data:video/mp4;base64,AA==";
     GenerationResult.fileName := "video_1_a.mp4";
     GenerationResult.mimeType := "video/mp4" |}.

(** The text model is down; the generators work. *)
Definition textModelDown : World :=
  {| generateContent := λ _, ContentThrows "fetch failed";
     generateImage := λ _ _, Returned picture;
     generateVideo := λ _, Returned clip |}.

(** The text model answers every request with [reply]. *)
Definition answering (reply : string) : World :=
  {| generateContent := λ _, ContentText (Some reply);
     generateImage := λ _ _, Returned picture;
     generateVideo := λ _, Returned clip |}.

(** The second image call fails. *)
Definition secondImageFails : World :=
  {| generateContent := λ _, ContentText (Some "[]");
     generateImage := λ k _, if bool_decide (k = 1%nat)
                             then Threw "Image generation failed: Model did not return an image."
                             else Returned picture;
     generateVideo := λ _, Returned clip |}.

(** Configurations, with the fields that the examples set. *)
Definition config (protocol : ProtocolType) (count : option Z)
    (trend : option TrendChoice.t) (description : option string)
    (videoTrend : option TrendChoice.t) (videoDescription : option string)
    (length : option string) (purposes : option (list ReferenceImagePurpose))
    : GenerationConfig.t :=
  {| GenerationConfig.protocolType := protocol;
     GenerationConfig.trendType := "standard-promo";
     GenerationConfig.brandGuidelines := None;
     GenerationConfig.primaryColor := None;
     GenerationConfig.secondaryColor := None;
     GenerationConfig.aspectRatio := None;
     GenerationConfig.variantCount := count;
     GenerationConfig.varianceFactors := None;
     GenerationConfig.useAIStoryline := None;
     GenerationConfig.narrative := None;
     GenerationConfig.videoLength := length;
     GenerationConfig.useImageInteraction := None;
     GenerationConfig.imageInteractionDescription := None;
     GenerationConfig.creativeTrendType := trend;
     GenerationConfig.selectedPreset := None;
     GenerationConfig.aiTrendDescription := description;
     GenerationConfig.imagePurposes := purposes;
     GenerationConfig.customPurposeDescriptions := None;
     GenerationConfig.narrativeTemplate := None;
     GenerationConfig.videoCreativeTrendType := videoTrend;
     GenerationConfig.selectedVideoPreset := None;
     GenerationConfig.aiVideoTrendDescription := videoDescription |}.

(** The text of a configuration: [{"protocolType":...,"trendType":"standard-promo"...}]. *)
Definition configText (protocol rest : string) : string :=
  "{" +:+ TextModel.quoted "protocolType" +:+ ":" +:+ TextModel.quoted protocol +:+ "," +:+
  TextModel.quoted "trendType" +:+ ":" +:+ TextModel.quoted "standard-promo" +:+ rest +:+ "}".

Definition member (key value : string) : string :=
  "," +:+ TextModel.quoted key +:+ ":" +:+ value.

(** Three variants of an image. *)
Definition threeImages : GenerationConfig.t :=
  config IMAGE (Some 3%Z) None None None None None None.
Definition threeImagesText : string :=
  configText "IMAGE" (member "variantCount" "3").

(** An image whose trend is expanded from a description. *)
Definition describedTrend : GenerationConfig.t :=
  config IMAGE None (Some TrendChoice.ai) (Some "neon glow") None None None None.
Definition describedTrendText : string :=
  configText "IMAGE"
    (member "creativeTrendType" (TextModel.quoted "ai") +:+
     member "aiTrendDescription" (TextModel.quoted "neon glow")).

(** A video whose trend is expanded from a description. *)
Definition describedVideoTrend : GenerationConfig.t :=
  config VIDEO None None None (Some TrendChoice.ai) (Some "fast cuts") None None.
Definition describedVideoTrendText : string :=
  configText "VIDEO"
    (member "videoCreativeTrendType" (TextModel.quoted "ai") +:+
     member "aiVideoTrendDescription" (TextModel.quoted "fast cuts")).

(** A video of four seconds with a product and an environment image. *)
Definition anchoredVideo : GenerationConfig.t :=
  config VIDEO None None None None None (Some "4s") (Some [product; environment]).
Definition anchoredVideoText : string :=
  configText "VIDEO"
    (member "videoLength" (TextModel.quoted "4s") +:+
     member "imagePurposes"
       ("[" +:+ TextModel.quoted "product" +:+ "," +:+ TextModel.quoted "environment" +:+ "]")).

(** [JSON.parse] on the texts above. *)
Definition parseConfig (text : string) : Completion GenerationConfig.t :=
  if String.eqb text threeImagesText then Returned threeImages
  else if String.eqb text describedTrendText then Returned describedTrend
  else if String.eqb text describedVideoTrendText then Returned describedVideoTrend
  else if String.eqb text anchoredVideoText then Returned anchoredVideo
  else Threw "Unexpected token".

Definition png : Buffer := [Byte.x89; Byte.x50; Byte.x4e; Byte.x47].

Definition threeImagesRequest : NextRequest :=
  {| formData := Returned [ ("config", FormText threeImagesText);
                            ("productImage_0", FormFile png) ] |}.

Definition describedTrendRequest : NextRequest :=
  {| formData := Returned [ ("config", FormText describedTrendText);
                            ("productImage_0", FormFile png) ] |}.

Definition describedVideoTrendRequest : NextRequest :=
  {| formData := Returned [ ("config", FormText describedVideoTrendText) ] |}.

Definition anchoredVideoRequest : NextRequest :=
  {| formData := Returned [ ("config", FormText anchoredVideoText);
                            ("anchorImage_0", FormFile png);
                            ("anchorImage_1", FormFile png) ] |}.

(** Brand guidelines alone: no trend, no moodboard, one variant. *)
Definition brandOnly : StructuredPromptParams.t :=
  {| StructuredPromptParams.referenceImageInteraction := None;
     StructuredPromptParams.referenceImageCount := 1;
     StructuredPromptParams.creativeTrend :=
       Some {| CreativeTrend.type := skip; CreativeTrend.presetId := None;
               CreativeTrend.customPrompt := None |};
     StructuredPromptParams.brandGuidelines := "Minimal, Scandinavian.";
     StructuredPromptParams.primaryColor := "#25F4EE";
     StructuredPromptParams.secondaryColor := "#FE2C55";
     StructuredPromptParams.moodboardImageCount := 0;
     StructuredPromptParams.moodboardStartIndex := 1;
     StructuredPromptParams.aspectRatio := "9:16";
     StructuredPromptParams.variantNumber := None;
     StructuredPromptParams.variationSpecs := None |}.

(** The same with three reference images. *)
Definition severalReferences : StructuredPromptParams.t :=
  {| StructuredPromptParams.referenceImageInteraction := None;
     StructuredPromptParams.referenceImageCount := 3;
     StructuredPromptParams.creativeTrend := StructuredPromptParams.creativeTrend brandOnly;
     StructuredPromptParams.brandGuidelines := "Minimal, Scandinavian.";
     StructuredPromptParams.primaryColor := "#25F4EE";
     StructuredPromptParams.secondaryColor := "#FE2C55";
     StructuredPromptParams.moodboardImageCount := 0;
     StructuredPromptParams.moodboardStartIndex := 3;
     StructuredPromptParams.aspectRatio := "9:16";
     StructuredPromptParams.variantNumber := None;
     StructuredPromptParams.variationSpecs := None |}.

(** A preset selection whose identifier is [constructor]. *)
Definition inheritedName : CreativeTrend.t :=
  {| CreativeTrend.type := preset; CreativeTrend.presetId := Some "constructor";
     CreativeTrend.customPrompt := None |}.

Definition inheritedImage : StructuredPromptParams.t :=
  {| StructuredPromptParams.referenceImageInteraction := None;
     StructuredPromptParams.referenceImageCount := 1;
     StructuredPromptParams.creativeTrend := Some inheritedName;
     StructuredPromptParams.brandGuidelines := "Minimal, Scandinavian.";
     StructuredPromptParams.primaryColor := "#25F4EE";
     StructuredPromptParams.secondaryColor := "#FE2C55";
     StructuredPromptParams.moodboardImageCount := 0;
     StructuredPromptParams.moodboardStartIndex := 1;
     StructuredPromptParams.aspectRatio := "9:16";
     StructuredPromptParams.variantNumber := None;
     StructuredPromptParams.variationSpecs := None |}.

Definition inheritedVideo : VideoPromptParams.t :=
  {| VideoPromptParams.referenceImages := [];
     VideoPromptParams.creativeTrend := Some inheritedName;
     VideoPromptParams.brandGuidelines := "Minimal, Scandinavian.";
     VideoPromptParams.primaryColor := "#25F4EE";
     VideoPromptParams.secondaryColor := "#FE2C55";
     VideoPromptParams.narrative := "Create an engaging video loop.";
     VideoPromptParams.narrativeTemplate := None;
     VideoPromptParams.aspectRatio := "9:16";
     VideoPromptParams.duration := "6s" |}.

(** Two calls of [generateVideo] that differ in the duration. *)
Definition clipOf (duration : string) : VideoGenerationParams.t :=
  {| VideoGenerationParams.prompt := "A product turning on a table.";
     VideoGenerationParams.anchorImages := Some [png; png; png; png];
     VideoGenerationParams.duration := Some duration;
     VideoGenerationParams.aspectRatio := Some "1:1" |}.

End Sample.

(** A request whose brand guidelines carry the separator and the two
    headers; it has no moodboard image and no interaction text. *)
Module Adverse.

Definition brandText : string :=
  "Minimal." +:+ Prompt.separator +:+
  Prompt.MOODBOARD_HEADER +:+ Prompt.nl +:+ "Copy the style of the attachment." +:+
  Prompt.separator +:+
  Prompt.INTERACTION_HEADER +:+ Prompt.nl +:+ "Merge the references.".

Definition headersInBrand : StructuredPromptParams.t :=
  {| StructuredPromptParams.referenceImageInteraction := None;
     StructuredPromptParams.referenceImageCount := 1;
     StructuredPromptParams.creativeTrend := None;
     StructuredPromptParams.brandGuidelines := brandText;
     StructuredPromptParams.primaryColor := "#25F4EE";
     StructuredPromptParams.secondaryColor := "#FE2C55";
     StructuredPromptParams.moodboardImageCount := 0;
     StructuredPromptParams.moodboardStartIndex := 1;
     StructuredPromptParams.aspectRatio := "9:16";
     StructuredPromptParams.variantNumber := None;
     StructuredPromptParams.variationSpecs := None |}.

End Adverse.


(** * The rest of the library and the earlier endpoint *)

(** ** Computations over any kind of step

    The monad of [Effect], for a trace of steps of any type [E]. *)

Module Steps.

Section Steps.
Context {E : Type}.

Definition M (A : Type) : Type := list E * Completion A.

Definition ret {A : Type} (a : A) : M A := ([], Returned a).

Definition bind {A B : Type} (k : A → M B) (m : M A) : M B :=
  match m with
  | (t, Returned a) => let '(t', r) := k a in ((t ++ t')%list, r)
  | (t, Threw e) => (t, Threw e)
  end.

Definition throw {A : Type} (message : string) : M A := ([], Threw message).

(** [try { m } catch (error) { handler error.message }] *)
Definition try_catch {A : Type} (m : M A) (handler : string → M A) : M A :=
  match m with
  | (t, Threw e) => let '(t', r) := handler e in ((t ++ t')%list, r)
  | done => done
  end.

Definition act (e : E) : M unit := ([e], Returned tt).

(** A step whose outcome is decided outside the program. *)
Definition call {A : Type} (e : E) (outcome : Completion A) : M A := ([e], outcome).

Definition lift {A : Type} (c : Completion A) : M A := ([], c).

Definition trace {A : Type} (m : M A) : list E := fst m.
Definition completion {A : Type} (m : M A) : Completion A := snd m.

End Steps.

Arguments M : clear implicits.

(** A computation run inside another one, its steps written as steps of
    the latter. *)
Definition relabel {E F A : Type} (f : E → F) (m : M E A) : M F A :=
  (map f (trace m), completion m).

#[export] Instance M_ret {E : Type} : MRet (M E) := @ret E.
#[export] Instance M_bind {E : Type} : MBind (M E) := @bind E.

End Steps.

(** ** Responses of the content model *)

Module InlineData.
Record t := { mimeType : option string; data : option string }.
End InlineData.

Module ContentPart.
Record t := { inlineData : option InlineData.t; text : option string }.
End ContentPart.

Module ContentResponse.

(** [response.candidates]; of a candidate, [content?.parts] is all that
    is read. *)
Record t := { candidates : option (list (option (list ContentPart.t))) }.

(** [response.candidates?.[0]?.content?.parts] *)
Definition firstParts (response : t) : option (list ContentPart.t) :=
  match candidates response with
  | Some (Some parts :: _) => Some parts
  | _ => None
  end.

(** [response.candidates?.[0]?.content?.parts?.[0]?.text] *)
Definition firstText (response : t) : option string :=
  match firstParts response with
  | Some (part :: _) => ContentPart.text part
  | _ => None
  end.

End ContentResponse.

(** ** Storylines for the variants ([generateAIStorylines]) *)

Module StorylineGenerationParams.
Record t := {
  trendType : string;
  brandGuidelines : option string;
  primaryColor : option string;
  secondaryColor : option string;
  varianceFactors : option (list string);
  variantCount : Z;
  productDescription : option string
}.
End StorylineGenerationParams.

(** The argument of [client.models.generateContent] in
    [generateAIStorylines]. *)
Module StorylineRequest.
Record t := { model : string; text : string; responseMimeType : string }.
End StorylineRequest.

Module Storylines.

Import JS Steps.
Import StorylineGenerationParams.

Definition nl : string := Prompt.nl.

Definition trendDescriptions : list (string * string) :=
  [ ("reali-tea", "Raw, unpolished, authentic macro shots with natural imperfections");
    ("emotional-roi", "Golden hour lighting, dreamy bokeh, emotionally resonant imagery");
    ("curiosity-detours", "Visual plot twists, mystery reveals, scroll-stopping surprises");
    ("go-analogue", "Vintage film grain, Polaroid aesthetics, retro nostalgia");
    ("standard-promo", "Clean, polished, professional commercial imagery") ].

(** [Array.from({ length: n }, (_, i) => f(i))] *)
Definition arrayFrom (n : Z) (f : nat → string) : list Json :=
  map (λ i, JStr (f i)) (seq 0 (Z.to_nat n)).

(** [while (storylines.length < n) storylines.push(filler)]: one push
    for each entry that is missing. *)
Definition topUp (n : Z) (filler : Json) (storylines : list Json) : list Json :=
  storylines ++ replicate (Z.to_nat n - length storylines) filler.

(** [storylines.slice(0, n)]; a negative [n] counts from the end. *)
Definition slice0 (n : Z) (storylines : list Json) : list Json :=
  if bool_decide (n < 0)%Z
  then take (Z.to_nat (Z.of_nat (length storylines) + n)) storylines
  else take (Z.to_nat n) storylines.

Definition parseFallback (trendType : string) (n : Z) : list Json :=
  arrayFrom n (λ i, "Creative variant " +:+ pretty (i + 1)%nat +:+ " in " +:+ trendType +:+
                    " style with unique composition and lighting.").

Definition errorFallback (trendType : string) (n : Z) : list Json :=
  arrayFrom n (λ i, "Creative variant " +:+ pretty (i + 1)%nat +:+ " in " +:+ trendType +:+
                    " style. Professional composition optimized for TikTok.").

Definition additional (trendType : string) : Json :=
  JStr ("Additional creative variant in " +:+ trendType +:+
        " style with distinct visual approach.").

Section Client.
Variable env : Env.
(** [String.prototype.toUpperCase] *)
Variable toUpperCase : string → string.
(** [client.models.generateContent] *)
Variable generateContent : StorylineRequest.t → Completion ContentResponse.t.

(** [trendDescriptions[trendType] || trendDescriptions["standard-promo"]] *)
Definition trendDesc (trendType : string) : string :=
  match js_get (assoc trendType trendDescriptions) trendType with
  | Own text => text
  | Inherited => inherited_text env trendType
  | Missing => "Clean, polished, professional commercial imagery"
  end.

Definition varianceDesc (varianceFactors : option (list string)) : string :=
  match varianceFactors with
  | Some (f :: rest) => "Vary these elements across concepts: " +:+ join ", " (f :: rest)
  | _ => "Vary lighting, composition, and mood across concepts"
  end.

(** [value ? label + value : empty], a line of the brand context. *)
Definition optionalLine (label : string) (value : option string) : string :=
  if truthy_opt value then label +:+ default EmptyString value else EmptyString.

Definition metaPrompt (params : StorylineGenerationParams.t) : string :=
  "You are a creative director for TikTok product photography.

Generate exactly " +:+ pretty (variantCount params) +:+ " UNIQUE creative concept descriptions for product images.
Each concept should be distinctly different in mood, composition, and visual approach.

## Trend Style: " +:+ toUpperCase (trendType params) +:+ nl +:+
  trendDesc (trendType params) +:+ "

## Brand Context
" +:+ js_or (brandGuidelines params) "Professional, modern brand aesthetic" +:+ nl +:+
  optionalLine "Primary color: " (primaryColor params) +:+ nl +:+
  optionalLine "Secondary color: " (secondaryColor params) +:+ nl +:+
  optionalLine "Product: " (productDescription params) +:+ "

## Requirements
" +:+ varianceDesc (varianceFactors params) +:+ "
- Each concept should work for TikTok 9:16 vertical format
- Focus on scroll-stopping visual hooks
- Be specific about lighting, angles, textures, and mood
- Keep each concept to 2-3 sentences max

Output ONLY a JSON array of " +:+ pretty (variantCount params) +:+ " strings, each being a complete creative prompt." +:+ nl +:+
  "Example format: [" +:+ TextModel.quoted "concept 1 description..." +:+ ", " +:+
  TextModel.quoted "concept 2 description..." +:+ ", " +:+
  TextModel.quoted "concept 3 description..." +:+ "]".

Definition request (params : StorylineGenerationParams.t) : StorylineRequest.t :=
  {| StorylineRequest.model := "gemini-2.0-flash";
     StorylineRequest.text := metaPrompt params;
     StorylineRequest.responseMimeType := "application/json" |}.

(** The inner [try]: [JSON.parse(responseText)], which must give an array. *)
Definition parseStorylines (params : StorylineGenerationParams.t) (responseText : string)
    : list Json :=
  match JSON_parse env responseText with
  | Some (JArr storylines) => storylines
  | _ => parseFallback (trendType params) (variantCount params)
  end.

Definition generateAIStorylines (params : StorylineGenerationParams.t)
    : M StorylineRequest.t (list Json) :=
  _ ← lift (TextModel.getClient env);
  try_catch
    (response ← call (request params) (generateContent (request params));
     let responseText := js_or (ContentResponse.firstText response) "[]" in
     let storylines := parseStorylines params responseText in
     mret (slice0 (variantCount params)
             (topUp (variantCount params) (additional (trendType params)) storylines)))
    (λ _, mret (errorFallback (trendType params) (variantCount params))).

End Client.

End Storylines.

(** ** The image and video generators ([generateImage], [generateVideo]) *)

(** The clock and the random source, as [generateFileName] reads them. *)
Record Clock := {
  (** [Date.now()] *)
  Date_now : Z;
  (** [Math.random().toString(36)] *)
  Math_random_text : string
}.

(** [generateFileName(type, extension)]; [substring(7)] drops seven
    characters. *)
Definition generateFileName (clock : Clock) (type extension : string) : string :=
  type +:+ "_" +:+ pretty (Date_now clock) +:+ "_" +:+
  TextModel.drop 7 (Math_random_text clock) +:+ "." +:+ extension.

(** The argument of [client.models.generateContent] in [generateImage]. *)
Module ImageRequest.
Inductive Part :=
| InlinePart (mimeType data : string)
| TextPart (text : string).
Record t := {
  model : string;
  parts : list Part;
  responseModalities : list string
}.
End ImageRequest.

Module ImageClient.

Import JS Steps.
Import ImageGenerationParams.

Section Wrapper.
Variable env : Env.
(** [process.env.IMAGE_MODEL_ID] *)
Variable IMAGE_MODEL_ID : option string.
Variable clock : Clock.
(** [client.models.generateContent] *)
Variable generateContent : ImageRequest.t → Completion ContentResponse.t.

Definition IMAGE_MODEL : string := js_or IMAGE_MODEL_ID "gemini-3-pro-image-preview".

(** The reference images first, then the prompt. *)
Definition requestParts (params : ImageGenerationParams.t) : list ImageRequest.Part :=
  match referenceImages params with
  | Some (first :: others) =>
    map (λ imageBuffer, ImageRequest.InlinePart "image/png" (base64 env imageBuffer))
        (first :: others)
  | _ => []
  end ++ [ImageRequest.TextPart (prompt params)].

Definition request (params : ImageGenerationParams.t) : ImageRequest.t :=
  {| ImageRequest.model := IMAGE_MODEL;
     ImageRequest.parts := requestParts params;
     ImageRequest.responseModalities := ["IMAGE"; "TEXT"] |}.

(** [part.inlineData?.mimeType?.startsWith("image/")] *)
Definition isImagePart (part : ContentPart.t) : bool :=
  match ContentPart.inlineData part ≫= InlineData.mimeType with
  | Some mimeType => startsWith mimeType "image/"
  | None => false
  end.

(** What is returned for the part that holds an image; its data are
    printed as [undefined] when they are missing. *)
Definition imageResult (part : ContentPart.t) : GenerationResult.t :=
  let mimeType := default EmptyString (ContentPart.inlineData part ≫= InlineData.mimeType) in
  let base64Data := default "undefined" (ContentPart.inlineData part ≫= InlineData.data) in
  {| GenerationResult.type := image;
     GenerationResult.filePath := "data:" +:+ mimeType +:+ ";base64," +:+ base64Data;
     GenerationResult.fileName := generateFileName clock "image" "png";
     GenerationResult.mimeType := mimeType |}.

(** The loop over the parts of the first candidate: it returns at the
    first image. *)
Fixpoint scanParts (parts : list ContentPart.t) : option GenerationResult.t :=
  match parts with
  | [] => None
  | part :: rest => if isImagePart part then Some (imageResult part) else scanParts rest
  end.

Definition generateImage (params : ImageGenerationParams.t)
    : M ImageRequest.t GenerationResult.t :=
  _ ← lift (TextModel.getClient env);
  try_catch
    (response ← call (request params) (generateContent (request params));
     match ContentResponse.firstParts response ≫= scanParts with
     | Some result => mret result
     | None => throw "Model did not return an image."
     end)
    (λ errorMessage, throw ("Image generation failed: " +:+ errorMessage)).

End Wrapper.

End ImageClient.

(** *** The whole of [generateVideo] *)

(** [generatedVideo.video] *)
Module VideoFile.
Record t := { uri : option string; videoBytes : option string }.
End VideoFile.

(** An operation of the vendor, as far as it is read: [operation.done]
    and [operation.response?.generatedVideos?.[0]?.video]. *)
Module VideoOperation.
Record t := { name : string; done : bool; video : option VideoFile.t }.
End VideoOperation.

(** What [generateVideo] does outside the program, in order. *)
Inductive VideoStep :=
| GenerateVideos (request : VideoClient.GenerateVideosRequest.t)
| Wait (milliseconds : Z)
| GetVideosOperation (operation : VideoOperation.t)
| ExistsSync (path : string)
| MkdirSync (path : string)
| Download (file : VideoFile.t) (downloadPath : string)
| ReadFileSync (path : string)
| UnlinkSync (path : string)
| Fetch (uri : string).

(** The vendor and the file system. [getVideosOperation] is asked with
    the number of polls made before. *)
Record VideoHost := {
  generateVideos : VideoClient.GenerateVideosRequest.t → Completion VideoOperation.t;
  getVideosOperation : nat → VideoOperation.t → Completion VideoOperation.t;
  (** [path.join(process.cwd(), "public", "generated")] *)
  generatedDir : string;
  (** [path.join(outputDir, fileName)] *)
  path_join : string → string → string;
  existsSync : string → bool;
  mkdirSync : string → Completion unit;
  download : VideoFile.t → string → Completion unit;
  readFileSync : string → Completion Buffer;
  unlinkSync : string → Completion unit;
  (** [fetch(uri)] followed by [response.arrayBuffer()] *)
  fetch : string → Completion Buffer
}.

Module VideoJob.

Import JS Steps.

Definition maxWaitTime : Z := 300000.
Definition pollInterval : Z := 10000.

Section Wrapper.
Variable env : Env.
Variable clock : Clock.
Variable host : VideoHost.

Definition ensureOutputDir : M VideoStep string :=
  present ← call (ExistsSync (generatedDir host)) (Returned (existsSync host (generatedDir host)));
  (if present : bool then mret tt
   else call (MkdirSync (generatedDir host)) (mkdirSync host (generatedDir host)));;
  mret (generatedDir host).

(** [while (!operation.done && elapsed < maxWaitTime) { ... }]. The
    loop is unrolled at most [fuel] times; [polls] counts the polls
    made before. *)
Fixpoint pollLoop (fuel polls : nat) (elapsed : Z) (operation : VideoOperation.t)
    : M VideoStep VideoOperation.t :=
  if negb (VideoOperation.done operation) && bool_decide (elapsed < maxWaitTime)%Z then
    match fuel with
    | O => mret operation
    | S fuel' =>
      act (Wait pollInterval);;
      next ← call (GetVideosOperation operation) (getVideosOperation host polls operation);
      pollLoop fuel' (S polls) (elapsed + pollInterval)%Z next
    end
  else mret operation.

(** The number of rounds after which [elapsed] has reached
    [maxWaitTime]. *)
Definition rounds : nat := Z.to_nat (maxWaitTime / pollInterval).

(** From the request to the operation that is done and holds a video. *)
Definition awaitVideo (params : VideoGenerationParams.t) : M VideoStep VideoFile.t :=
  let request := VideoClient.generateVideosRequest env params in
  started ← call (GenerateVideos request) (generateVideos host request);
  operation ← pollLoop rounds 0 0 started;
  if negb (VideoOperation.done operation) then throw "Video generation timed out after 5 minutes"
  else match VideoOperation.video operation with
       | None => throw "No video in response"
       | Some videoFile => mret videoFile
       end.

Definition videoResult (fileName dataUrl : string) : GenerationResult.t :=
  {| GenerationResult.type := video;
     GenerationResult.filePath := dataUrl;
     GenerationResult.fileName := fileName;
     GenerationResult.mimeType := "video/mp4" |}.

(** Download to a file of the output directory, read it, remove it;
    [guarded] tells whether the removal is inside a [try] of its own. *)
Definition viaFile (guarded : bool) (videoFile : VideoFile.t) (fileName : string)
    : M VideoStep string :=
  outputDir ← ensureOutputDir;
  let filePath := path_join host outputDir fileName in
  call (Download videoFile filePath) (download host videoFile filePath);;
  videoData ← call (ReadFileSync filePath) (readFileSync host filePath);
  let dataUrl := "data:video/mp4;base64," +:+ base64 env videoData in
  (if guarded
   then try_catch (call (UnlinkSync filePath) (unlinkSync host filePath)) (λ _, mret tt)
   else call (UnlinkSync filePath) (unlinkSync host filePath));;
  mret dataUrl.

(** [generateVideo] of the library. *)
Definition generateVideo (params : VideoGenerationParams.t)
    : M VideoStep GenerationResult.t :=
  _ ← lift (TextModel.getClient env);
  try_catch
    (videoFile ← awaitVideo params;
     let fileName := generateFileName clock "video" "mp4" in
     dataUrl ← viaFile true videoFile fileName;
     mret (videoResult fileName dataUrl))
    (λ errorMessage, throw ("Video generation failed: " +:+ errorMessage)).

(** How the earlier library ([vertexAI.ts]) gets the data of the video:
    fetched from its address, or taken from its bytes, before a file is
    tried. *)
Definition retrieveEarlier (videoFile : VideoFile.t) (fileName : string)
    : M VideoStep string :=
  if truthy_opt (VideoFile.uri videoFile) then
    let uri := default EmptyString (VideoFile.uri videoFile) in
    arrayBuffer ← call (Fetch uri) (fetch host uri);
    mret ("data:video/mp4;base64," +:+ base64 env arrayBuffer)
  else if truthy_opt (VideoFile.videoBytes videoFile) then
    mret ("data:video/mp4;base64," +:+ default EmptyString (VideoFile.videoBytes videoFile))
  else viaFile false videoFile fileName.

(** [generateVideo] of the earlier library. *)
Definition generateVideoEarlier (params : VideoGenerationParams.t)
    : M VideoStep GenerationResult.t :=
  _ ← lift (TextModel.getClient env);
  try_catch
    (videoFile ← awaitVideo params;
     let fileName := generateFileName clock "video" "mp4" in
     dataUrl ← retrieveEarlier videoFile fileName;
     mret (videoResult fileName dataUrl))
    (λ errorMessage, throw ("Video generation failed: " +:+ errorMessage)).

End Wrapper.

(** *** Observations on its steps *)

Definition isPoll (s : VideoStep) : bool :=
  match s with GetVideosOperation _ => true | _ => false end.

Definition isWait (s : VideoStep) : bool :=
  match s with Wait _ => true | _ => false end.

(** A step that reaches the file system or the network for the video. *)
Definition isTransfer (s : VideoStep) : bool :=
  match s with
  | ExistsSync _ | MkdirSync _ | Download _ _ | ReadFileSync _ | UnlinkSync _ | Fetch _ => true
  | _ => false
  end.

(** The steps of the rounds of the loop that polled [operations]. *)
Definition pollRounds (operations : list VideoOperation.t) : list VideoStep :=
  flat_map (λ operation, [Wait pollInterval; GetVideosOperation operation]) operations.

(** A trace of the wrapper: the request, rounds of the loop, of which
    there are thirty at most, then transfers. *)
Definition Paced (request : VideoClient.GenerateVideosRequest.t) (t : list VideoStep)
    : Prop :=
  ∃ operations transfers,
    t = GenerateVideos request :: pollRounds operations ++ transfers ∧
    (length operations ≤ 30)%nat ∧
    Forall (λ s, isTransfer s = true) transfers.

End VideoJob.

(** ** The trend prompt ([buildTrendPrompt]) *)

Module TrendPrompt.

Import JS.

(** The modifiers of a trend, for an image and for a video. *)
Definition modifiers : list (string * (string * string)) :=
  [ ("reali-tea",
     ("Create an authentic, unpolished macro shot with natural lighting.",
      "Use handheld camera motion that feels human-operated."));
    ("emotional-roi",
     ("Use Golden Hour lighting with warm textures and dreamy bokeh.",
      "Use slow, meditative camera movements."));
    ("curiosity-detours",
     ("Create a visual plot twist that stops scrolling.",
      "Build suspense with mystery and strategic reveals."));
    ("go-analogue",
     ("Apply vintage film grain and Polaroid color grading.",
      "Use slow zooms and film-era pans with light leaks."));
    ("standard-promo",
     ("Create clean, professional imagery with perfect lighting.",
      "Execute smooth cinematic camera movements.")) ].

(** [entry[contentType]] *)
Definition forContent (contentType : MediaType) (entry : string * string) : string :=
  match contentType with image => entry.1 | video => entry.2 end.

Definition standardPromo : string * string :=
  ("Create clean, professional imagery with perfect lighting.",
   "Execute smooth cinematic camera movements.").

(** [modifiers[trendType]?.[contentType] || modifiers["standard-promo"][contentType]].
    A member that the table inherits has no property named [image] or
    [video], so that the second operand is taken for it. *)
Definition modifier (trendType : string) (contentType : MediaType) : string :=
  match js_get (assoc trendType modifiers) trendType with
  | Own entry =>
    if truthy (forContent contentType entry) then forContent contentType entry
    else forContent contentType standardPromo
  | Inherited | Missing => forContent contentType standardPromo
  end.

Definition buildTrendPrompt (basePrompt trendType : string) (contentType : MediaType)
    : string :=
  modifier trendType contentType +:+ Prompt.nl +:+ Prompt.nl +:+ basePrompt.

End TrendPrompt.

(** ** The earlier generation endpoint *)

Module EarlierVideoMetadata.
Record t := {
  fileName : string;
  mimeType : string;
  trend : string;
  duration : string;
  aspectRatio : string;
  downloadUrl : string
}.
End EarlierVideoMetadata.

(** The payloads that the earlier endpoint writes after [data: ]. *)
Inductive EarlierEvent :=
| EarlierStatus (status : string) (progress : Z)
| EarlierImages (result : ResultValue) (metadata : ImageMetadata.t)
| EarlierVideo (result : string) (metadata : EarlierVideoMetadata.t)
| EarlierError (error : string).

(** What one request of the earlier endpoint does, in order. *)
Inductive EarlierStep :=
| Emit (event : EarlierEvent)
| Finish
| AskStorylines (request : StorylineRequest.t)
| AskImage (params : ImageGenerationParams.t)
| AskVideo (params : VideoGenerationParams.t).

Module EarlierRoute.

Import JS Steps.
Import GenerationConfig.

Definition nl : string := Prompt.nl.

Definition sendStatus (message : string) (progress : Z) : M EarlierStep unit :=
  act (Emit (EarlierStatus message progress)).

Definition sendError (message : string) : M EarlierStep unit :=
  act (Emit (EarlierError message)).

(** [buildBasePrompt(config, imageCount)] *)
Definition baseParts (config : GenerationConfig.t) (imageCount : nat) : list string :=
  match protocolType config with
  | IMAGE =>
    [ "Generate a high-quality product image for TikTok in 9:16 vertical format.";
      "The image should be scroll-stopping and optimized for mobile viewing." ] ++
    (if bool_decide (0 < imageCount)%nat then
       [ "Use the " +:+ pretty imageCount +:+
         " reference image(s) provided to understand the product.";
         "Maintain exact product fidelity - the product should look identical to the reference." ]
     else [])
  | VIDEO =>
    [ "Generate a seamless video loop for TikTok in 9:16 vertical format.";
      "Target duration: " +:+ js_or (videoLength config) "6s";
      "The video should be engaging and optimized for mobile viewing." ]
  end ++
  (if truthy_opt (brandGuidelines config)
   then ["Brand Guidelines: " +:+ default EmptyString (brandGuidelines config)] else []) ++
  (if truthy_opt (primaryColor config)
   then ["Primary brand color: " +:+ default EmptyString (primaryColor config)] else []) ++
  (if truthy_opt (secondaryColor config)
   then ["Secondary brand color: " +:+ default EmptyString (secondaryColor config)] else []) ++
  (if truthy_opt (narrative config)
   then ["Storyline: " +:+ default EmptyString (narrative config)] else []) ++
  ["IMPORTANT: Maintain 100% product fidelity throughout."].

Definition buildBasePrompt (config : GenerationConfig.t) (imageCount : nat) : string :=
  join nl (baseParts config imageCount).

(** The trend prompt of a request. *)
Definition trendPromptOf (config : GenerationConfig.t) (uploaded : list Buffer) : string :=
  TrendPrompt.buildTrendPrompt
    (buildBasePrompt config (length uploaded))
    (js_or (Some (trendType config)) "standard-promo")
    (match protocolType config with IMAGE => image | VIDEO => video end).

(** *** Image branch *)

Definition lightingOptions : list string :=
  [ "soft natural lighting"; "dramatic studio lighting"; "golden hour glow";
    "cool blue tones"; "warm ambient light" ].

Definition angleOptions : list string :=
  [ "eye-level front view"; "slight overhead angle"; "low angle hero shot";
    "dynamic 3/4 view"; "top-down flat lay" ].

Definition envOptions : list string :=
  [ "minimal white background"; "textured natural backdrop"; "lifestyle setting";
    "abstract gradient background"; "outdoor environment" ].

Definition matOptions : list string :=
  [ "matte surfaces"; "glossy reflective surfaces"; "textured organic materials";
    "metallic accents"; "soft fabric textures" ].

(** The hints of variant [i] for the factors that were asked for. *)
Definition variationHints (factors : list string) (i : nat) : list string :=
  (if TextModel.includes factors "lighting"
   then ["Lighting style: " +:+ TextModel.pick lightingOptions i] else []) ++
  (if TextModel.includes factors "camera-angle"
   then ["Camera angle: " +:+ TextModel.pick angleOptions i] else []) ++
  (if TextModel.includes factors "environment"
   then ["Environment: " +:+ TextModel.pick envOptions i] else []) ++
  (if TextModel.includes factors "materials"
   then ["Material emphasis: " +:+ TextModel.pick matOptions i] else []).

(** The second and third cases of the choice of a prompt: hints for the
    factors, when there are several variants and factors. *)
Definition hintedPrompt (config : GenerationConfig.t) (trendPrompt : string) (i : nat)
    : string :=
  match varianceFactors config with
  | Some (f :: rest) =>
    if bool_decide (1 < Route.variantCountOf config)%Z then
      match variationHints (f :: rest) i with
      | [] => trendPrompt
      | hints =>
        trendPrompt +:+ nl +:+ nl +:+ "Variant " +:+ pretty (i + 1)%nat +:+
        " specific style:" +:+ nl +:+ join nl hints
      end
    else trendPrompt
  | _ => trendPrompt
  end.

(** The parameters handed to [generateAIStorylines]. *)
Definition storylineParams (config : GenerationConfig.t) : StorylineGenerationParams.t :=
  {| StorylineGenerationParams.trendType := js_or (Some (trendType config)) "standard-promo";
     StorylineGenerationParams.brandGuidelines := brandGuidelines config;
     StorylineGenerationParams.primaryColor := primaryColor config;
     StorylineGenerationParams.secondaryColor := secondaryColor config;
     StorylineGenerationParams.varianceFactors := varianceFactors config;
     StorylineGenerationParams.variantCount := Route.variantCountOf config;
     StorylineGenerationParams.productDescription := None |}.

(** The payload of the result event; reading [results[0].filePath]
    throws when nothing was generated. *)
Definition imagesPayload (config : GenerationConfig.t) (results : list FileInfo.t)
    : Completion EarlierEvent :=
  match results with
  | [] => Threw "Cannot read properties of undefined (reading 'filePath')"
  | first :: others =>
    Returned (EarlierImages
      (match others with
       | [] => SingleFile (FileInfo.filePath first)
       | _ => FileList (map FileInfo.filePath results)
       end)
      {| ImageMetadata.count := length results;
         ImageMetadata.files := results;
         ImageMetadata.trend := trendType config;
         ImageMetadata.aspectRatio := js_or (aspectRatio config) "9:16";
         ImageMetadata.downloadUrl := FileInfo.filePath first |})
  end.

(** *** Video branch *)

Definition videoPromptOf (config : GenerationConfig.t) (trendPrompt : string) : string :=
  if truthy_opt (narrative config)
  then trendPrompt +:+ nl +:+ nl +:+ "Narrative: " +:+ default EmptyString (narrative config)
  else trendPrompt.

Definition videoParams (config : GenerationConfig.t) (anchors : list Buffer)
    (trendPrompt : string) : VideoGenerationParams.t :=
  {| VideoGenerationParams.prompt := videoPromptOf config trendPrompt;
     VideoGenerationParams.anchorImages :=
       if bool_decide (0 < length anchors)%nat then Some anchors else None;
     VideoGenerationParams.duration := Some (js_or (videoLength config) "6s");
     VideoGenerationParams.aspectRatio := Some (js_or (aspectRatio config) "9:16") |}.

Definition videoResultEvent (config : GenerationConfig.t) (result : GenerationResult.t)
    : EarlierEvent :=
  EarlierVideo (GenerationResult.filePath result)
    {| EarlierVideoMetadata.fileName := GenerationResult.fileName result;
       EarlierVideoMetadata.mimeType := GenerationResult.mimeType result;
       EarlierVideoMetadata.trend := trendType config;
       EarlierVideoMetadata.duration := js_or (videoLength config) "6s";
       EarlierVideoMetadata.aspectRatio := js_or (aspectRatio config) "9:16";
       EarlierVideoMetadata.downloadUrl := GenerationResult.filePath result |}.

Section Handler.
Variable env : Env.
Variable world : World.
(** [String.prototype.toUpperCase] *)
Variable toUpperCase : string → string.
(** [client.models.generateContent], as [generateAIStorylines] calls it *)
Variable storylineContent : StorylineRequest.t → Completion ContentResponse.t.
(** [JSON.parse(configStr)] read as a [GenerationConfig], as in the
    structured route: a parsed value of another type is not
    represented, and a [TypeError] that it raises outside the inner
    [try] ends the stream with an error event and the close. *)
Variable parseConfig : string → Completion GenerationConfig.t.

(** The prompt of variant [i]; [aiStorylines] is [None] for [null]. *)
Definition variantPrompt (config : GenerationConfig.t) (trendPrompt : string)
    (aiStorylines : option (list Json)) (i : nat) : string :=
  match aiStorylines ≫= (λ storylines, storylines !! i) with
  | Some storyline =>
    if JsValue.truthy storyline
    then trendPrompt +:+ nl +:+ nl +:+ "Creative Concept: " +:+ JsValue.text env storyline
    else hintedPrompt config trendPrompt i
  | None => hintedPrompt config trendPrompt i
  end.

Definition unitParams (config : GenerationConfig.t) (uploaded : list Buffer)
    (trendPrompt : string) (aiStorylines : option (list Json)) (i : nat)
    : ImageGenerationParams.t :=
  Route.imageParams config uploaded (variantPrompt config trendPrompt aiStorylines i).

(** [await generateImage(params)] *)
Definition callGenerateImage (k : nat) (params : ImageGenerationParams.t)
    : M EarlierStep GenerationResult.t :=
  call (AskImage params) (generateImage world k params).

(** [await generateVideo(params)] *)
Definition callGenerateVideo (params : VideoGenerationParams.t)
    : M EarlierStep GenerationResult.t :=
  call (AskVideo params) (generateVideo world params).

(** The optional call of [generateAIStorylines]. *)
Definition storylineStep (config : GenerationConfig.t)
    : M EarlierStep (option (list Json)) :=
  if Route.isTrue (useAIStoryline config) && bool_decide (0 < Route.variantCountOf config)%Z
  then
    sendStatus "AI generating unique creative concepts..." 22;;
    storylines ← relabel AskStorylines
      (Storylines.generateAIStorylines env toUpperCase storylineContent
         (storylineParams config));
    mret (Some storylines)
  else mret None.

(** The body of [for (let i = 0; i < variantCount; i++)], run for the
    indices that remain; [results] is the array filled so far. *)
Fixpoint imageLoop (config : GenerationConfig.t) (uploaded : list Buffer)
    (trendPrompt : string) (aiStorylines : option (list Json))
    (indices : list nat) (results : list FileInfo.t)
    : M EarlierStep (list FileInfo.t) :=
  match indices with
  | [] => mret results
  | i :: rest =>
    sendStatus (Route.unitMessage config i)
               (Route.progressBase i (Route.variantCountOf config));;
    result ← callGenerateImage i (unitParams config uploaded trendPrompt aiStorylines i);
    imageLoop config uploaded trendPrompt aiStorylines rest
              (results ++ [Route.fileInfo result])
  end.

Definition imageBranch (config : GenerationConfig.t) (uploaded : list Buffer)
    (trendPrompt : string) : M EarlierStep unit :=
  sendStatus "Connecting to Nano Banana Pro (gemini-3-pro-image)..." 20;;
  try_catch
    (aiStorylines ← storylineStep config;
     results ← imageLoop config uploaded trendPrompt aiStorylines
                 (seq 0 (Z.to_nat (Route.variantCountOf config))) [];
     sendStatus (pretty (Route.variantCountOf config) +:+ " image(s) generated successfully!")
                90;;
     sendStatus "Preparing for preview..." 95;;
     payload ← lift (imagesPayload config results);
     act (Emit payload))
    (λ message, sendError message).

Definition videoBranch (config : GenerationConfig.t) (anchors : list Buffer)
    (trendPrompt : string) : M EarlierStep unit :=
  sendStatus "Connecting to Veo 3.1..." 20;;
  sendStatus "Processing anchor image and narrative..." 30;;
  sendStatus "Generating video loop (this may take a few minutes)..." 40;;
  try_catch
    (result ← callGenerateVideo (videoParams config anchors trendPrompt);
     sendStatus "Video generated successfully!" 90;;
     sendStatus "Preparing for preview..." 95;;
     act (Emit (videoResultEvent config result)))
    (λ message, sendError message).

(** *** The handler *)

(** [if (config.protocolType === "IMAGE") { ... } else { ... }] *)
Definition branch (config : GenerationConfig.t) (entries : list (string * FormValue))
    : M EarlierStep unit :=
  let trendPrompt := trendPromptOf config (Route.uploadedImages entries) in
  match protocolType config with
  | IMAGE => imageBranch config (Route.uploadedImages entries) trendPrompt
  | VIDEO => videoBranch config (Route.anchorImageBuffers entries) trendPrompt
  end.

(** What follows the parsing of the configuration. *)
Definition generate (config : GenerationConfig.t) (entries : list (string * FormValue))
    : M EarlierStep unit :=
  sendStatus "Initializing AI generation..." 5;;
  sendStatus ("Processing " +:+ pretty (Route.fileCount entries) +:+ " uploaded file(s)...")
             10;;
  sendStatus ("Applying " +:+ TextModel.quoted (trendType config) +:+ " trend style...") 15;;
  branch config entries;;
  sendStatus "Complete!" 100;;
  act Finish.

(** The body of the outer [try]. *)
Definition handle (request : NextRequest) : M EarlierStep unit :=
  entries ← lift (formData request);
  match Route.configText entries with
  | None =>
    sendError "No configuration provided";;
    act Finish
  | Some configStr =>
    config ← lift (parseConfig configStr);
    generate config entries
  end.

(** [start(controller)]: everything the stream receives, in order. *)
Definition POST (request : NextRequest) : list EarlierStep :=
  trace (try_catch (handle request)
           (λ message, sendError message;; act Finish)).

End Handler.

(** *** Observations on its traces *)

Definition statusOf (s : EarlierStep) : option Z :=
  match s with Emit (EarlierStatus _ progress) => Some progress | _ => None end.

Definition terminalOf (s : EarlierStep) : option EarlierEvent :=
  match s with
  | Emit (EarlierStatus _ _) => None
  | Emit event => Some event
  | _ => None
  end.

Definition imageCallOf (s : EarlierStep) : option ImageGenerationParams.t :=
  match s with AskImage params => Some params | _ => None end.

Definition videoCallOf (s : EarlierStep) : option VideoGenerationParams.t :=
  match s with AskVideo params => Some params | _ => None end.

Definition statuses (t : list EarlierStep) : list Z := omap statusOf t.
Definition terminals (t : list EarlierStep) : list EarlierEvent := omap terminalOf t.
Definition imageCalls (t : list EarlierStep) : list ImageGenerationParams.t :=
  omap imageCallOf t.
Definition videoCalls (t : list EarlierStep) : list VideoGenerationParams.t :=
  omap videoCallOf t.

(** How the image branch ends: after [j] units, with the steps [tail]. *)
Inductive ImageEnd (config : GenerationConfig.t) : nat → list EarlierStep → Prop :=
| AllGenerated (results : list FileInfo.t) (event : EarlierEvent) :
    imagesPayload config results = Returned event →
    length results = Z.to_nat (Route.variantCountOf config) →
    ImageEnd config (Z.to_nat (Route.variantCountOf config))
      [ Emit (EarlierStatus (pretty (Route.variantCountOf config) +:+
                             " image(s) generated successfully!") 90);
        Emit (EarlierStatus "Preparing for preview..." 95);
        Emit event ]
| NothingGenerated (message : string) :
    Z.to_nat (Route.variantCountOf config) = 0%nat →
    ImageEnd config 0
      [ Emit (EarlierStatus (pretty (Route.variantCountOf config) +:+
                             " image(s) generated successfully!") 90);
        Emit (EarlierStatus "Preparing for preview..." 95);
        Emit (EarlierError message) ]
| UnitFailed (j : nat) (message : string) :
    (0 < j ≤ Z.to_nat (Route.variantCountOf config))%nat →
    ImageEnd config j [Emit (EarlierError message)].

(** A stretch of a trace: its progress values climb from [lo] to [hi],
    it holds [n] result or error events, and the stream stays open. *)
Definition Stretch (lo hi : Z) (n : nat) (t : list EarlierStep) : Prop :=
  Observe.Climbs lo hi (statuses t) ∧ length (terminals t) = n ∧ Finish ∉ t.

(** The form and the configuration of the request are read. *)
Definition Readable (parseConfig : string → Completion GenerationConfig.t)
    (request : NextRequest) : Prop :=
  ∃ entries text config,
    formData request = Returned entries ∧
    Route.configText entries = Some text ∧
    parseConfig text = Returned config.

End EarlierRoute.

(** ** The reader of the event stream in the dashboard *)

(** Both handlers of the dashboard ([handleImageGenerate],
    [handleVideoGenerate]) read the response of the endpoint with the
    same loop. What is embedded is the loop up to the call of
    [JSON.parse]: the chunks that [reader.read()] delivers are texts,
    and the loop is observed by the texts it hands to the parser. *)

Module StreamReader.
Import JS.

Definition nl : string := Prompt.nl.

(** One more character in front of the first piece. *)
Definition extend (c : ascii) (pieces : list string) : list string :=
  match pieces with
  | [] => [String c EmptyString]
  | piece :: rest => String c piece :: rest
  end.

(** [s.split(separator)] for a separator that is not empty, with the
    piece that is being read first; [skip] counts the characters of the
    separator just found that are still to be passed. *)
Fixpoint splitFrom (separator : string) (skip : nat) (s : string) : list string :=
  match s with
  | EmptyString => [EmptyString]
  | String c r =>
    match skip with
    | S k => splitFrom separator k r
    | O =>
      if startsWith s separator
      then EmptyString :: splitFrom separator (String.length separator - 1) r
      else extend c (splitFrom separator 0 r)
    end
  end.

Definition split (s separator : string) : list string := splitFrom separator 0 s.

(** [s.replace(pattern, "")] for a pattern that is a string and not
    empty: the first occurrence is dropped. *)
Fixpoint dropFirst (pattern s : string) : string :=
  match s with
  | EmptyString => EmptyString
  | String c r =>
    if startsWith s pattern then TextModel.drop (String.length pattern) s
    else String c (dropFirst pattern r)
  end.

(** The texts of a message that reach [JSON.parse], in order: its
    lines that start with [data: ], without these words. *)
Definition jsonTexts (message : string) : list string :=
  map (dropFirst "data: ")
      (List.filter (λ line, startsWith line "data: ") (split message nl)).

(** One turn of the loop: the chunk is appended to the buffer, which is
    split at the blank lines; the last piece is the next buffer
    ([messages.pop() || ""]). *)
Definition turn (buffer value : string) : list string * string :=
  let messages := split (buffer +:+ value) (nl +:+ nl) in
  (removelast messages, js_or (last messages) EmptyString).

(** The loop, from a buffer, over the chunks that are read before the
    stream is done. What the buffer holds then is left unread. *)
Fixpoint readFrom (buffer : string) (chunks : list string) : list string :=
  match chunks with
  | [] => []
  | value :: later =>
    flat_map jsonTexts (turn buffer value).1 ++ readFrom (turn buffer value).2 later
  end.

Definition read (chunks : list string) : list string := readFrom EmptyString chunks.

(** How the endpoints write an event of the stream:
    [data: ${text}\n\n]. *)
Definition frame (text : string) : string := "data: " +:+ text +:+ nl +:+ nl.

(** The text of a stream that came in these chunks. *)
Definition textOf (chunks : list string) : string := foldr String.append EmptyString chunks.

(** No line feed in the text. *)
Fixpoint oneLine (s : string) : bool :=
  match s with
  | EmptyString => true
  | String c r => negb (Ascii.eqb c "010"%char) && oneLine r
  end.

End StreamReader.

(** * Examples for the rest of the library and the earlier endpoint *)

Module Scene.

(** Upper-casing, exact on the trend names of the examples. *)
Definition upper (s : string) : string :=
  if String.eqb s "standard-promo" then "STANDARD-PROMO"
  else if String.eqb s "go-analogue" then "GO-ANALOGUE"
  else s.

Definition clock : Clock :=
  {| Date_now := 1700000000000; Math_random_text := "0.4fzyo82mvyr" |}.

Definition textPart (text : string) : ContentPart.t :=
  {| ContentPart.inlineData := None; ContentPart.text := Some text |}.

Definition imagePart (mimeType data : string) : ContentPart.t :=
  {| ContentPart.inlineData :=
       Some {| InlineData.mimeType := Some mimeType; InlineData.data := Some data |};
     ContentPart.text := None |}.

(** A response with one candidate. *)
Definition reply (parts : list ContentPart.t) : ContentResponse.t :=
  {| ContentResponse.candidates := Some [Some parts] |}.

(** *** Storylines *)

Definition storyDown (request : StorylineRequest.t) : Completion ContentResponse.t :=
  Threw "fetch failed".

Definition storyAnswering (text : string) (request : StorylineRequest.t)
    : Completion ContentResponse.t :=
  Returned (reply [textPart text]).

Definition threeConcepts : StorylineGenerationParams.t :=
  {| StorylineGenerationParams.trendType := "go-analogue";
     StorylineGenerationParams.brandGuidelines := Some "Minimal, Scandinavian.";
     StorylineGenerationParams.primaryColor := None;
     StorylineGenerationParams.secondaryColor := None;
     StorylineGenerationParams.varianceFactors := Some ["lighting"];
     StorylineGenerationParams.variantCount := 3;
     StorylineGenerationParams.productDescription := None |}.

(** *** The image generator *)

(** The model comments, then returns a JPEG and a PNG. *)
Definition painting (request : ImageRequest.t) : Completion ContentResponse.t :=
  Returned (reply [ textPart "Here is your image.";
                    imagePart "image/jpeg" "QUJD";
                    imagePart "image/png" "REVG" ]).

(** The model answers with words only. *)
Definition wordsOnly (request : ImageRequest.t) : Completion ContentResponse.t :=
  Returned (reply [textPart "I cannot draw this."]).

Definition bottle (ratio : string) (count : Z) : ImageGenerationParams.t :=
  {| ImageGenerationParams.prompt := "A bottle on a table.";
     ImageGenerationParams.referenceImages := Some [Sample.png; Sample.png];
     ImageGenerationParams.aspectRatio := Some ratio;
     ImageGenerationParams.numberOfImages := Some count |}.

(** *** The video generator *)

Definition pending : VideoOperation.t :=
  {| VideoOperation.name := "operations/1";
     VideoOperation.done := false;
     VideoOperation.video := None |}.

Definition finished (file : VideoFile.t) : VideoOperation.t :=
  {| VideoOperation.name := "operations/1";
     VideoOperation.done := true;
     VideoOperation.video := Some file |}.

Definition bareFile : VideoFile.t :=
  {| VideoFile.uri := None; VideoFile.videoBytes := None |}.

Definition addressedFile : VideoFile.t :=
  {| VideoFile.uri := Some "https://videos.example/1"; VideoFile.videoBytes := Some "AAAA" |}.

Definition bytesFile : VideoFile.t :=
  {| VideoFile.uri := None; VideoFile.videoBytes := Some "AAAA" |}.

(** A host whose operation is done, with [file], at poll number
    [readyAt] (never for [None]), and whose removal of a file ends as
    [removal]; the output directory is missing at first. *)
Definition host (file : VideoFile.t) (readyAt : option nat) (removal : Completion unit)
    : VideoHost :=
  {| generateVideos := λ _, Returned pending;
     getVideosOperation := λ k _,
       match readyAt with
       | Some n => if bool_decide (n ≤ S k)%nat then Returned (finished file)
                   else Returned pending
       | None => Returned pending
       end;
     generatedDir := "/app/public/generated";
     path_join := λ directory file, directory +:+ "/" +:+ file;
     existsSync := λ _, false;
     mkdirSync := λ _, Returned tt;
     download := λ _ _, Returned tt;
     readFileSync := λ _, Returned Sample.png;
     unlinkSync := λ _, removal;
     fetch := λ _, Returned Sample.png |}.

(** *** Requests *)

(** Three variants of an image that vary in their lighting. *)
Definition variedImages : GenerationConfig.t :=
  {| GenerationConfig.protocolType := IMAGE;
     GenerationConfig.trendType := "standard-promo";
     GenerationConfig.brandGuidelines := None;
     GenerationConfig.primaryColor := None;
     GenerationConfig.secondaryColor := None;
     GenerationConfig.aspectRatio := None;
     GenerationConfig.variantCount := Some 3%Z;
     GenerationConfig.varianceFactors := Some ["lighting"];
     GenerationConfig.useAIStoryline := None;
     GenerationConfig.narrative := None;
     GenerationConfig.videoLength := None;
     GenerationConfig.useImageInteraction := None;
     GenerationConfig.imageInteractionDescription := None;
     GenerationConfig.creativeTrendType := None;
     GenerationConfig.selectedPreset := None;
     GenerationConfig.aiTrendDescription := None;
     GenerationConfig.imagePurposes := None;
     GenerationConfig.customPurposeDescriptions := None;
     GenerationConfig.narrativeTemplate := None;
     GenerationConfig.videoCreativeTrendType := None;
     GenerationConfig.selectedVideoPreset := None;
     GenerationConfig.aiVideoTrendDescription := None |}.

Definition variedImagesText : string :=
  Sample.configText "IMAGE"
    (Sample.member "variantCount" "3" +:+
     Sample.member "varianceFactors" ("[" +:+ TextModel.quoted "lighting" +:+ "]")).

(** Two variants of an image, each with a storyline. *)
Definition conceptImages : GenerationConfig.t :=
  {| GenerationConfig.protocolType := IMAGE;
     GenerationConfig.trendType := "standard-promo";
     GenerationConfig.brandGuidelines := None;
     GenerationConfig.primaryColor := None;
     GenerationConfig.secondaryColor := None;
     GenerationConfig.aspectRatio := None;
     GenerationConfig.variantCount := Some 2%Z;
     GenerationConfig.varianceFactors := None;
     GenerationConfig.useAIStoryline := Some true;
     GenerationConfig.narrative := None;
     GenerationConfig.videoLength := None;
     GenerationConfig.useImageInteraction := None;
     GenerationConfig.imageInteractionDescription := None;
     GenerationConfig.creativeTrendType := None;
     GenerationConfig.selectedPreset := None;
     GenerationConfig.aiTrendDescription := None;
     GenerationConfig.imagePurposes := None;
     GenerationConfig.customPurposeDescriptions := None;
     GenerationConfig.narrativeTemplate := None;
     GenerationConfig.videoCreativeTrendType := None;
     GenerationConfig.selectedVideoPreset := None;
     GenerationConfig.aiVideoTrendDescription := None |}.

Definition conceptImagesText : string :=
  Sample.configText "IMAGE"
    (Sample.member "variantCount" "2" +:+ Sample.member "useAIStoryline" "true").

(** [JSON.parse] on these texts and on those of [Sample]. *)
Definition parseConfig (text : string) : Completion GenerationConfig.t :=
  if String.eqb text variedImagesText then Returned variedImages
  else if String.eqb text conceptImagesText then Returned conceptImages
  else Sample.parseConfig text.

Definition variedImagesRequest : NextRequest :=
  {| formData := Returned [ ("config", FormText variedImagesText);
                            ("productImage_0", FormFile Sample.png) ] |}.

Definition conceptImagesRequest : NextRequest :=
  {| formData := Returned [ ("config", FormText conceptImagesText);
                            ("productImage_0", FormFile Sample.png) ] |}.

End Scene.

(** * Properties *)

(** ** Traces and completions of composed computations *)

Section EffectFacts.
Import Effect.
Context {A B : Type}.

Lemma trace_bind (m : M A) (k : A → M B) :
  trace (m ≫= k) =
    (trace m ++ match completion m with
                | Returned a => trace (k a)
                | Threw _ => []
                end)%list.
Proof.
  destruct m as [t [a | e]]; unfold mbind, M_bind, bind, trace, completion; simpl.
  - by destruct (k a).
  - by rewrite app_nil_r.
Qed.

Lemma completion_bind (m : M A) (k : A → M B) :
  completion (m ≫= k) =
    match completion m with
    | Returned a => completion (k a)
    | Threw e => Threw e
    end.
Proof.
  destruct m as [t [a | e]]; unfold mbind, M_bind, bind, trace, completion; simpl.
  - by destruct (k a).
  - done.
Qed.

Lemma trace_try_catch (m : M A) (h : string → M A) :
  trace (try_catch m h) =
    (trace m ++ match completion m with
                | Returned _ => []
                | Threw e => trace (h e)
                end)%list.
Proof.
  destruct m as [t [a | e]]; unfold try_catch, trace, completion; simpl.
  - by rewrite app_nil_r.
  - by destruct (h e).
Qed.

Lemma completion_try_catch (m : M A) (h : string → M A) :
  completion (try_catch m h) =
    match completion m with
    | Returned a => Returned a
    | Threw e => completion (h e)
    end.
Proof.
  destruct m as [t [a | e]]; unfold try_catch, trace, completion; simpl.
  - done.
  - by destruct (h e).
Qed.

Lemma trace_ret (a : A) : trace (mret a : M A) = [].
Proof. reflexivity. Qed.

Lemma completion_ret (a : A) : completion (mret a : M A) = Returned a.
Proof. reflexivity. Qed.

Lemma trace_throw (e : string) : trace (throw e : M A) = [].
Proof. reflexivity. Qed.

Lemma completion_throw (e : string) : completion (throw e : M A) = Threw e.
Proof. reflexivity. Qed.

Lemma trace_lift (c : Completion A) : trace (lift c) = [].
Proof. reflexivity. Qed.

Lemma completion_lift (c : Completion A) : completion (lift c) = c.
Proof. reflexivity. Qed.

End EffectFacts.

Lemma trace_act (a : Action) : Effect.trace (Effect.act a) = [a].
Proof. reflexivity. Qed.

Lemma completion_act (a : Action) : Effect.completion (Effect.act a) = Returned tt.
Proof. reflexivity. Qed.

Lemma trace_sendStatus message progress :
  Effect.trace (Route.sendStatus message progress) =
    [Enqueue (StatusEvent message progress)].
Proof. reflexivity. Qed.

Lemma completion_sendStatus message progress :
  Effect.completion (Route.sendStatus message progress) = Returned tt.
Proof. reflexivity. Qed.

Lemma trace_sendError message :
  Effect.trace (Route.sendError message) = [Enqueue (ErrorEvent message)].
Proof. reflexivity. Qed.

Lemma completion_sendError message :
  Effect.completion (Route.sendError message) = Returned tt.
Proof. reflexivity. Qed.

Create Rewrite HintDb effect.
#[global] Hint Rewrite @trace_bind @completion_bind @trace_try_catch @completion_try_catch
  @trace_ret @completion_ret @trace_throw @completion_throw @trace_lift @completion_lift
  trace_act completion_act trace_sendStatus completion_sendStatus
  trace_sendError completion_sendError : effect.

(** Rewrites a composed computation into the traces of its parts. *)
Ltac run := autorewrite with effect.

(** The same, with the appended lists brought to one shape. *)
Ltac tidy := run; rewrite ?app_nil_r, <- ?app_assoc; cbn [app].

(** Brings both sides of an equation between appended lists to one shape. *)
Ltac flatten :=
  repeat first [ rewrite <- app_assoc | rewrite app_nil_r | progress cbn [app] ].

(** ** Occurrences in strings *)

Section Occurrences.
Import JS.

Lemma append_empty_r (s : string) : s +:+ EmptyString = s.
Proof.
  induction s as [| c s IH]; [done |].
  change (String c (s +:+ EmptyString) = String c s). by f_equal.
Qed.

Lemma append_associative (a b c : string) : (a +:+ b) +:+ c = a +:+ (b +:+ c).
Proof.
  induction a as [| x a IH]; [done |].
  change (String x ((a +:+ b) +:+ c) = String x (a +:+ (b +:+ c))). by f_equal.
Qed.

Lemma occurs_in_refl (t : string) : occurs_in t t.
Proof. exists EmptyString, EmptyString. by rewrite append_empty_r. Qed.

Lemma occurs_in_app_r (t a s : string) : occurs_in t s → occurs_in t (a +:+ s).
Proof.
  intros (pre & post & ->). exists (a +:+ pre), post.
  by rewrite append_associative.
Qed.

Lemma occurs_in_app_l (t s b : string) : occurs_in t s → occurs_in t (s +:+ b).
Proof.
  intros (pre & post & ->). exists pre, (post +:+ b).
  by rewrite !append_associative.
Qed.

Lemma occurs_in_trans (t s u : string) : occurs_in t s → occurs_in s u → occurs_in t u.
Proof.
  intros H (pre & post & ->). by apply occurs_in_app_r, occurs_in_app_l.
Qed.

(** A section occurs in the joined prompt. *)
Lemma occurs_in_join (sep section : string) (sections : list string) :
  section ∈ sections → occurs_in section (join sep sections).
Proof.
  unfold join. induction sections as [| s rest IH]; [by intros ?%elem_of_nil |].
  intros [-> | Hin]%elem_of_cons.
  - destruct rest; [apply occurs_in_refl |]. cbn [String.concat].
    apply occurs_in_app_l, occurs_in_refl.
  - destruct rest as [| s' rest']; [by apply elem_of_nil in Hin |].
    cbn [String.concat]. apply occurs_in_app_r, occurs_in_app_r. by apply IH.
Qed.

End Occurrences.

(** ** Starts of texts *)

Section Prefixes.
Import JS.

Lemma append_cons c (a b : string) : String c a +:+ b = String c (a +:+ b).
Proof. reflexivity. Qed.

Lemma startsWith_nil s : startsWith s EmptyString = true.
Proof. by destruct s. Qed.

Lemma startsWith_cons c d s p :
  startsWith (String c s) (String d p) = bool_decide (d = c) && startsWith s p.
Proof.
  unfold startsWith. cbn [String.prefix].
  destruct (ascii_dec d c) as [->|Hne].
  - by rewrite bool_decide_true.
  - by rewrite bool_decide_false.
Qed.

Lemma startsWith_app s p : startsWith (p +:+ s) p = true.
Proof.
  induction p as [|c p IH]; [apply startsWith_nil|].
  rewrite append_cons, startsWith_cons, IH. by rewrite bool_decide_true.
Qed.

Lemma startsWith_more s b p : startsWith s p = true → startsWith (s +:+ b) p = true.
Proof.
  revert s. induction p as [|d p IH]; intros s; [intros _; apply startsWith_nil|].
  destruct s as [|c s]; [done|].
  rewrite append_cons, !startsWith_cons.
  intros [? ?]%andb_prop. apply andb_true_intro. split; [done|by apply IH].
Qed.

Lemma startsWith_length s p : startsWith s p = true → (String.length p ≤ String.length s)%nat.
Proof.
  revert s. induction p as [|d p IH]; intros s; [cbn; lia|].
  destruct s as [|c s]; [done|].
  rewrite startsWith_cons. intros [_ H]%andb_prop. apply IH in H. cbn. lia.
Qed.

End Prefixes.

(** ** Where a header can occur *)

Section HeaderFree.
Import JS Scan.

Lemma occurs_in_cons h c s :
  occurs_in h (String c s) → startsWith (String c s) h = true ∨ occurs_in h s.
Proof.
  intros (pre & post & Heq). destruct pre as [| c' pre].
  - left. change (EmptyString +:+ h +:+ post) with (h +:+ post) in Heq.
    rewrite Heq. apply startsWith_app.
  - right. rewrite append_cons in Heq. injection Heq as _ ->. by exists pre, post.
Qed.

Lemma startsWith_occurs s h : startsWith s h = true → occurs_in h s.
Proof.
  revert s. induction h as [| d h IH]; intros s.
  - intros _. by exists EmptyString, s.
  - destruct s as [| c s]; [done |]. rewrite startsWith_cons.
    intros [Hc Hs]%andb_prop. apply bool_decide_eq_true in Hc as ->.
    destruct (IH s Hs) as (pre & post & Heq). 
    exists EmptyString, (TextModel.drop (String.length h) s).
    change (String c s = String c (h +:+ TextModel.drop (String.length h) s)). f_equal.
    clear -Hs. revert s Hs. induction h as [| d h IH]; intros s Hs; [done |].
    destruct s as [| c s]; [done |]. rewrite startsWith_cons in Hs.
    apply andb_prop in Hs as [Hc Hs]. apply bool_decide_eq_true in Hc as ->.
    rewrite append_cons. cbn [String.length TextModel.drop]. f_equal. by apply IH.
Qed.

(** A text that starts with [h] after [a] was put before it: [h] is
    in [a], or [a] is a start of [h] whose rest the text starts with. *)
Lemma startsWith_split a b : ∀ h,
  startsWith (a +:+ b) h = true →
  startsWith a h = true ∨
  (startsWith h a = true ∧ startsWith b (TextModel.drop (String.length a) h) = true).
Proof.
  induction a as [| c a IH]; intros h.
  - intros H. right. split; [apply startsWith_nil | exact H].
  - destruct h as [| d h]; [intros _; left; apply startsWith_nil |].
    rewrite append_cons, !startsWith_cons. intros [Hc H]%andb_prop.
    apply bool_decide_eq_true in Hc as ->.
    destruct (IH h H) as [Ha | [Ha Hb]].
    + left. by rewrite bool_decide_true.
    + right. rewrite bool_decide_true by done. split; [exact Ha | exact Hb].
Qed.

Lemma startsWith_both a h :
  startsWith h a = true → (String.length h ≤ String.length a)%nat →
  startsWith a h = true.
Proof.
  revert h. induction a as [| c a IH]; intros h.
  - destruct h; [done | cbn; lia].
  - destruct h as [| d h]; [intros _ _; apply startsWith_nil |].
    rewrite !startsWith_cons. intros [Hc H]%andb_prop Hlen.
    apply bool_decide_eq_true in Hc as ->. rewrite bool_decide_true by done.
    apply IH; [done | cbn in Hlen; lia].
Qed.

Lemma drop_tails h : ∀ k, (k < String.length h)%nat → TextModel.drop k h ∈ tails h.
Proof.
  induction h as [| d h IH]; intros k Hk; [cbn in Hk; lia |].
  destruct k as [| k]; [left |].
  cbn [TextModel.drop tails]. right. apply IH. cbn in Hk. lia.
Qed.

Lemma drop_ends h k :
  (0 < k < String.length h)%nat → TextModel.drop k h ∈ ends h.
Proof.
  intros [Hk Hlen]. unfold ends. destruct h as [| d h]; [cbn in Hlen; lia |].
  destruct k as [| k]; [lia |]. 
  replace (TextModel.drop 1 (String d h)) with h by (by destruct h).
  cbn [TextModel.drop]. apply drop_tails. cbn in Hlen. lia.
Qed.

Lemma Fresh_free h r : Fresh h r → ¬ occurs_in h r.
Proof. by intros [? _]. Qed.

(** A copied text before a fresh one. *)
Lemma free_before_fresh h u rest :
  ¬ occurs_in h u → Fresh h rest → ¬ occurs_in h (u +:+ rest).
Proof.
  intros Hu [Hrest Hends]. induction u as [| c u IH]; [exact Hrest |].
  rewrite append_cons. intros [Hstart | Hlater]%occurs_in_cons.
  - rewrite <- append_cons in Hstart.
    apply startsWith_split in Hstart as [Hin | [Hpre Hgo]].
    + by apply Hu, startsWith_occurs.
    + destruct (decide (String.length (String c u) < String.length h)%nat) as [Hlt | Hge].
      * rewrite Forall_forall in Hends.
        rewrite (Hends (TextModel.drop (String.length (String c u)) h)) in Hgo; [done |].
        apply drop_ends. split; [cbn; lia | done].
      * apply Hu, startsWith_occurs, startsWith_both; [done | lia].
  - apply IH; [| done]. intros Hocc. apply Hu.
    change (String c u) with (String c EmptyString +:+ u). by apply occurs_in_app_r.
Qed.

(** A fixed text that is closed, before any text that is free. *)
Lemma closed_free h fixed rest :
  closed h fixed = true → ¬ occurs_in h rest → ¬ occurs_in h (fixed +:+ rest).
Proof.
  unfold closed. intros Hstarts Hrest.
  induction fixed as [| c fixed IH]; [exact Hrest |].
  cbn [tails forallb] in Hstarts. apply andb_prop in Hstarts as [Hhere Hlater].
  rewrite append_cons. intros [Hstart | Hocc]%occurs_in_cons.
  - rewrite <- append_cons in Hstart. unfold apart in Hhere.
    apply andb_prop in Hhere as [H1 H2].
    apply startsWith_split in Hstart as [Hin | [Hpre _]].
    + by rewrite Hin in H2.
    + by rewrite Hpre in H1.
  - by apply IH.
Qed.

(** A fixed text that is sealed, before any text that is free. *)
Lemma sealed_fresh h fixed rest :
  sealed h fixed = true → ¬ occurs_in h rest → Fresh h (fixed +:+ rest).
Proof.
  unfold sealed. intros [Hstarts Hgoes]%andb_prop Hrest. split.
  - by apply closed_free.
  - rewrite forallb_forall in Hgoes. rewrite Forall_forall. intros t Ht.
    apply list_elem_of_In in Ht. specialize (Hgoes t Ht). unfold apart in Hgoes.
    apply andb_prop in Hgoes as [H1 H2].
    destruct (startsWith (fixed +:+ rest) t) eqn:Hstart; [| done].
    apply startsWith_split in Hstart as [Hin | [Hpre _]].
    + by rewrite Hin in H1.
    + by rewrite Hpre in H2.
Qed.

Lemma Link_Pre h s : Link h s → Pre h s.
Proof. intros H rest Hrest. by apply Fresh_free, H. Qed.

Lemma Pre_copied h u : ¬ occurs_in h u → Pre h u.
Proof. intros Hu rest Hrest. by apply free_before_fresh. Qed.

Lemma Pre_copied_then h u x : ¬ occurs_in h u → Link h x → Pre h (u +:+ x).
Proof.
  intros Hu Hx rest Hrest. rewrite append_associative.
  apply free_before_fresh; [done |]. by apply Hx.
Qed.

Lemma Link_fixed_then h fixed x : sealed h fixed = true → Pre h x → Link h (fixed +:+ x).
Proof.
  intros Hfixed Hx rest Hrest. rewrite append_associative.
  apply sealed_fresh; [done |]. by apply Hx.
Qed.

Lemma Pre_fixed_then h fixed x : closed h fixed = true → Pre h x → Pre h (fixed +:+ x).
Proof.
  intros Hfixed Hx rest Hrest. rewrite append_associative.
  apply closed_free; [done |]. by apply Hx.
Qed.

Lemma Link_fixed h fixed : sealed h fixed = true → Link h fixed.
Proof.
  intros Hfixed rest Hrest. apply sealed_fresh; [done |]. by apply Fresh_free.
Qed.

Lemma Link_nil h : Link h EmptyString.
Proof. by intros rest Hrest. Qed.

Lemma Link_app h a b : Link h a → Link h b → Link h (a +:+ b).
Proof.
  intros Ha Hb rest Hrest. rewrite append_associative. by apply Ha, Hb.
Qed.

Lemma Link_join h sep sections :
  Link h sep → Forall (Link h) sections → Link h (join sep sections).
Proof.
  intros Hsep Hall. unfold join.
  induction Hall as [| s rest Hs Hrest IH]; [apply Link_nil |].
  destruct rest as [| s' rest]; [exact Hs |].
  cbn [String.concat]. apply Link_app; [exact Hs |]. apply Link_app; [exact Hsep | exact IH].
Qed.

Lemma Fresh_nil h : h ≠ EmptyString → Fresh h EmptyString.
Proof.
  intros Hh. split.
  - intros (pre & post & Heq). destruct pre; [| discriminate].
    destruct h; [done | discriminate].
  - unfold ends. generalize (TextModel.drop 1 h). intros s.
    induction s as [| c s IH]; [constructor |].
    cbn [tails]. constructor; [done | exact IH].
Qed.

Lemma Link_free h s : h ≠ EmptyString → Link h s → ¬ occurs_in h s.
Proof.
  intros Hh Hs. rewrite <- (append_empty_r s). apply Fresh_free, Hs. by apply Fresh_nil.
Qed.

Lemma closed_absent h s : closed h s = true → h ≠ EmptyString → ¬ occurs_in h s.
Proof.
  intros Hs Hh. rewrite <- (append_empty_r s). apply closed_free; [done |].
  by apply Fresh_free, Fresh_nil.
Qed.

(** *** Numerals *)

Lemma pretty_N_char_numeric x : numeric (pretty_N_char x) = true.
Proof. unfold pretty_N_char. by repeat case_match. Qed.

Lemma pretty_N_go_numeral x : ∀ s, numeral s → numeral (pretty_N_go x s).
Proof.
  induction (N.lt_wf_0 x) as [x _ IH]. intros s Hs.
  destruct (decide (x = 0)%N) as [-> | Hx]; [by rewrite pretty_N_go_0 |].
  rewrite pretty_N_go_step by lia. apply IH; [apply N.div_lt; lia |].
  constructor; [apply pretty_N_char_numeric | exact Hs].
Qed.

Lemma pretty_N_numeral (x : N) : numeral (pretty x).
Proof.
  unfold pretty, pretty_N. case_decide; [by repeat constructor |].
  apply pretty_N_go_numeral. constructor.
Qed.

Lemma pretty_nat_numeral (x : nat) : numeral (pretty x).
Proof. apply pretty_N_numeral. Qed.

Lemma pretty_Z_numeral (x : Z) : numeral (pretty x).
Proof.
  unfold pretty, pretty_Z. destruct x as [| p | p].
  - by repeat constructor.
  - apply pretty_N_numeral.
  - constructor; [done | apply pretty_N_numeral].
Qed.

(** A numeral before a text that is free. *)
Lemma numeral_before_free h s rest :
  wordy h = true → numeral s → ¬ occurs_in h rest → ¬ occurs_in h (s +:+ rest).
Proof.
  unfold wordy. intros [Hchars Hh]%andb_prop Hs Hrest.
  unfold numeral in Hs.
  induction s as [| c s IH]; [exact Hrest |].
  cbn [characters] in Hs. apply Forall_cons in Hs as [Hc Hs].
  rewrite append_cons. intros [Hstart | Hocc]%occurs_in_cons.
  - destruct h as [| d h]; [done |]. rewrite startsWith_cons in Hstart.
    apply andb_prop in Hstart as [Hd _]. apply bool_decide_eq_true in Hd as ->.
    cbn [characters forallb] in Hchars.
    apply andb_prop in Hchars as [Hn _]. by rewrite Hc in Hn.
  - by apply IH.
Qed.

Lemma Pre_numeral_then h s x : wordy h = true → numeral s → Pre h x → Pre h (s +:+ x).
Proof.
  intros Hh Hs Hx rest Hrest. rewrite append_associative.
  apply numeral_before_free; [done | done |]. by apply Hx.
Qed.

End HeaderFree.

(** ** Fallback variations *)

Section Fallback.
Import TextModel JS.

Lemma pick_nonempty (options : list string) (i : nat) :
  options ≠ [] → Forall (λ o, truthy o = true) options →
  truthy (pick options i) = true.
Proof.
  intros Hne Hall. unfold pick.
  rewrite Forall_forall in Hall. apply Hall.
  apply list_elem_of_In, nth_In.
  apply Nat.mod_upper_bound. destruct options; [done | simpl; lia].
Qed.

Lemma fallbackVariation_populated (factors : list string) (i : nat) :
  let v := fallbackVariation factors i in
  truthy (VariationSpec.lighting v) = true ∧
  truthy (VariationSpec.environment v) = true ∧
  truthy (VariationSpec.cameraAngle v) = true ∧
  truthy (VariationSpec.materials v) = true.
Proof.
  simpl. repeat split; case_match; try reflexivity;
    apply pick_nonempty; try discriminate; repeat constructor.
Qed.

Lemma generateFallbackVariations_lookup (count : Z) (factors : list string) (i : nat) :
  (i < Z.to_nat count)%nat →
  generateFallbackVariations count factors !! i = Some (fallbackVariation factors i).
Proof.
  intros Hi. unfold generateFallbackVariations.
  rewrite list_lookup_fmap, lookup_seq_lt by done. reflexivity.
Qed.

End Fallback.

(** ** The variation generator *)

Section VariationSpecs.
Import TextModel JS Effect Shape.
Variable env : Env.
Variable world : World.

Lemma generateVariationSpecs_nothing_to_vary base brand factors n :
  (n ≤ 1)%Z ∨ factors = [] →
  generateVariationSpecs env world base brand factors n = ([], Returned (JArr [])).
Proof.
  intros H. unfold generateVariationSpecs.
  destruct H as [H | ->].
  - rewrite bool_decide_true by done. reflexivity.
  - rewrite orb_comm. reflexivity.
Qed.

Lemma generateVariationSpecs_guard (factors : list string) (n : Z) :
  (1 < n)%Z → factors ≠ [] →
  bool_decide (n ≤ 1)%Z || bool_decide (length factors = 0%nat) = false.
Proof.
  intros Hn Hf. rewrite bool_decide_false by lia.
  rewrite bool_decide_false; [done |]. by destruct factors.
Qed.

Lemma generateVariationSpecs_without_key base brand factors n message :
  (1 < n)%Z → factors ≠ [] → getClient env = Threw message →
  generateVariationSpecs env world base brand factors n = ([], Threw message).
Proof.
  intros Hn Hf Hkey. unfold generateVariationSpecs.
  rewrite generateVariationSpecs_guard by done.
  rewrite Hkey. reflexivity.
Qed.

Lemma generateVariationSpecs_with_key base brand factors n key :
  (1 < n)%Z → factors ≠ [] → getClient env = Returned key →
  generateVariationSpecs env world base brand factors n =
    ([CallGenerateContent (variationRequest base brand factors n)],
     Returned (variationsAfter env
                 (generateContent world (variationRequest base brand factors n))
                 factors n)).
Proof.
  intros Hn Hf Hkey. unfold generateVariationSpecs.
  rewrite generateVariationSpecs_guard by done.
  rewrite Hkey. unfold variationsAfter, callGenerateContent, parseVariations.
  destruct (generateContent world _) as [m | text]; [reflexivity |].
  cbn. destruct (JSON_parse env (cleanJson env text)) as [[]|]; reflexivity.
Qed.

End VariationSpecs.

Section FallbackVariations.
Import TextModel JS Effect Observe.

(** C6. For a count [k ≥ 1] the deterministic fallback has exactly [k]
    entries; entry [i] takes each requested factor from that factor's
    list of five phrases at index [i mod 5] and each other factor from
    its generic phrase, and none of the four fields is empty. With
    [variantCount = 3], factors [lighting] and a text model that throws,
    [generateVariationSpecs] returns the two entries of indices 0 and 1. *)
Theorem fallback_fills_every_field :
  (∀ (k : Z) (factors : list string), (1 ≤ k)%Z →
     length (generateFallbackVariations k factors) = Z.to_nat k ∧
     ∀ i : nat, (i < Z.to_nat k)%nat →
       ∃ v, generateFallbackVariations k factors !! i = Some v ∧
         VariationSpec.lighting v =
           (if includes factors "lighting" then nth (i mod 5) lightingOptions EmptyString
            else "standard studio lighting") ∧
         VariationSpec.environment v =
           (if includes factors "environment" then nth (i mod 5) environmentOptions EmptyString
            else "clean studio background") ∧
         VariationSpec.cameraAngle v =
           (if includes factors "camera-angle" then nth (i mod 5) cameraOptions EmptyString
            else "standard product angle") ∧
         VariationSpec.materials v =
           (if includes factors "materials" then nth (i mod 5) materialOptions EmptyString
            else "natural product materials") ∧
         truthy (VariationSpec.lighting v) = true ∧
         truthy (VariationSpec.environment v) = true ∧
         truthy (VariationSpec.cameraAngle v) = true ∧
         truthy (VariationSpec.materials v) = true) ∧
  (∀ (env : Env) (world : World) (base brand key : string),
     getClient env = Returned key →
     (∀ request, ∃ message, generateContent world request = ContentThrows message) →
     completion (generateVariationSpecs env world base brand ["lighting"] 3) =
       Returned (JArr
         [ JObj [ ("lighting", JStr "soft natural lighting with diffused shadows");
                  ("environment", JStr "clean studio background");
                  ("cameraAngle", JStr "standard product angle");
                  ("materials", JStr "natural product materials") ];
           JObj [ ("lighting", JStr "dramatic studio lighting with high contrast");
                  ("environment", JStr "clean studio background");
                  ("cameraAngle", JStr "standard product angle");
                  ("materials", JStr "natural product materials") ] ])).
Proof.
  split.
  - intros k factors Hk. split.
    + unfold generateFallbackVariations. by rewrite length_map, length_seq.
    + intros i Hi. exists (fallbackVariation factors i).
      split; [by apply generateFallbackVariations_lookup |].
      pose proof (fallbackVariation_populated factors i) as Hpop.
      repeat split; try apply Hpop.
  - intros env world base brand key Hkey Hthrows.
    rewrite (generateVariationSpecs_with_key env world base brand ["lighting"] 3 key)
      by (try lia; done).
    destruct (Hthrows (variationRequest base brand ["lighting"] 3)) as [m ->].
    reflexivity.
Qed.

Lemma fallback_fills_every_field_witness :
  length (generateFallbackVariations 2 ["lighting"; "materials"]) = 2%nat ∧
  completion (generateVariationSpecs Sample.env Sample.textModelDown
                "Product photography with professional aesthetic" EmptyString
                ["lighting"] 3) =
    Returned (fallbackValue ["lighting"] 3).
Proof.
  split.
  - apply (proj1 fallback_fills_every_field 2%Z ["lighting"; "materials"]). lia.
  - apply (proj2 fallback_fills_every_field Sample.env Sample.textModelDown _ _ "key").
    + reflexivity.
    + intros request. exists "fetch failed". reflexivity.
Defined.

End FallbackVariations.

Section VariationReplies.
Import TextModel JS Effect Observe Shape.

(** A reply that parses to anything but [null] is returned as it is:
    its length is not compared with [variantCount - 1], and it need not
    be an array. *)
Lemma parsed_reply_returned_unchanged (env : Env) (world : World)
    (base brand key : string) (factors : list string) (n : Z)
    (text : option string) (parsed : Json) :
  (1 < n)%Z → factors ≠ [] → getClient env = Returned key →
  generateContent world (variationRequest base brand factors n) = ContentText text →
  JSON_parse env (cleanJson env text) = Some parsed → parsed ≠ JNull →
  completion (generateVariationSpecs env world base brand factors n) = Returned parsed.
Proof.
  intros Hn Hf Hkey Hcall Hparse Hnull.
  rewrite (generateVariationSpecs_with_key env world base brand factors n key) by done.
  unfold variationsAfter. rewrite Hcall, Hparse. by destruct parsed.
Qed.

(** C2. With [variantCount = 3] and the factor [lighting], a text model
    that answers with the empty array makes [generateVariationSpecs]
    return the empty array: no entry is added to reach two. *)
Theorem short_reply_is_not_topped_up :
  completion (generateVariationSpecs Sample.env (Sample.answering "[]")
                "Product photography with professional aesthetic" EmptyString
                ["lighting"] 3) = Returned (JArr []) ∧
  (entries (JArr []) ≫= (λ l, Some (length l))) ≠ Some 2%nat.
Proof. split; [reflexivity | discriminate]. Qed.

(** C5, as stated, fails: without an API key the client cannot be made,
    and the error leaves [generateVariationSpecs]. *)
Lemma variation_specs_raise_without_key :
  ¬ ∃ value : Json,
      completion (generateVariationSpecs Sample.envWithoutKey Sample.textModelDown
                    "Product photography with professional aesthetic" EmptyString
                    ["lighting"] 2) = Returned value.
Proof. intros [value H]. discriminate H. Qed.

(** C5, amended. With [variantCount ≤ 1] or no factor the result is the
    empty array and nothing is sent. Otherwise, when an API key is
    configured, [generateVariationSpecs] returns a value and raises
    nothing; that value is the deterministic fallback when the call
    throws and when the cleaned text is not JSON. *)
Theorem variation_specs_fall_back (env : Env) (world : World)
    (base brand : string) (factors : list string) (n : Z) :
  ((n ≤ 1)%Z ∨ factors = [] →
     generateVariationSpecs env world base brand factors n = ([], Returned (JArr []))) ∧
  ((1 < n)%Z → factors ≠ [] → (∃ key, getClient env = Returned key) →
     (∃ value, completion (generateVariationSpecs env world base brand factors n)
               = Returned value) ∧
     ((∃ message, generateContent world (variationRequest base brand factors n)
                  = ContentThrows message) →
      completion (generateVariationSpecs env world base brand factors n)
        = Returned (fallbackValue factors n)) ∧
     (∀ text, generateContent world (variationRequest base brand factors n)
                = ContentText text →
              JSON_parse env (cleanJson env text) = None →
      completion (generateVariationSpecs env world base brand factors n)
        = Returned (fallbackValue factors n))).
Proof.
  split; [apply generateVariationSpecs_nothing_to_vary |].
  intros Hn Hf [key Hkey].
  rewrite (generateVariationSpecs_with_key env world base brand factors n key) by done.
  repeat split.
  - eexists. reflexivity.
  - intros [message ->]. reflexivity.
  - intros text -> Hparse. cbn. by rewrite Hparse.
Qed.

Lemma variation_specs_fall_back_witness :
  generateVariationSpecs Sample.env Sample.textModelDown "base" EmptyString [] 4
    = ([], Returned (JArr [])) ∧
  completion (generateVariationSpecs Sample.env Sample.textModelDown "base" EmptyString
                ["lighting"] 2) = Returned (fallbackValue ["lighting"] 2).
Proof.
  split.
  - apply (proj1 (variation_specs_fall_back Sample.env Sample.textModelDown
                    "base" EmptyString [] 4)).
    right. reflexivity.
  - apply (proj2 (variation_specs_fall_back Sample.env Sample.textModelDown
                    "base" EmptyString ["lighting"] 2)).
    + lia.
    + discriminate.
    + exists "key". reflexivity.
    + exists "fetch failed". reflexivity.
Defined.

End VariationReplies.

(** ** Optional sections of the image prompt *)

Section SectionPresence.
Import Prompt JS Vary Observe StructuredPromptParams.

Lemma moodboardSection_none params :
  moodboardImageCount params = 0%nat → moodboardSection params = [].
Proof. intros H. unfold moodboardSection. by rewrite H. Qed.

Lemma interactionSection_none params :
  truthy_opt (referenceImageInteraction params) = false ∨
  (referenceImageCount params ≤ 1)%nat →
  interactionSection params = [].
Proof.
  unfold interactionSection, truthy_opt.
  destruct (referenceImageInteraction params) as [text|]; [| done].
  intros [-> | H]; [done |].
  rewrite (bool_decide_false (1 < _)%nat) by lia. by rewrite andb_false_r.
Qed.

Lemma imageSections_withMoodboard env n params :
  imageSections env (withMoodboard n params) =
    ((interactionSection params ++
      creativeTrendSection (CREATIVE_TREND_PRESETS env) (creativeTrend params) ++
      [brandSection params] ++ [paletteSection params]) ++
     moodboardSection (withMoodboard n params) ++
     ([imageSpecSection env params] ++ variationSection params))%list.
Proof. unfold imageSections. rewrite <- !app_assoc. reflexivity. Qed.

Lemma imageSections_withInteraction env text params :
  imageSections env (withInteraction text params) =
    (interactionSection (withInteraction text params) ++
     (creativeTrendSection (CREATIVE_TREND_PRESETS env) (creativeTrend params) ++
      [brandSection params] ++ [paletteSection params] ++ moodboardSection params ++
      [imageSpecSection env params] ++ variationSection params))%list.
Proof. reflexivity. Qed.

End SectionPresence.

Section HeaderAbsence.
Import Prompt JS Vary Scan Copied StructuredPromptParams.
Variable env : Env.

Ltac fixed := apply Link_fixed_then; [vm_compute; reflexivity |].
Ltac fixed_pre := apply Link_Pre; fixed.
Ltac last_fixed := apply Link_fixed; vm_compute; reflexivity.

Lemma join_cons sep s (l : list string) :
  l ≠ [] → join sep (s :: l) = s +:+ sep +:+ join sep l.
Proof. by destruct l. Qed.

Lemma join_app sep (l1 l2 : list string) :
  l1 ≠ [] → l2 ≠ [] → join sep (l1 ++ l2) = join sep l1 +:+ sep +:+ join sep l2.
Proof.
  intros H1 H2. induction l1 as [| s l1 IH]; [done |].
  destruct l1 as [| s' l1].
  - cbn [app]. by apply join_cons.
  - change ((s :: s' :: l1) ++ l2) with (s :: ((s' :: l1) ++ l2)).
    rewrite !join_cons by done. rewrite IH by done.
    by rewrite !append_associative.
Qed.

Lemma join_insert sep s (l1 l2 : list string) :
  l1 ≠ [] → l2 ≠ [] →
  join sep (l1 ++ [s] ++ l2) = join sep l1 +:+ sep +:+ s +:+ sep +:+ join sep l2.
Proof.
  intros H1 H2. rewrite join_app by done.
  change ([s] ++ l2) with (s :: l2). by rewrite join_cons.
Qed.

Lemma creativeTrendSection_text catalog trend :
  creativeTrendSection catalog trend =
    match trendText catalog trend with
    | Some text => [TREND_HEADER +:+ nl +:+ text]
    | None => []
    end.
Proof. unfold creativeTrendSection, trendText. by repeat case_match. Qed.

Lemma interactionSection_text params :
  interactionSection params =
    match interactionText params with
    | Some text =>
      [INTERACTION_HEADER +:+ nl +:+ text +:+ "

Composition Requirements:
- Ensure seamless integration between referenced elements
- Match lighting, perspective, and scale across combined elements
- Blend edges naturally to avoid obvious compositing
- Maintain consistent depth of field and atmospheric perspective
- Preserve the quality and detail of key elements from each referenced image"]
    | None => []
    end.
Proof. unfold interactionSection, interactionText. by repeat case_match. Qed.

Section Sections.
Variable h : string.
Hypothesis header : h = MOODBOARD_HEADER ∨ h = INTERACTION_HEADER.

Lemma header_wordy : wordy h = true.
Proof. by destruct header as [-> | ->]. Qed.

Lemma header_filled : h ≠ EmptyString.
Proof. by destruct header as [-> | ->]. Qed.

Lemma separator_Link : Link h separator.
Proof. destruct header as [-> | ->]; last_fixed. Qed.

Variable params : StructuredPromptParams.t.
Hypothesis texts : free h env params.

Lemma trend_Links :
  Forall (Link h) (creativeTrendSection (CREATIVE_TREND_PRESETS env) (creativeTrend params)).
Proof.
  rewrite creativeTrendSection_text.
  unfold free, copiedTexts in texts. rewrite !Forall_app in texts.
  destruct texts as (_ & Htrend & _).
  destruct (trendText _ _) as [text |]; [| constructor].
  apply Forall_cons in Htrend as [Htext _]. apply Forall_singleton.
  destruct header as [-> | ->]; fixed; fixed_pre; by apply Pre_copied.
Qed.

Lemma brand_Link : Link h (brandSection params).
Proof.
  unfold free, copiedTexts in texts. rewrite !Forall_app in texts.
  destruct texts as (_ & _ & Hrequired & _).
  apply Forall_cons in Hrequired as [Hbrand _].
  unfold brandSection, js_or.
  destruct (truthy (brandGuidelines params)).
  - destruct header as [-> | ->]; fixed; fixed_pre; by apply Pre_copied.
  - destruct header as [-> | ->]; fixed; fixed_pre; apply Link_Pre; last_fixed.
Qed.

Lemma palette_Link : Link h (paletteSection params).
Proof.
  unfold free, copiedTexts in texts. rewrite !Forall_app in texts.
  destruct texts as (_ & _ & Hrequired & _).
  apply Forall_cons in Hrequired as [_ Hrequired].
  apply Forall_cons in Hrequired as [Hprimary Hrequired].
  apply Forall_cons in Hrequired as [Hsecondary _].
  unfold paletteSection.
  destruct header as [-> | ->];
    (fixed; fixed_pre; fixed_pre; apply Pre_copied_then; [done |];
     fixed; fixed_pre; apply Pre_copied_then; [done |]; last_fixed).
Qed.

Lemma imageSpec_Link : Link h (imageSpecSection env params).
Proof.
  unfold free, copiedTexts in texts. rewrite !Forall_app in texts.
  destruct texts as (_ & _ & Hrequired & _).
  do 3 apply Forall_cons in Hrequired as [_ Hrequired].
  apply Forall_cons in Hrequired as [Hratio Hrequired].
  apply Forall_cons in Hrequired as [Hguidance _].
  unfold imageSpecSection.
  destruct header as [-> | ->];
    (fixed; fixed_pre; fixed_pre; apply Pre_copied_then; [done |];
     fixed; fixed_pre; by apply Pre_copied).
Qed.

Lemma variationPart_Links label field :
  sealed h label = true →
  Forall (λ text, ¬ occurs_in h text) (option_list field) →
  Forall (Link h) (variationPart label field).
Proof.
  intros Hlabel Hfield. unfold variationPart.
  destruct field as [text |]; [| constructor].
  apply Forall_cons in Hfield as [Htext _].
  destruct (truthy text); [| constructor]. apply Forall_singleton.
  apply Link_fixed_then; [done |]. by apply Pre_copied.
Qed.

Lemma variation_Links : Forall (Link h) (variationSection params).
Proof.
  unfold free, copiedTexts in texts. rewrite !Forall_app in texts.
  destruct texts as (_ & _ & _ & Hvariation).
  unfold variationSection, variationTexts in *.
  destruct (variantNumber params) as [n |]; [| constructor].
  destruct (variationSpecs params) as [specs |]; [| constructor].
  destruct (bool_decide (1 < n)%Z); [| constructor].
  rewrite !Forall_app in Hvariation.
  destruct Hvariation as (Hlighting & Henvironment & Hangle & Hmaterials).
  assert (Forall (Link h) (variationParts specs)) as Hparts.
  { unfold variationParts. rewrite !Forall_app.
    split_and!; (apply variationPart_Links; [| done]);
      destruct header as [-> | ->]; vm_compute; reflexivity. }
  destruct (variationParts specs) as [| part parts] eqn:Heq; [constructor |].
  apply Forall_singleton.
  assert (Link h (join (nl +:+ nl) (part :: parts))) as Hjoin.
  { apply Link_join; [| done]. destruct header as [-> | ->]; last_fixed. }
  apply Link_Pre in Hjoin.
  pose proof header_wordy as Hwordy.
  destruct header as [-> | ->];
    (fixed; apply Pre_numeral_then; [done | apply pretty_Z_numeral |];
     apply Pre_fixed_then; [vm_compute; reflexivity |];
     fixed_pre; fixed_pre; exact Hjoin).
Qed.

End Sections.

Lemma interaction_Links params :
  free MOODBOARD_HEADER env params →
  Forall (Link MOODBOARD_HEADER) (interactionSection params).
Proof.
  intros texts. rewrite interactionSection_text.
  unfold free, copiedTexts in texts. rewrite !Forall_app in texts.
  destruct texts as (Hinteraction & _).
  destruct (interactionText params) as [text |]; [| constructor].
  apply Forall_cons in Hinteraction as [Htext _]. apply Forall_singleton.
  fixed; fixed_pre; apply Pre_copied_then; [done |]; last_fixed.
Qed.

Lemma moodboardRefs_Link params : Link INTERACTION_HEADER (moodboardRefs params).
Proof.
  unfold moodboardRefs. apply Link_join; [last_fixed |].
  apply Forall_forall. intros s (i & -> & _)%list_elem_of_fmap.
  fixed. apply Pre_numeral_then; [done | apply pretty_nat_numeral |].
  apply Link_Pre. last_fixed.
Qed.

Lemma moodboard_Links params :
  Forall (Link INTERACTION_HEADER) (moodboardSection params).
Proof.
  unfold moodboardSection. case_bool_decide; [| constructor]. apply Forall_singleton.
  fixed; fixed_pre; fixed_pre. apply Link_Pre, Link_app; [apply moodboardRefs_Link |].
  last_fixed.
Qed.

Lemma required_sections params :
  interactionSection params ++
  creativeTrendSection (CREATIVE_TREND_PRESETS env) (creativeTrend params) ++
  [brandSection params] ++ [paletteSection params] ≠ [].
Proof.
  destruct (interactionSection params); [| done].
  by destruct (creativeTrendSection _ _).
Qed.

Lemma closing_sections params :
  [imageSpecSection env params] ++ variationSection params ≠ [].
Proof. done. Qed.

(** C7, amended. Without moodboard images the moodboard header occurs
    nowhere in the assembled prompt, and without an interaction text
    (or with at most one reference image) the interaction header occurs
    nowhere in it, provided that the header occurs in none of the texts
    that the builder copies into the prompt. Supplying moodboard images
    puts the moodboard section, with a separator, between two parts of
    the prompt that stay as they were; supplying an interaction text
    for several reference images puts the interaction section and a
    separator before the prompt. With the trend skipped, no variation
    and brand guidelines given, the prompt is the brand, palette and
    image-specification sections joined by the separator. *)
Theorem optional_sections_follow_their_inputs :
  (∀ params, moodboardImageCount params = 0%nat →
     free MOODBOARD_HEADER env params →
     ¬ occurs_in MOODBOARD_HEADER (buildStructuredPrompt env params)) ∧
  (∀ params,
     truthy_opt (referenceImageInteraction params) = false ∨
     (referenceImageCount params ≤ 1)%nat →
     free INTERACTION_HEADER env params →
     ¬ occurs_in INTERACTION_HEADER (buildStructuredPrompt env params)) ∧
  (∀ params n, (0 < n)%nat →
     ∃ before after : string,
       buildStructuredPrompt env (withMoodboard 0 params) =
         before +:+ separator +:+ after ∧
       buildStructuredPrompt env (withMoodboard n params) =
         before +:+ separator +:+
         ("LOOK & FEEL REFERENCE (MOODBOARD):
Draw inspiration from the visual style shown in " +:+
          join ", "
            (map (λ i : nat,
                    "[image " +:+ pretty (moodboardStartIndex params + i + 1)%nat +:+ "]")
                 (seq 0 n)) +:+
          ". These images establish the desired mood, lighting quality, composition approach, and aesthetic treatment. Emulate the color grading, atmospheric qualities, texturing methods, and overall visual language present in these references while adapting them to the creative concept.") +:+
         separator +:+ after ∧
       (free MOODBOARD_HEADER env params →
        ¬ occurs_in MOODBOARD_HEADER before ∧ ¬ occurs_in MOODBOARD_HEADER after)) ∧
  (∀ params text, truthy text = true → (1 < referenceImageCount params)%nat →
     buildStructuredPrompt env (withInteraction (Some text) params) =
       ("REFERENCE IMAGES INTERACTION:
" +:+ text +:+ "

Composition Requirements:
- Ensure seamless integration between referenced elements
- Match lighting, perspective, and scale across combined elements
- Blend edges naturally to avoid obvious compositing
- Maintain consistent depth of field and atmospheric perspective
- Preserve the quality and detail of key elements from each referenced image") +:+
       separator +:+ buildStructuredPrompt env (withInteraction None params)) ∧
  (∀ params,
     moodboardImageCount params = 0%nat →
     truthy_opt (referenceImageInteraction params) = false ∨
     (referenceImageCount params ≤ 1)%nat →
     (creativeTrend params = None ∨
      ∃ trend, creativeTrend params = Some trend ∧ CreativeTrend.type trend = skip) →
     (∀ n, variantNumber params = Some n → (n ≤ 1)%Z) →
     truthy (brandGuidelines params) = true →
     buildStructuredPrompt env params =
       "BRAND GUIDELINES:
" +:+ brandGuidelines params +:+ "

---

COLOR PALETTE:
Primary Color: " +:+ primaryColor params +:+ "
Secondary Color: " +:+ secondaryColor params +:+ "

Use these colors as the dominant color scheme throughout the composition. The primary color should be the most prominent, with secondary color as supporting accent.

---

IMAGE SPECIFICATIONS:
Generate image in " +:+ aspectRatio params +:+ " aspect ratio.
" +:+ aspectGuidanceText env (aspectRatio params)).
Proof.
  split_and!.
  - intros params Hmood Htexts.
    apply Link_free; [discriminate |].
    unfold buildStructuredPrompt. apply Link_join; [apply separator_Link; by left |].
    unfold imageSections. rewrite (moodboardSection_none params Hmood), !Forall_app.
    split_and!.
    + by apply interaction_Links.
    + apply trend_Links; [by left | done].
    + apply Forall_singleton, brand_Link; [by left | done].
    + apply Forall_singleton, palette_Link; [by left | done].
    + constructor.
    + apply Forall_singleton, imageSpec_Link; [by left | done].
    + apply variation_Links; [by left | done].
  - intros params Hinter Htexts.
    apply Link_free; [discriminate |].
    unfold buildStructuredPrompt. apply Link_join; [apply separator_Link; by right |].
    unfold imageSections. rewrite (interactionSection_none params Hinter), !Forall_app.
    split_and!.
    + constructor.
    + apply trend_Links; [by right | done].
    + apply Forall_singleton, brand_Link; [by right | done].
    + apply Forall_singleton, palette_Link; [by right | done].
    + apply moodboard_Links.
    + apply Forall_singleton, imageSpec_Link; [by right | done].
    + apply variation_Links; [by right | done].
  - intros params n Hn.
    exists (join separator
              (interactionSection params ++
               creativeTrendSection (CREATIVE_TREND_PRESETS env) (creativeTrend params) ++
               [brandSection params] ++ [paletteSection params])),
           (join separator ([imageSpecSection env params] ++ variationSection params)).
    unfold buildStructuredPrompt. rewrite !imageSections_withMoodboard.
    rewrite (moodboardSection_none (withMoodboard 0 params) eq_refl).
    unfold moodboardSection. rewrite bool_decide_true by done.
    split_and!.
    + cbn [app]. apply join_app; [apply required_sections | done].
    + rewrite join_insert; [reflexivity | apply required_sections | done].
    + intros Htexts. split.
      * apply Link_free; [discriminate |].
        apply Link_join; [apply separator_Link; by left |]. rewrite !Forall_app.
        split_and!.
        -- by apply interaction_Links.
        -- apply trend_Links; [by left | done].
        -- apply Forall_singleton, brand_Link; [by left | done].
        -- apply Forall_singleton, palette_Link; [by left | done].
      * apply Link_free; [discriminate |].
        apply Link_join; [apply separator_Link; by left |]. rewrite !Forall_app.
        split.
        -- apply Forall_singleton, imageSpec_Link; [by left | done].
        -- apply variation_Links; [by left | done].
  - intros params text Htext Hcount.
    unfold buildStructuredPrompt. rewrite !imageSections_withInteraction.
    unfold interactionSection at 1.
    cbn [referenceImageInteraction referenceImageCount withInteraction].
    rewrite Htext, bool_decide_true by done. cbn [andb app].
    rewrite join_cons; [reflexivity |].
    destruct (creativeTrendSection _ _); done.
  - intros params Hmood Hinter Htrend Hvar Hbrand.
    unfold buildStructuredPrompt, imageSections.
    rewrite (moodboardSection_none params Hmood), (interactionSection_none params Hinter).
    assert (creativeTrendSection (CREATIVE_TREND_PRESETS env) (creativeTrend params) = [])
      as ->.
    { destruct Htrend as [-> | (trend & -> & Hskip)]; [done |].
      unfold creativeTrendSection. by rewrite Hskip. }
    assert (variationSection params = []) as ->.
    { unfold variationSection. destruct (variantNumber params) as [n |] eqn:Hn; [| done].
      destruct (variationSpecs params); [| done].
      rewrite bool_decide_false; [done |]. specialize (Hvar n eq_refl). lia. }
    cbn [app join String.concat]. unfold brandSection, js_or. rewrite Hbrand.
    unfold paletteSection, imageSpecSection.
    rewrite !append_associative. reflexivity.
Qed.

End HeaderAbsence.

(** ** The calls of the text model *)

Section TextModelTraces.
Import Effect Observe JS.
Variable env : Env.
Variable world : World.

Lemma contentOnly_app t1 t2 : contentOnly t1 → contentOnly t2 → contentOnly (t1 ++ t2).
Proof. unfold contentOnly. rewrite Forall_app. by split. Qed.

Lemma contentOnly_observed t :
  contentOnly t →
  statuses t = [] ∧ terminals t = [] ∧ imageCalls t = [] ∧ videoCalls t = [] ∧
  Close ∉ t.
Proof.
  induction 1 as [| a t [request ->] _ (IH1 & IH2 & IH3 & IH4 & IH5)].
  - split_and!; [done .. | apply not_elem_of_nil].
  - split_and!; try done. rewrite not_elem_of_cons. by split.
Qed.

Lemma callGenerateContent_contentOnly request :
  contentOnly (trace (TextModel.callGenerateContent world request)).
Proof.
  unfold TextModel.callGenerateContent. run.
  apply contentOnly_app; [repeat constructor; by eexists |].
  destruct (generateContent world request); run; constructor.
Qed.

Lemma generateCreativeTrend_contentOnly description :
  contentOnly
    (trace (TextModel.generateCreativeTrendFromDescription env world description)).
Proof.
  unfold TextModel.generateCreativeTrendFromDescription. run.
  destruct (TextModel.getClient env); simpl; [| constructor].
  run. repeat apply contentOnly_app; try apply callGenerateContent_contentOnly;
    repeat case_match; run; constructor.
Qed.

Lemma generateVideoCreativeTrend_contentOnly description :
  contentOnly
    (trace (TextModel.generateVideoCreativeTrendFromDescription env world description)).
Proof.
  unfold TextModel.generateVideoCreativeTrendFromDescription. run.
  destruct (TextModel.getClient env); simpl; [| constructor].
  run. repeat apply contentOnly_app; try apply callGenerateContent_contentOnly;
    repeat case_match; run; constructor.
Qed.

Lemma generateVariationSpecs_contentOnly base brand factors n :
  contentOnly (trace (TextModel.generateVariationSpecs env world base brand factors n)).
Proof.
  unfold TextModel.generateVariationSpecs.
  case_match; [constructor |]. run.
  destruct (TextModel.getClient env); simpl; [| constructor].
  run. repeat apply contentOnly_app; try apply callGenerateContent_contentOnly;
    repeat case_match; run; try constructor.
  unfold TextModel.parseVariations. repeat case_match; constructor.
Qed.

(** A failed trend expansion reports one of two messages. *)
Lemma generateCreativeTrend_completion description :
  completion (TextModel.generateCreativeTrendFromDescription env world description) =
    match TextModel.getClient env with
    | Threw message => Threw message
    | Returned _ =>
      match generateContent world (TextModel.trendRequest description) with
      | ContentThrows _ => Threw "Failed to generate creative trend from description"
      | ContentText text => Returned (js_or (trim env <$> text) EmptyString)
      end
    end.
Proof.
  unfold TextModel.generateCreativeTrendFromDescription, TextModel.callGenerateContent.
  run. destruct (TextModel.getClient env); simpl; [| done].
  run. destruct (generateContent world _); simpl; by run.
Qed.

End TextModelTraces.

(** ** The image loop *)

Section ImageLoop.
Import Effect Observe JS Route.
Variable env : Env.
Variable world : World.
Variable config : GenerationConfig.t.
Variable uploaded : list Buffer.
Variable structuredPrompt : string.
Variable variationSpecs : Json.

Local Abbreviation unitActions :=
  (Shape.unitActions env config uploaded structuredPrompt variationSpecs).
Local Abbreviation unitOutcome :=
  (Shape.unitOutcome env world config uploaded structuredPrompt variationSpecs).
Local Abbreviation loop a n results :=
  (imageLoop env world config uploaded structuredPrompt variationSpecs (seq a n) results).

(** The loop runs the units in order and stops at the first that
    throws: [j] units were started. *)
Lemma imageLoop_run (n : nat) : ∀ (a : nat) (results : list FileInfo.t),
  ∃ j : nat, (j ≤ n)%nat ∧
    trace (loop a n results) = flat_map unitActions (seq a j) ∧
    (∀ i, (a ≤ i)%nat → (S i < a + j)%nat → ∃ r, unitOutcome i = Returned r) ∧
    ((j = n ∧ (∀ i, (a ≤ i < a + n)%nat → ∃ r, unitOutcome i = Returned r) ∧
      ∃ rs, completion (loop a n results) = Returned rs ∧
            length rs = (length results + n)%nat) ∨
     (∃ k e, j = S k ∧ completion (loop a n results) = Threw e ∧
             unitOutcome (a + k) = Threw e)).
Proof.
  induction n as [| n IH]; intros a results.
  - exists 0%nat. split_and!; [lia | reflexivity | intros; lia |].
    left. split_and!; [done | intros; lia |].
    exists results. split; [reflexivity | simpl; lia].
  - change (seq a (S n)) with (a :: seq (S a) n). cbn [imageLoop].
    unfold callGenerateImage. run.
    change (generateImage world a _) with (unitOutcome a).
    destruct (unitOutcome a) as [r | e] eqn:Hout.
    + destruct (IH (S a) (results ++ [fileInfo r])) as (j & Hj & Htrace & Hbefore & Hend).
      exists (S j). split_and!.
      * lia.
      * rewrite Htrace. change (seq a (S j)) with (a :: seq (S a) j).
        cbn [flat_map]. unfold Shape.unitActions at 2. rewrite app_nil_r. reflexivity.
      * intros i Hai Hij. destruct (decide (i = a)) as [-> | Hne]; [eauto |].
        apply Hbefore; lia.
      * destruct Hend as [(-> & Hall & rs & Hrs & Hlen) | (k & e & -> & Hthrew & Hk)].
        -- left. split_and!; [done | |].
           ++ intros i Hi. destruct (decide (i = a)) as [-> | Hne]; [eauto |].
              apply Hall; lia.
           ++ exists rs. split; [done |]. rewrite Hlen, length_app. simpl. lia.
        -- right. exists (S k), e. split_and!; [done | done |].
           by replace (a + S k)%nat with (S a + k)%nat by lia.
    + exists 1%nat. split_and!.
      * lia.
      * cbn [seq flat_map]. unfold Shape.unitActions. rewrite ?app_nil_r. reflexivity.
      * intros; lia.
      * right. exists 0%nat, e. split_and!; [done | done |].
        by rewrite Nat.add_0_r.
Qed.

End ImageLoop.

(** ** The image branch *)

Section ImageBranch.
Import Effect Observe JS Route Shape.
Variable env : Env.
Variable world : World.
Variable config : GenerationConfig.t.
Variable uploaded : list Buffer.
Variable structuredPrompt : string.
Variable aiGeneratedTrend : option string.

Local Abbreviation units := (Z.to_nat (variantCountOf config)).
Local Abbreviation specsStep := (variationSpecsStep env world config aiGeneratedTrend).
Local Abbreviation branch :=
  (imageBranch env world config uploaded structuredPrompt aiGeneratedTrend).

Lemma imageBranch_completion : completion branch = Returned tt.
Proof.
  unfold imageBranch. run.
  destruct (completion specsStep) as [specs | e]; [| done].
  run.
  match goal with
  | |- context [completion (imageLoop ?x1 ?x2 ?x3 ?x4 ?x5 ?x6 ?x7 ?x8)] =>
    destruct (completion (imageLoop x1 x2 x3 x4 x5 x6 x7 x8)) as [rs | e]; [| done]
  end.
  run. destruct (imageResultPayload config rs); by run.
Qed.

Lemma imageBranch_run :
  match completion specsStep with
  | Threw message =>
    trace branch = connecting :: trace specsStep ++ [Enqueue (ErrorEvent message)]
  | Returned specs =>
    ∃ (j : nat) (tail : list Action),
      ImageEnd env world config uploaded structuredPrompt specs j tail ∧
      trace branch =
        connecting :: trace specsStep ++
        flat_map (unitActions env config uploaded structuredPrompt specs) (seq 0 j) ++ tail
  end.
Proof.
  unfold imageBranch. run.
  destruct (completion specsStep) as [specs | e]; [run | by tidy].
  destruct (imageLoop_run env world config uploaded structuredPrompt specs units 0 [])
    as (j & Hj & Htrace & Hbefore & Hend).
  exists j. rewrite Htrace.
  destruct Hend as [(-> & Hall & rs & -> & Hlen) | (k & e & -> & -> & Hk)].
  - run. destruct (imageResultPayload config rs) as [event | message] eqn:Hpay.
    + eexists. split.
      * eapply (AllGenerated _ _ _ _ _ _ _ _ rs event); try done.
        intros i Hi. apply Hall. lia.
      * unfold connecting, finishing. tidy. reflexivity.
    + destruct rs; [| done]. eexists. split.
      * by eapply (NothingGenerated _ _ _ _ _ _ _ _ message).
      * unfold connecting, finishing. tidy. reflexivity.
  - eexists. split.
    + eapply (UnitFailed _ _ _ _ _ _ _ _ k e); try done. intros i Hi. apply Hbefore; lia.
    + unfold connecting. tidy. reflexivity.
Qed.

End ImageBranch.

(** ** The progress of the units *)

Section Progress.
Import Route Observe.

(** The reported progress is the integer part of [60 i / n]. *)
Lemma progressBase_floor (i : nat) (n : Z) :
  (0 < n)%Z → progressBase i n = (25 + 60 * Z.of_nat i / n)%Z.
Proof.
  intros Hn. unfold progressBase. f_equal.
  destruct n as [| p | p]; try lia.
  unfold Qdiv, Qinv, Qmult, inject_Z, Qfloor. cbn [Qnum Qden Z.sgn].
  f_equal; [lia |]. cbn [Qnum Qden]. lia.
Qed.

Lemma progressBase_monotone (i j : nat) (n : Z) :
  (0 < n)%Z → (i ≤ j)%nat → (progressBase i n ≤ progressBase j n)%Z.
Proof.
  intros Hn Hij. rewrite !progressBase_floor by done.
  apply Z.add_le_mono_l, Z.div_le_mono; lia.
Qed.

Lemma progressBase_bounds (i : nat) (n : Z) :
  (Z.of_nat i < n)%Z → (25 ≤ progressBase i n < 85)%Z.
Proof.
  intros Hi. rewrite progressBase_floor by lia.
  assert (0 ≤ 60 * Z.of_nat i / n)%Z by (apply Z.div_pos; lia).
  assert (60 * Z.of_nat i / n < 60)%Z by (apply Z.div_lt_upper_bound; lia).
  lia.
Qed.

End Progress.

(** ** Segments of a trace *)

Section Segments.
Import Effect Observe Route.

Lemma Climbs_nil lo hi : (lo ≤ hi)%Z → Climbs lo hi [].
Proof. intros H. split_and!; [done | constructor | constructor]. Qed.

Lemma Climbs_one p : Climbs p p [p].
Proof.
  split_and!; [lia | repeat constructor | repeat constructor; lia].
Qed.

Lemma Climbs_app lo mid mid' hi l1 l2 :
  Climbs lo mid l1 → Climbs mid' hi l2 → (mid ≤ mid')%Z →
  Climbs lo hi (l1 ++ l2).
Proof.
  intros (H1 & S1 & B1) (H2 & S2 & B2) Hmid. split_and!.
  - lia.
  - apply StronglySorted_app_2; [| done | done].
    intros x1 x2 Hx1 Hx2. rewrite Forall_forall in B1, B2.
    specialize (B1 x1 Hx1). specialize (B2 x2 Hx2). lia.
  - rewrite Forall_app. split; (eapply Forall_impl; [eassumption |]); intros x Hx;
      simpl in *; lia.
Qed.

Lemma Climbs_weaken lo hi lo' hi' l :
  Climbs lo hi l → (lo' ≤ lo)%Z → (hi ≤ hi')%Z → Climbs lo' hi' l.
Proof.
  intros (H & S & B) Hlo Hhi. split_and!; [lia | done |].
  eapply Forall_impl; [eassumption |]. intros x Hx; simpl in *; lia.
Qed.

Lemma Segment_nil lo hi : (lo ≤ hi)%Z → Segment lo hi 0 [].
Proof.
  intros H. split_and!; [by apply Climbs_nil | done | apply not_elem_of_nil].
Qed.

Lemma Segment_status message p :
  Segment p p 0 [Enqueue (StatusEvent message p)].
Proof.
  split_and!; [apply Climbs_one | done |].
  rewrite list_elem_of_singleton. discriminate.
Qed.

Lemma Segment_error lo hi message :
  (lo ≤ hi)%Z → Segment lo hi 1 [Enqueue (ErrorEvent message)].
Proof.
  intros H. split_and!; [by apply Climbs_nil | done |].
  rewrite list_elem_of_singleton. discriminate.
Qed.

Lemma Segment_contentOnly lo hi t :
  (lo ≤ hi)%Z → contentOnly t → Segment lo hi 0 t.
Proof.
  intros H Ht. destruct (contentOnly_observed t Ht) as (Hs & Hterm & _ & _ & Hclose).
  split_and!; [rewrite Hs; by apply Climbs_nil | by rewrite Hterm | done].
Qed.

Lemma Segment_app lo mid mid' hi n1 n2 t1 t2 :
  Segment lo mid n1 t1 → Segment mid' hi n2 t2 → (mid ≤ mid')%Z →
  Segment lo hi (n1 + n2) (t1 ++ t2).
Proof.
  intros (C1 & T1 & X1) (C2 & T2 & X2) Hmid. split_and!.
  - unfold statuses. rewrite omap_app. by eapply Climbs_app.
  - unfold terminals. rewrite omap_app, length_app. unfold terminals in *. lia.
  - rewrite elem_of_app. tauto.
Qed.

Lemma Segment_weaken lo hi lo' hi' n t :
  Segment lo hi n t → (lo' ≤ lo)%Z → (hi ≤ hi')%Z → Segment lo' hi' n t.
Proof.
  intros (C & T & X) Hlo Hhi. split_and!; [by eapply Climbs_weaken | done | done].
Qed.

Lemma Segment_cons_status lo hi n t message p :
  Segment lo hi n t → (p ≤ lo)%Z →
  Segment p hi n (Enqueue (StatusEvent message p) :: t).
Proof.
  intros H Hp.
  apply (Segment_app p p lo hi 0 n [_] t); [apply Segment_status | done | done].
Qed.

End Segments.

(** ** Segments of the handler *)

Section HandlerSegments.
Import Effect Observe JS Route Shape.
Variable env : Env.
Variable world : World.

Lemma Segment_cons_call lo hi n t a :
  Segment lo hi n t →
  statusOf a = None → terminalOf a = None → a ≠ Close →
  Segment lo hi n (a :: t).
Proof.
  intros (C & T & X) Hs Ht Hc. unfold Segment, statuses, terminals in *.
  cbn [omap list_omap]. rewrite Hs, Ht.
  split_and!; [done | done |]. rewrite not_elem_of_cons. by split.
Qed.

Lemma progressBase_zero (n : Z) : progressBase 0 n = 25%Z.
Proof. unfold progressBase. by destruct n. Qed.

Lemma progressBase_le_85 (a : nat) (n : Z) :
  (a ≤ Z.to_nat n)%nat → (progressBase a n ≤ 85)%Z.
Proof.
  intros Ha. destruct (decide (0 < n)%Z) as [Hn | Hn].
  - rewrite progressBase_floor by done.
    assert (60 * Z.of_nat a / n ≤ 60)%Z; [| lia].
    apply Z.div_le_upper_bound; lia.
  - assert (a = 0%nat) as -> by lia. rewrite progressBase_zero. lia.
Qed.

Lemma units_segment config uploaded structuredPrompt specs (j : nat) : ∀ a : nat,
  (a + j ≤ Z.to_nat (variantCountOf config))%nat →
  Segment (progressBase a (variantCountOf config)) 85 0
    (flat_map (unitActions env config uploaded structuredPrompt specs) (seq a j)).
Proof.
  induction j as [| j IH]; intros a Ha.
  - apply Segment_nil, progressBase_le_85. lia.
  - cbn [seq flat_map]. unfold unitActions at 1. cbn [app].
    eapply Segment_cons_status.
    + apply Segment_cons_call; [apply (IH (S a)); lia | done ..].
    + apply progressBase_monotone; lia.
Qed.

Lemma trendStep_segment config :
  Segment 12 12 0 (trace (trendStep env world config)).
Proof.
  unfold trendStep. destruct (trendDescription config) as [description |];
    [| by apply Segment_nil].
  tidy. apply (Segment_cons_status 12); [| lia].
  apply (Segment_app 12 12 12 12 0 0).
  - apply Segment_contentOnly; [lia | apply generateCreativeTrend_contentOnly].
  - case_match; run; by apply Segment_nil.
  - lia.
Qed.

Lemma videoTrendStep_segment config :
  Segment 25 25 0 (trace (videoTrendStep env world config)).
Proof.
  unfold videoTrendStep. destruct (videoTrendDescription config) as [description |];
    [| by apply Segment_nil].
  tidy. apply (Segment_cons_status 25); [| lia].
  apply (Segment_app 25 25 25 25 0 0).
  - apply Segment_contentOnly; [lia | apply generateVideoCreativeTrend_contentOnly].
  - case_match; run; by apply Segment_nil.
  - lia.
Qed.

Lemma variationSpecsStep_segment config trend :
  Segment 22 22 0 (trace (variationSpecsStep env world config trend)).
Proof.
  unfold variationSpecsStep. destruct (factorsToVary config) as [factors |];
    [| by apply Segment_nil].
  tidy. apply (Segment_cons_status 22); [| lia].
  apply Segment_contentOnly; [lia | apply generateVariationSpecs_contentOnly].
Qed.

Lemma finishing_segment config : Segment 90 95 0 (finishing config).
Proof.
  unfold finishing. apply (Segment_cons_status 95); [| lia]. apply Segment_status.
Qed.

Lemma imageResultPayload_terminal config results event :
  imageResultPayload config results = Returned event →
  statusOf (Enqueue event) = None ∧ terminalOf (Enqueue event) = Some event.
Proof.
  unfold imageResultPayload. destruct results; [done |].
  intros [= <-]. done.
Qed.

Lemma imageBranch_segment config uploaded structuredPrompt trend :
  Segment 20 95 1 (trace (imageBranch env world config uploaded structuredPrompt trend)).
Proof.
  pose proof (imageBranch_run env world config uploaded structuredPrompt trend) as Hrun.
  pose proof (variationSpecsStep_segment config trend) as Hspecs.
  destruct (completion (variationSpecsStep env world config trend)) as [specs | e].
  - destruct Hrun as (j & tail & Hend & ->).
    apply (Segment_cons_status 22); [| lia].
    apply (Segment_app 22 22 22 95 0 1); [done | | lia].
    assert (Segment 85 95 1 tail) as Htail.
    { destruct Hend as [results event _ _ Hpay _ -> | message _ _ _ ->
                       | k message _ _ _ _ ->].
      - apply (Segment_app 85 95 95 95 0 1); [| | lia].
        + eapply Segment_weaken; [apply finishing_segment | lia | lia].
        + destruct (imageResultPayload_terminal _ _ _ Hpay) as [Hs Ht].
          split_and!.
          * unfold statuses. cbn [omap list_omap]. rewrite Hs. by apply Climbs_nil.
          * unfold terminals. cbn [omap list_omap]. by rewrite Ht.
          * rewrite list_elem_of_singleton. discriminate.
      - apply (Segment_app 85 95 95 95 0 1); [| | lia].
        + eapply Segment_weaken; [apply finishing_segment | lia | lia].
        + by apply Segment_error.
      - by apply Segment_error. }
    assert (j ≤ Z.to_nat (variantCountOf config))%nat as Hj.
    { destruct Hend; lia. }
    apply (Segment_app 22 85 85 95 0 1); [| done | lia].
    eapply Segment_weaken; [apply units_segment; simpl; lia | | lia].
    rewrite progressBase_zero. lia.
  - rewrite Hrun. apply (Segment_cons_status 22); [| lia].
    apply (Segment_app 22 22 22 95 0 1); [done | | lia].
    by apply Segment_error.
Qed.

End HandlerSegments.

(** ** The video branch and the handler *)

Section HandlerRuns.
Import Effect Observe JS Route Shape.
Variable env : Env.
Variable world : World.
Variable parseConfig : string → Completion GenerationConfig.t.

Lemma videoBranch_run config anchors :
  match completion (videoTrendStep env world config) with
  | Threw message =>
    completion (videoBranch env world config anchors) = Threw message ∧
    trace (videoBranch env world config anchors) =
      Enqueue (StatusEvent "Connecting to Veo 3.1..." 20) ::
      trace (videoTrendStep env world config)
  | Returned trend =>
    completion (videoBranch env world config anchors) = Returned tt ∧
    trace (videoBranch env world config anchors) =
      Enqueue (StatusEvent "Connecting to Veo 3.1..." 20) ::
      trace (videoTrendStep env world config) ++
      [ Enqueue (StatusEvent "Building structured video prompt..." 30);
        Enqueue (StatusEvent "Generating video loop (this may take a few minutes)..." 40);
        CallGenerateVideo (videoCall env config anchors trend) ] ++
      videoEnd config anchors (generateVideo world (videoCall env config anchors trend))
  end.
Proof.
  unfold videoBranch, callGenerateVideo. run.
  destruct (completion (videoTrendStep env world config)) as [trend | e].
  - run. fold (videoCall env config anchors trend).
    destruct (generateVideo world (videoCall env config anchors trend)) as [r | e];
      run; split; try done; tidy; reflexivity.
  - split; [done | by tidy].
Qed.

Lemma generate_run config entries :
  match completion (trendStep env world config) with
  | Threw message =>
    completion (generate env world config entries) = Threw message ∧
    trace (generate env world config entries) =
      Enqueue (StatusEvent "Initializing AI generation..." 5) ::
      Enqueue (StatusEvent ("Processing " +:+ pretty (fileCount entries) +:+
                            " uploaded file(s)...") 10) ::
      trace (trendStep env world config)
  | Returned trend =>
    completion (generate env world config entries) =
      completion (dispatch env world config entries trend) ∧
    trace (generate env world config entries) =
      Enqueue (StatusEvent "Initializing AI generation..." 5) ::
      Enqueue (StatusEvent ("Processing " +:+ pretty (fileCount entries) +:+
                            " uploaded file(s)...") 10) ::
      trace (trendStep env world config) ++
      Enqueue (StatusEvent "Applying structured prompt template..." 15) ::
      trace (dispatch env world config entries trend) ++
      match completion (dispatch env world config entries trend) with
      | Returned _ => [Enqueue (StatusEvent "Complete!" 100); Close]
      | Threw _ => []
      end
  end.
Proof.
  unfold generate. run.
  destruct (completion (trendStep env world config)) as [trend | e].
  - run. destruct (completion (dispatch env world config entries trend)) as [[] | e];
      run; split; try done; tidy; reflexivity.
  - split; [done | by tidy].
Qed.

Lemma POST_run request :
  POST env world parseConfig request =
    match formData request with
    | Threw message => [Enqueue (ErrorEvent message); Close]
    | Returned entries =>
      match configText entries with
      | None => [Enqueue (ErrorEvent "No configuration provided"); Close]
      | Some text =>
        match parseConfig text with
        | Threw message => [Enqueue (ErrorEvent message); Close]
        | Returned config =>
          trace (generate env world config entries) ++
          match completion (generate env world config entries) with
          | Returned _ => []
          | Threw message => [Enqueue (ErrorEvent message); Close]
          end
        end
      end
    end.
Proof.
  unfold POST, handle. run.
  destruct (formData request) as [entries | e]; [| by tidy].
  destruct (configText entries) as [text |]; [| by tidy].
  run. destruct (parseConfig text) as [config | e]; [| by tidy].
  destruct (completion (generate env world config entries)) as [[] | e]; by tidy.
Qed.

End HandlerRuns.

(** ** The shape of every stream *)

Section StreamShape.
Import Effect Observe JS Route GenerationConfig Shape.
Variable env : Env.
Variable world : World.
Variable parseConfig : string → Completion GenerationConfig.t.

Local Abbreviation reachesDispatch := (Shape.reachesDispatch env world parseConfig).

Lemma videoEnd_segment config anchors outcome :
  Segment 90 95 1 (videoEnd config anchors outcome).
Proof.
  destruct outcome as [r | e]; cbn [videoEnd].
  - apply (Segment_cons_status 95); [| lia].
    apply (Segment_cons_status 95); [| lia].
    split_and!; [by apply Climbs_nil | done |].
    rewrite list_elem_of_singleton. discriminate.
  - by apply Segment_error.
Qed.

Lemma videoBranch_segment config anchors :
  match completion (videoBranch env world config anchors) with
  | Returned _ => Segment 20 95 1 (trace (videoBranch env world config anchors))
  | Threw _ => Segment 20 25 0 (trace (videoBranch env world config anchors))
  end.
Proof.
  pose proof (videoBranch_run env world config anchors) as Hrun.
  pose proof (videoTrendStep_segment env world config) as Htrend.
  destruct (completion (videoTrendStep env world config)) as [trend | e];
    destruct Hrun as [-> ->].
  - apply (Segment_cons_status 25); [| lia].
    apply (Segment_app 25 25 30 95 0 1); [done | | lia]. cbn [app].
    apply (Segment_cons_status 40); [| lia].
    apply (Segment_cons_status 90); [| lia].
    apply Segment_cons_call; [apply videoEnd_segment | done ..].
  - by apply (Segment_cons_status 25); [| lia].
Qed.

Lemma dispatch_segment config entries trend :
  match completion (dispatch env world config entries trend) with
  | Returned _ => Segment 20 95 1 (trace (dispatch env world config entries trend))
  | Threw _ => Segment 20 25 0 (trace (dispatch env world config entries trend))
  end.
Proof.
  unfold dispatch. destruct (protocolType config).
  - rewrite imageBranch_completion. apply imageBranch_segment.
  - apply videoBranch_segment.
Qed.

Lemma dispatch_completion config entries trend :
  (∃ u, completion (dispatch env world config entries trend) = Returned u) ↔
  (protocolType config = VIDEO →
   ∃ vt, completion (videoTrendStep env world config) = Returned vt).
Proof.
  unfold dispatch. destruct (protocolType config).
  - rewrite imageBranch_completion. split; [done | eauto].
  - pose proof (videoBranch_run env world config (anchorImageBuffers entries)) as Hrun.
    destruct (completion (videoTrendStep env world config)) as [vt | e];
      destruct Hrun as [-> _].
    + split; eauto.
    + split; [intros [u Hu]; discriminate |].
      intros H. destruct (H eq_refl) as [vt Hvt]. discriminate.
Qed.

(** A stream ends in one of two ways. *)
Lemma POST_shape request :
  (reachesDispatch request ∧
   ∃ pre, POST env world parseConfig request = pre ++ complete ∧ Segment 5 95 1 pre) ∨
  (¬ reachesDispatch request ∧
   ∃ pre message,
     POST env world parseConfig request = pre ++ [Enqueue (ErrorEvent message); Close] ∧
     Segment 5 25 0 pre).
Proof.
  rewrite POST_run. unfold Shape.reachesDispatch.
  destruct (formData request) as [entries | e].
  2: { right. split; [intros (? & ? & ? & ? & _); discriminate |].
       exists [], e. split; [done | by apply Segment_nil]. }
  destruct (configText entries) as [text |] eqn:Hconfig.
  2: { right. split; [intros (? & ? & ? & ? & ? & _); simplify_eq |].
       eexists [], _. split; [done | by apply Segment_nil]. }
  destruct (parseConfig text) as [config | e] eqn:Hparse.
  2: { right. split; [intros (? & ? & ? & ? & ? & ? & _); simplify_eq; congruence |].
       exists [], e. split; [done | by apply Segment_nil]. }
  pose proof (generate_run env world config entries) as Hrun.
  pose proof (trendStep_segment env world config) as Htrend.
  destruct (completion (trendStep env world config)) as [trend | e] eqn:Hstep;
    destruct Hrun as [-> ->].
  - pose proof (dispatch_segment config entries trend) as Hseg.
    pose proof (dispatch_completion config entries trend) as Hcomp.
    destruct (completion (dispatch env world config entries trend)) as [[] | e].
    + left. split.
      * exists entries, text, config. split_and!; try done; [eauto |].
        apply Hcomp. eauto.
      * exists (Enqueue (StatusEvent "Initializing AI generation..." 5) ::
                 Enqueue (StatusEvent ("Processing " +:+ pretty (fileCount entries) +:+
                                       " uploaded file(s)...") 10) ::
                 trace (trendStep env world config) ++
                 Enqueue (StatusEvent "Applying structured prompt template..." 15) ::
                 trace (dispatch env world config entries trend)). split.
        -- unfold complete. flatten. reflexivity.
        -- apply (Segment_cons_status 10); [| lia].
           apply (Segment_cons_status 12); [| lia].
           apply (Segment_app 12 12 15 95 0 1); [done | | lia].
           by apply (Segment_cons_status 20); [| lia].
    + right. split.
      * intros (entries' & text' & config' & ? & ? & ? & _ & Hvideo).
        assert (config' = config) as -> by (simplify_eq; congruence).
        destruct Hcomp as [_ Hcomp]. destruct (Hcomp Hvideo) as [u Hu]. discriminate.
      * exists (Enqueue (StatusEvent "Initializing AI generation..." 5) ::
                 Enqueue (StatusEvent ("Processing " +:+ pretty (fileCount entries) +:+
                                       " uploaded file(s)...") 10) ::
                 trace (trendStep env world config) ++
                 Enqueue (StatusEvent "Applying structured prompt template..." 15) ::
                 trace (dispatch env world config entries trend)), e. split.
        -- flatten. reflexivity.
        -- apply (Segment_cons_status 10); [| lia].
           apply (Segment_cons_status 12); [| lia].
           apply (Segment_app 12 12 15 25 0 0); [done | | lia].
           by apply (Segment_cons_status 20); [| lia].
  - right. split.
    + intros (entries' & text' & config' & ? & ? & ? & [trend Htr] & _).
      assert (config' = config) as -> by (simplify_eq; congruence). congruence.
    + eexists _, e. split; [reflexivity |].
      apply (Segment_cons_status 10); [| lia].
      apply (Segment_cons_status 12); [| lia].
      eapply Segment_weaken; [eassumption | lia | lia].
Qed.

End StreamShape.

(** ** The calls and the terminal events of a stream *)

Section StreamCalls.
Import Effect Observe JS Route GenerationConfig Shape.
Variable env : Env.
Variable world : World.
Variable parseConfig : string → Completion GenerationConfig.t.

Lemma callFree_nil : callFree [].
Proof. done. Qed.

Lemma callFree_app t1 t2 : callFree t1 → callFree t2 → callFree (t1 ++ t2).
Proof.
  intros (I1 & V1 & T1) (I2 & V2 & T2).
  unfold callFree, imageCalls, videoCalls, terminals in *.
  rewrite !omap_app, I1, V1, T1, I2, V2, T2. done.
Qed.

Lemma callFree_status message p t :
  callFree t → callFree (Enqueue (StatusEvent message p) :: t).
Proof. intros H. apply (callFree_app [_] t); done. Qed.

Lemma callFree_contentOnly t : contentOnly t → callFree t.
Proof. intros H. destruct (contentOnly_observed t H) as (_ & ? & ? & ? & _). done. Qed.

Lemma trendStep_callFree config : callFree (trace (trendStep env world config)).
Proof.
  unfold trendStep. destruct (trendDescription config); [| done].
  tidy. apply callFree_status, callFree_app.
  - apply callFree_contentOnly, generateCreativeTrend_contentOnly.
  - case_match; by run.
Qed.

Lemma videoTrendStep_callFree config : callFree (trace (videoTrendStep env world config)).
Proof.
  unfold videoTrendStep. destruct (videoTrendDescription config); [| done].
  tidy. apply callFree_status, callFree_app.
  - apply callFree_contentOnly, generateVideoCreativeTrend_contentOnly.
  - case_match; by run.
Qed.

Lemma variationSpecsStep_callFree config trend :
  callFree (trace (variationSpecsStep env world config trend)).
Proof.
  unfold variationSpecsStep. destruct (factorsToVary config); [| done].
  tidy. apply callFree_status, callFree_contentOnly, generateVariationSpecs_contentOnly.
Qed.

Lemma units_observed config uploaded prompt specs (j : nat) : ∀ a : nat,
  let t := flat_map (unitActions env config uploaded prompt specs) (seq a j) in
  imageCalls t = map (unitParams env config uploaded prompt specs) (seq a j) ∧
  videoCalls t = [] ∧ terminals t = [].
Proof.
  induction j as [| j IH]; intros a; [done |].
  destruct (IH (S a)) as (Hi & Hv & Ht).
  cbn [seq flat_map map]. unfold imageCalls, videoCalls, terminals in *.
  rewrite !omap_app, Hi, Hv, Ht. done.
Qed.

Lemma observed_app t1 t2 :
  imageCalls (t1 ++ t2) = imageCalls t1 ++ imageCalls t2 ∧
  videoCalls (t1 ++ t2) = videoCalls t1 ++ videoCalls t2 ∧
  terminals (t1 ++ t2) = terminals t1 ++ terminals t2.
Proof. unfold imageCalls, videoCalls, terminals. by rewrite !omap_app. Qed.

Lemma callFree_before t1 t2 :
  callFree t1 →
  imageCalls (t1 ++ t2) = imageCalls t2 ∧
  videoCalls (t1 ++ t2) = videoCalls t2 ∧
  terminals (t1 ++ t2) = terminals t2.
Proof.
  intros (Hi & Hv & Ht). destruct (observed_app t1 t2) as (-> & -> & ->).
  by rewrite Hi, Hv, Ht.
Qed.

Lemma callFree_after t1 t2 :
  callFree t2 →
  imageCalls (t1 ++ t2) = imageCalls t1 ∧
  videoCalls (t1 ++ t2) = videoCalls t1 ∧
  terminals (t1 ++ t2) = terminals t1.
Proof.
  intros (Hi & Hv & Ht). destruct (observed_app t1 t2) as (-> & -> & ->).
  by rewrite Hi, Hv, Ht, !app_nil_r.
Qed.

End StreamCalls.

Section GenerationCalls.
Import Effect Observe JS Route GenerationConfig Shape.
Variable env : Env.
Variable world : World.
Variable parseConfig : string → Completion GenerationConfig.t.

Local Abbreviation Calls := (Shape.Calls env world parseConfig).

Lemma Calls_ext request t t' :
  imageCalls t = imageCalls t' → videoCalls t = videoCalls t' →
  terminals t = terminals t' →
  Calls request t' → Calls request t.
Proof.
  intros Hi Hv Ht [message | config uploaded prompt specs j tail | entries text config trend].
  - intros. apply (WithoutCall _ _ _ _ _ message); congruence.
  - intros. apply (ImageCalls _ _ _ _ _ config uploaded prompt specs j tail);
      [done | congruence ..].
  - intros. apply (VideoCall _ _ _ _ _ entries text config trend);
      [done | done | done | congruence ..].
Qed.

Lemma Calls_before request before t :
  callFree before → Calls request t → Calls request (before ++ t).
Proof.
  intros Hb. destruct (callFree_before before t Hb) as (Hi & Hv & Ht).
  by apply Calls_ext.
Qed.

Lemma Calls_after request t after :
  callFree after → Calls request t → Calls request (t ++ after).
Proof.
  intros Ha. destruct (callFree_after t after Ha) as (Hi & Hv & Ht).
  by apply Calls_ext.
Qed.

Lemma Calls_status request message p t :
  Calls request t → Calls request (Enqueue (StatusEvent message p) :: t).
Proof. apply (Calls_before request [_] t). done. Qed.

Lemma Calls_error request message :
  Calls request [Enqueue (ErrorEvent message); Close].
Proof. by apply (WithoutCall _ _ _ _ _ message). Qed.

Lemma imageBranch_Calls request config uploaded prompt trend :
  Calls request (trace (imageBranch env world config uploaded prompt trend)).
Proof.
  pose proof (imageBranch_run env world config uploaded prompt trend) as Hrun.
  pose proof (variationSpecsStep_callFree env world config trend) as Hfree.
  destruct (completion (variationSpecsStep env world config trend)) as [specs | e].
  - destruct Hrun as (j & tail & Hend & ->).
    apply Calls_status, Calls_before; [done |].
    destruct (units_observed env config uploaded prompt specs j 0) as (Hi & Hv & Ht).
    assert (imageCalls tail = [] ∧ videoCalls tail = []) as [Hti Htv].
    { destruct Hend as [results event _ _ Hpay _ -> | message _ _ _ ->
                       | k message _ _ _ _ ->]; [| done | done].
      unfold imageResultPayload in Hpay. destruct results; [done |].
      by injection Hpay as <-. }
    destruct (observed_app
                (flat_map (unitActions env config uploaded prompt specs) (seq 0 j)) tail)
      as (Hai & Hav & Hat).
    apply (ImageCalls _ _ _ _ _ config uploaded prompt specs j tail); [exact Hend | | |].
    + by rewrite Hai, Hi, Hti, app_nil_r.
    + by rewrite Hav, Hv, Htv.
    + by rewrite Hat, Ht.
  - rewrite Hrun. apply Calls_status, Calls_before; [done |].
    by apply (WithoutCall _ _ _ _ _ e).
Qed.

Lemma POST_Calls request : Calls request (POST env world parseConfig request).
Proof.
  rewrite POST_run.
  destruct (formData request) as [entries | e] eqn:Hform; [| apply Calls_error].
  destruct (configText entries) as [text |] eqn:Hconfig; [| apply Calls_error].
  destruct (parseConfig text) as [config | e] eqn:Hparse; [| apply Calls_error].
  pose proof (generate_run env world config entries) as Hrun.
  pose proof (trendStep_callFree env world config) as Htrend.
  destruct (completion (trendStep env world config)) as [trend | e];
    destruct Hrun as [-> ->].
  - cbn [app]. do 2 apply Calls_status. rewrite <- app_assoc.
    apply Calls_before; [done |]. cbn [app]. apply Calls_status.
    unfold dispatch. destruct (protocolType config).
    + rewrite imageBranch_completion, <- app_assoc.
      apply Calls_after; [| apply imageBranch_Calls].
      by apply callFree_app.
    + pose proof (videoBranch_run env world config (anchorImageBuffers entries)) as Hvideo.
      pose proof (videoTrendStep_callFree env world config) as Hvt.
      destruct (completion (videoTrendStep env world config)) as [vt | e];
        destruct Hvideo as [-> ->].
      * rewrite <- app_assoc. apply Calls_after; [by apply callFree_app |].
        apply Calls_status, Calls_before; [done |]. cbn [app].
        do 2 apply Calls_status.
        apply (VideoCall _ _ _ _ _ entries text config vt); try done;
          by destruct (generateVideo world _).
      * cbn [app]. apply Calls_status. rewrite <- app_assoc.
        apply Calls_before; [done |]. apply Calls_error.
  - cbn [app]. do 2 apply Calls_status. apply Calls_before; [done |]. apply Calls_error.
Qed.

End GenerationCalls.

(** ** One terminal event for every request *)

Section TerminalEvent.
Import Effect Observe JS Route GenerationConfig Shape.
Variable env : Env.
Variable world : World.
Variable parseConfig : string → Completion GenerationConfig.t.

Lemma imageResultPayload_result config results event :
  imageResultPayload config results = Returned event →
  ∃ result metadata, event = ImageResultEvent result metadata.
Proof.
  unfold imageResultPayload. destruct results; [done |].
  intros [= <-]. eauto.
Qed.

Lemma finishing_terminals config event :
  terminals (finishing config ++ [Enqueue event]) = terminals [Enqueue event].
Proof. done. Qed.


End TerminalEvent.

(** ** Progress *)

Section ProgressValues.
Import Effect Observe JS Route GenerationConfig Shape.
Variable env : Env.
Variable world : World.
Variable parseConfig : string → Completion GenerationConfig.t.


End ProgressValues.

(** ** A failed trend expansion *)

Section TrendFailure.
Import Effect Observe JS Route GenerationConfig Shape.
Variable env : Env.
Variable world : World.
Variable parseConfig : string → Completion GenerationConfig.t.

Lemma contentOnly_no_generation t :
  contentOnly t → Forall (λ a, isGenerationCall a = false) t.
Proof.
  intros H. eapply Forall_impl; [exact H |]. by intros a [request ->].
Qed.

(** C4, amended. When the trend is to be generated from a description
    and the expansion throws, the request is aborted: after the status
    events 5, 10 and 12 and the request to the text model, the stream
    carries one error event with the message of the failure and is
    closed; no prompt is sent to a generator. The message is the fixed
    one of the expansion, or the one of the missing API key. *)
Theorem trend_failure_aborts_request (request : NextRequest)
    (entries : list (string * FormValue)) (text : string)
    (config : GenerationConfig.t) (description message : string) :
  formData request = Returned entries →
  configText entries = Some text →
  parseConfig text = Returned config →
  trendDescription config = Some description →
  completion (TextModel.generateCreativeTrendFromDescription env world description)
    = Threw message →
  POST env world parseConfig request =
    [ Enqueue (StatusEvent "Initializing AI generation..." 5);
      Enqueue (StatusEvent ("Processing " +:+ pretty (fileCount entries) +:+
                            " uploaded file(s)...") 10);
      Enqueue (StatusEvent "AI generating creative trend from your description..." 12) ] ++
    trace (TextModel.generateCreativeTrendFromDescription env world description) ++
    [ Enqueue (ErrorEvent message); Close ] ∧
  Forall (λ a, isGenerationCall a = false) (POST env world parseConfig request) ∧
  (message = "Failed to generate creative trend from description" ∨
   TextModel.getClient env = Threw message).
Proof.
  intros Hform Hconfig Hparse Hdesc Hthrew.
  assert (trace (trendStep env world config) =
            Enqueue (StatusEvent "AI generating creative trend from your description..." 12)
            :: trace (TextModel.generateCreativeTrendFromDescription env world description)
          ∧ completion (trendStep env world config) = Threw message) as [Htrace Hcompl].
  { unfold trendStep. rewrite Hdesc. run. rewrite Hthrew. split; [by flatten | done]. }
  assert (POST env world parseConfig request =
    [ Enqueue (StatusEvent "Initializing AI generation..." 5);
      Enqueue (StatusEvent ("Processing " +:+ pretty (fileCount entries) +:+
                            " uploaded file(s)...") 10);
      Enqueue (StatusEvent "AI generating creative trend from your description..." 12) ] ++
    trace (TextModel.generateCreativeTrendFromDescription env world description) ++
    [ Enqueue (ErrorEvent message); Close ]) as Hpost.
  { rewrite POST_run, Hform, Hconfig, Hparse.
    pose proof (generate_run env world config entries) as Hrun.
    rewrite Hcompl in Hrun. destruct Hrun as [-> ->]. rewrite Htrace. reflexivity. }
  split_and!.
  - exact Hpost.
  - rewrite Hpost. rewrite !Forall_app. split_and!.
    + by repeat constructor.
    + apply contentOnly_no_generation, generateCreativeTrend_contentOnly.
    + by repeat constructor.
  - rewrite generateCreativeTrend_completion in Hthrew.
    destruct (TextModel.getClient env) as [key | e]; [| right; congruence].
    destruct (generateContent world _); [left; congruence | discriminate].
Qed.

End TrendFailure.

(** ** Preset identifiers *)

Section PresetIdentifiers.
Import JS Prompt.

(** An identifier that the catalog does not hold and that names no
    inherited member adds no section. *)
Lemma unknown_preset_omitted (catalog : gmap string Preset) (id : string)
    (custom : option string) :
  catalog !! id = None → id ∉ Object_prototype_keys →
  creativeTrendSection catalog
    (Some {| CreativeTrend.type := preset; CreativeTrend.presetId := Some id;
             CreativeTrend.customPrompt := custom |}) = [].
Proof.
  intros Hnone Hown. unfold creativeTrendSection, js_get.
  cbn [CreativeTrend.type CreativeTrend.presetId].
  rewrite Hnone, bool_decide_false by done. by destruct (truthy id).
Qed.

Lemma inherited_preset_section (catalog : gmap string Preset) :
  catalog !! "constructor" = None →
  creativeTrendSection catalog
    (Some {| CreativeTrend.type := preset; CreativeTrend.presetId := Some "constructor";
             CreativeTrend.customPrompt := None |}) =
    [TREND_HEADER +:+ nl +:+ "undefined"].
Proof.
  intros Hnone. unfold creativeTrendSection, js_get.
  cbn [CreativeTrend.type CreativeTrend.presetId truthy]. rewrite Hnone.
  rewrite bool_decide_true; [done |]. unfold Object_prototype_keys. constructor.
Qed.

(** Both builders add the section for [constructor] whenever the
    catalogs do not hold that identifier. *)
Lemma inherited_member_adds_section (env : Env)
    (image : StructuredPromptParams.t) (video : VideoPromptParams.t) :
  CREATIVE_TREND_PRESETS env !! "constructor" = None →
  VIDEO_CREATIVE_TREND_PRESETS env !! "constructor" = None →
  StructuredPromptParams.creativeTrend image =
    Some {| CreativeTrend.type := preset; CreativeTrend.presetId := Some "constructor";
            CreativeTrend.customPrompt := None |} →
  VideoPromptParams.creativeTrend video =
    Some {| CreativeTrend.type := preset; CreativeTrend.presetId := Some "constructor";
            CreativeTrend.customPrompt := None |} →
  (TREND_HEADER +:+ nl +:+ "undefined") ∈ imageSections env image ∧
  (TREND_HEADER +:+ nl +:+ "undefined") ∈ videoSections env video.
Proof.
  intros Himage Hvideo Hi Hv. unfold imageSections, videoSections.
  rewrite Hi, Hv, !inherited_preset_section by done.
  split; apply elem_of_app; right; apply elem_of_app; left;
    by apply list_elem_of_singleton.
Qed.

(** C8. The identifier [constructor] is in neither sample catalog, yet
    both builders add a creative-trend section for it, whose text is
    [undefined]: the catalog object inherits a member of that name. *)
Theorem inherited_member_read_as_preset :
  CREATIVE_TREND_PRESETS Sample.env !! "constructor" = None ∧
  VIDEO_CREATIVE_TREND_PRESETS Sample.env !! "constructor" = None ∧
  (TREND_HEADER +:+ nl +:+ "undefined") ∈ imageSections Sample.env Sample.inheritedImage ∧
  (TREND_HEADER +:+ nl +:+ "undefined") ∈ videoSections Sample.env Sample.inheritedVideo.
Proof.
  assert (CREATIVE_TREND_PRESETS Sample.env !! "constructor" = None) as Himage
    by (vm_compute; reflexivity).
  assert (VIDEO_CREATIVE_TREND_PRESETS Sample.env !! "constructor" = None) as Hvideo
    by (vm_compute; reflexivity).
  split_and!; [done | done | |];
    by apply (inherited_member_adds_section Sample.env Sample.inheritedImage
                Sample.inheritedVideo).
Qed.

End PresetIdentifiers.

(** ** The request of the video wrapper *)

Section VendorRequest.
Import VideoClient.

(** C10. The request that [generateVideo] issues is the same for two
    calls that differ in their duration only, and with anchor images
    its image is the first of the at most three that are kept. *)
Theorem vendor_request_ignores_duration (env : Env) :
  (∀ p1 p2 : VideoGenerationParams.t,
     VideoGenerationParams.prompt p1 = VideoGenerationParams.prompt p2 →
     VideoGenerationParams.anchorImages p1 = VideoGenerationParams.anchorImages p2 →
     VideoGenerationParams.aspectRatio p1 = VideoGenerationParams.aspectRatio p2 →
     generateVideosRequest env p1 = generateVideosRequest env p2 ∧
     issuedRequest env p1 = issuedRequest env p2) ∧
  (∀ (p : VideoGenerationParams.t) (first : Buffer) (others : list Buffer),
     VideoGenerationParams.anchorImages p = Some (first :: others) →
     (length (referenceImages env (first :: others)) ≤ 3)%nat ∧
     GenerateVideosRequest.image (generateVideosRequest env p) =
       referenceImages env (first :: others) !! 0%nat ∧
     GenerateVideosRequest.image (generateVideosRequest env p) =
       Some {| VendorImage.imageBytes := base64 env first;
               VendorImage.mimeType := "image/png" |}).
Proof.
  split.
  - intros [prompt1 anchors1 duration1 ratio1] [prompt2 anchors2 duration2 ratio2].
    cbn. intros -> -> ->. unfold issuedRequest, generateVideosRequest. cbn. done.
  - intros p first others Hanchors. unfold generateVideosRequest. rewrite Hanchors.
    split_and!; [| done | done].
    unfold referenceImages. rewrite length_map, length_take. lia.
Qed.

End VendorRequest.

(** ** The duration of a video *)

Section DurationLock.
Import Effect Observe JS Route GenerationConfig Prompt Shape.
Variable env : Env.
Variable world : World.
Variable parseConfig : string → Completion GenerationConfig.t.

Lemma hasReferenceImages_videoPromptParams config anchors trend :
  hasReferenceImages (videoPromptParams config anchors trend) =
    bool_decide (0 < length anchors)%nat.
Proof.
  unfold hasReferenceImages, videoPromptParams, videoReferenceImages.
  cbn [VideoPromptParams.referenceImages]. by rewrite length_imap.
Qed.

Lemma effectiveDuration_videoPromptParams config anchors trend :
  effectiveDuration (videoPromptParams config anchors trend) =
    requestDuration (bool_decide (0 < length anchors)%nat) config.
Proof.
  unfold effectiveDuration. rewrite hasReferenceImages_videoPromptParams.
  unfold videoPromptParams. cbn [VideoPromptParams.duration].
  by destruct (bool_decide (0 < length anchors)%nat).
Qed.

Lemma palette_occurs params :
  occurs_in ("throughout the entire " +:+ effectiveDuration params +:+ " video sequence")
    (buildVideoStructuredPrompt env params).
Proof.
  eapply occurs_in_trans; [| apply (occurs_in_join _ (videoPaletteSection params))].
  - unfold videoPaletteSection, paletteGuidance.
    do 9 apply occurs_in_app_r.
    exists "Apply these colors consistently ". eexists.
    rewrite !append_associative. reflexivity.
  - unfold videoSections. rewrite !elem_of_app, !list_elem_of_singleton. tauto.
Qed.

Lemma duration_line_occurs params :
  occurs_in (durationNote params) (buildVideoStructuredPrompt env params).
Proof.
  eapply occurs_in_trans; [| apply (occurs_in_join _ (videoSpecSection env params))].
  - unfold videoSpecSection. do 6 apply occurs_in_app_r.
    apply occurs_in_app_l, occurs_in_refl.
  - unfold videoSections. rewrite !elem_of_app, !list_elem_of_singleton. tauto.
Qed.

Lemma notice_occurs params :
  hasReferenceImages params = true →
  occurs_in REFERENCE_NOTICE (buildVideoStructuredPrompt env params).
Proof.
  intros Hhas.
  eapply occurs_in_trans;
    [| apply (occurs_in_join _ (REFERENCE_HEADER +:+ nl +:+ imageDescriptions params +:+
                                REFERENCE_NOTICE))].
  - do 3 apply occurs_in_app_r. apply occurs_in_refl.
  - unfold videoSections, referenceSection. rewrite Hhas.
    rewrite !elem_of_app, !list_elem_of_singleton. tauto.
Qed.

(** C1. Every call of the video generator carries the duration "8s"
    when anchor images were uploaded and otherwise the requested
    duration, "6s" by default; the prompt of the call is built for that
    same duration, which its palette section and its duration line
    state, and with anchor images the duration line and the notice of
    the reference section say eight seconds. *)
Theorem video_duration_is_locked (request : NextRequest)
    (params : VideoGenerationParams.t) :
  params ∈ videoCalls (POST env world parseConfig request) →
  ∃ entries text config trend,
    formData request = Returned entries ∧
    configText entries = Some text ∧
    parseConfig text = Returned config ∧
    let anchors := anchorImageBuffers entries in
    let promptParams := videoPromptParams config anchors trend in
    let d := if bool_decide (0 < length anchors)%nat then "8s"
             else js_or (videoLength config) "6s" in
    VideoGenerationParams.duration params = Some d ∧
    VideoGenerationParams.prompt params = buildVideoStructuredPrompt env promptParams ∧
    effectiveDuration promptParams = d ∧
    occurs_in ("throughout the entire " +:+ d +:+ " video sequence")
      (VideoGenerationParams.prompt params) ∧
    (anchors = [] →
       VideoGenerationParams.anchorImages params = None ∧
       occurs_in ("Duration: " +:+ d) (VideoGenerationParams.prompt params)) ∧
    (anchors ≠ [] →
       d = "8s" ∧
       VideoGenerationParams.anchorImages params = Some anchors ∧
       occurs_in "Duration: 8 seconds (reference image constraint with Google Veo 3.1)"
         (VideoGenerationParams.prompt params) ∧
       occurs_in REFERENCE_NOTICE (VideoGenerationParams.prompt params)).
Proof.
  intros Hin.
  destruct (POST_Calls env world parseConfig request)
    as [message _ Hv _ | config uploaded prompt specs j tail _ _ Hv _
       | entries text config trend Hform Hconfig Hparse _ Hv _];
    rewrite Hv in Hin; try by apply elem_of_nil in Hin.
  apply list_elem_of_singleton in Hin as ->.
  exists entries, text, config, trend. split_and!; try done.
  intros anchors promptParams d.
  pose proof (effectiveDuration_videoPromptParams config anchors trend) as Hd.
  pose proof (hasReferenceImages_videoPromptParams config anchors trend) as Hhas.
  fold promptParams in Hd, Hhas. change (requestDuration _ config) with d in Hd.
  unfold videoCall, videoParams.
  cbn [VideoGenerationParams.duration VideoGenerationParams.prompt
       VideoGenerationParams.anchorImages].
  fold anchors. fold promptParams.
  split_and!.
  - reflexivity.
  - reflexivity.
  - exact Hd.
  - rewrite <- Hd. apply palette_occurs.
  - intros Hnone. split; [by rewrite Hnone |].
    pose proof (duration_line_occurs promptParams) as Hline.
    unfold durationNote in Hline. rewrite Hhas, Hnone in Hline.
    by rewrite <- Hd.
  - intros Hsome.
    assert (bool_decide (0 < length anchors)%nat = true) as Htrue.
    { apply bool_decide_eq_true. destruct anchors; [done | simpl; lia]. }
    split_and!.
    + unfold d. by rewrite Htrue.
    + by rewrite Htrue.
    + pose proof (duration_line_occurs promptParams) as Hline.
      unfold durationNote in Hline. by rewrite Hhas, Htrue in Hline.
    + apply notice_occurs. by rewrite Hhas.
Qed.

End DurationLock.

(** ** The properties on sample requests *)

Section Samples.
Import Effect Observe JS Route GenerationConfig Prompt Shape Vary.

Lemma video_duration_is_locked_witness :
  videoCall Sample.env Sample.anchoredVideo [Sample.png; Sample.png] None
    ∈ videoCalls (POST Sample.env Sample.textModelDown Sample.parseConfig
                    Sample.anchoredVideoRequest) ∧
  VideoGenerationParams.duration
    (videoCall Sample.env Sample.anchoredVideo [Sample.png; Sample.png] None) = Some "8s" ∧
  ∃ entries, formData Sample.anchoredVideoRequest = Returned entries.
Proof.
  assert (videoCall Sample.env Sample.anchoredVideo [Sample.png; Sample.png] None
            ∈ videoCalls (POST Sample.env Sample.textModelDown Sample.parseConfig
                            Sample.anchoredVideoRequest)) as Hcall.
  { vm_compute. left. }
  split; [exact Hcall |]. split; [reflexivity |].
  destruct (video_duration_is_locked Sample.env Sample.textModelDown Sample.parseConfig
              Sample.anchoredVideoRequest _ Hcall) as (entries & _ & _ & _ & Hform & _).
  exists entries. exact Hform.
Defined.


(** C4, as stated, fails: the text model is down, the trend was to be
    expanded from a description, and the stream ends with an error
    event without any call of a generator. *)
Lemma trend_failure_reaches_no_generator :
  trendDescription Sample.describedTrend = Some "neon glow" ∧
  Enqueue (ErrorEvent "Failed to generate creative trend from description")
    ∈ POST Sample.env Sample.textModelDown Sample.parseConfig
        Sample.describedTrendRequest ∧
  ¬ ∃ a, a ∈ POST Sample.env Sample.textModelDown Sample.parseConfig
               Sample.describedTrendRequest ∧
         isGenerationCall a = true.
Proof.
  split; [reflexivity |]. split.
  - vm_compute. do 4 right. left.
  - intros (a & Hin & Hcall). vm_compute in Hin.
    repeat (apply elem_of_cons in Hin as [-> | Hin]; [discriminate Hcall |]).
    by apply elem_of_nil in Hin.
Defined.

Lemma trend_failure_aborts_request_witness :
  Forall (λ a, isGenerationCall a = false)
    (POST Sample.env Sample.textModelDown Sample.parseConfig Sample.describedTrendRequest).
Proof.
  eapply (proj1 (proj2
            (trend_failure_aborts_request Sample.env Sample.textModelDown
               Sample.parseConfig Sample.describedTrendRequest
               _ Sample.describedTrendText Sample.describedTrend "neon glow"
               "Failed to generate creative trend from description"
               eq_refl _ _ _ _))).
  Unshelve. all: reflexivity.
Defined.



Lemma vendor_request_ignores_duration_witness :
  VideoClient.generateVideosRequest Sample.env (Sample.clipOf "4s") =
    VideoClient.generateVideosRequest Sample.env (Sample.clipOf "8s") ∧
  VideoClient.GenerateVideosRequest.image
    (VideoClient.generateVideosRequest Sample.env (Sample.clipOf "4s")) =
    Some {| VideoClient.VendorImage.imageBytes := "AA==";
            VideoClient.VendorImage.mimeType := "image/png" |}.
Proof.
  split.
  - apply (proj1 (vendor_request_ignores_duration Sample.env)); reflexivity.
  - apply (proj2 (vendor_request_ignores_duration Sample.env)
             (Sample.clipOf "4s") Sample.png [Sample.png; Sample.png; Sample.png]).
    reflexivity.
Defined.

End Samples.

(** ** Header texts inside the brand guidelines *)

Section AdverseTexts.
Import Prompt JS Vary Scan Copied StructuredPromptParams.

(** C7, as stated, fails: a request without moodboard image and
    without interaction text whose brand guidelines carry the separator
    and the two headers gets a prompt in which both headers stand at
    the start of a section. *)
Lemma header_in_brand_text_reaches_prompt :
  moodboardImageCount Adverse.headersInBrand = 0%nat ∧
  referenceImageInteraction Adverse.headersInBrand = None ∧
  occurs_in (separator +:+ MOODBOARD_HEADER +:+ nl)
    (buildStructuredPrompt Sample.env Adverse.headersInBrand) ∧
  occurs_in (separator +:+ INTERACTION_HEADER +:+ nl)
    (buildStructuredPrompt Sample.env Adverse.headersInBrand).
Proof.
  split_and!; [reflexivity | reflexivity | |].
  - exists ("BRAND GUIDELINES:" +:+ nl +:+ "Minimal."),
           (TextModel.drop
              (String.length ("BRAND GUIDELINES:" +:+ nl +:+ "Minimal." +:+
                              separator +:+ MOODBOARD_HEADER +:+ nl))
              (buildStructuredPrompt Sample.env Adverse.headersInBrand)).
    vm_compute. reflexivity.
  - exists ("BRAND GUIDELINES:" +:+ nl +:+ "Minimal." +:+ separator +:+
            MOODBOARD_HEADER +:+ nl +:+ "Copy the style of the attachment."),
           (TextModel.drop
              (String.length ("BRAND GUIDELINES:" +:+ nl +:+ "Minimal." +:+ separator +:+
                              MOODBOARD_HEADER +:+ nl +:+
                              "Copy the style of the attachment." +:+
                              separator +:+ INTERACTION_HEADER +:+ nl))
              (buildStructuredPrompt Sample.env Adverse.headersInBrand)).
    vm_compute. reflexivity.
Defined.

Lemma optional_sections_follow_their_inputs_witness :
  ¬ occurs_in MOODBOARD_HEADER (buildStructuredPrompt Sample.env Sample.brandOnly) ∧
  ¬ occurs_in INTERACTION_HEADER (buildStructuredPrompt Sample.env Sample.brandOnly) ∧
  (∃ before after,
     buildStructuredPrompt Sample.env (withMoodboard 2 Sample.brandOnly) =
       before +:+ separator +:+
       ("LOOK & FEEL REFERENCE (MOODBOARD):
Draw inspiration from the visual style shown in [image 2], [image 3]. These images establish the desired mood, lighting quality, composition approach, and aesthetic treatment. Emulate the color grading, atmospheric qualities, texturing methods, and overall visual language present in these references while adapting them to the creative concept.") +:+
       separator +:+ after ∧
     buildStructuredPrompt Sample.env Sample.brandOnly = before +:+ separator +:+ after) ∧
  buildStructuredPrompt Sample.env
    (withInteraction (Some "Place the bottle on the table.") Sample.severalReferences) =
    ("REFERENCE IMAGES INTERACTION:
Place the bottle on the table.

Composition Requirements:
- Ensure seamless integration between referenced elements
- Match lighting, perspective, and scale across combined elements
- Blend edges naturally to avoid obvious compositing
- Maintain consistent depth of field and atmospheric perspective
- Preserve the quality and detail of key elements from each referenced image") +:+
    separator +:+ buildStructuredPrompt Sample.env Sample.severalReferences ∧
  buildStructuredPrompt Sample.env Sample.brandOnly =
    "BRAND GUIDELINES:
Minimal, Scandinavian.

---

COLOR PALETTE:
Primary Color: #25F4EE
Secondary Color: #FE2C55

Use these colors as the dominant color scheme throughout the composition. The primary color should be the most prominent, with secondary color as supporting accent.

---

IMAGE SPECIFICATIONS:
Generate image in 9:16 aspect ratio." +:+ nl +:+
    "Optimize for vertical mobile viewing with focal point in upper-middle third".
Proof.
  destruct (optional_sections_follow_their_inputs Sample.env)
    as (Hmood & Hinter & Hadd & Hwith & Hthree).
  assert (∀ h, closed h "Minimal, Scandinavian." = true → closed h "#25F4EE" = true →
               closed h "#FE2C55" = true → closed h "9:16" = true →
               closed h "Optimize for vertical mobile viewing with focal point in upper-middle third" = true →
               h ≠ EmptyString → free h Sample.env Sample.brandOnly) as Hfree.
  { intros h H1 H2 H3 H4 H5 Hh. unfold free.
    change (copiedTexts Sample.env Sample.brandOnly) with
      [ "Minimal, Scandinavian."; "#25F4EE"; "#FE2C55"; "9:16";
        "Optimize for vertical mobile viewing with focal point in upper-middle third" ].
    repeat (apply Forall_cons; split; [by apply closed_absent |]). apply Forall_nil_2. }
  split_and!.
  - apply Hmood; [reflexivity |]. by apply Hfree.
  - apply Hinter; [by left |]. by apply Hfree.
  - destruct (Hadd Sample.brandOnly 2%nat) as (before & after & H0 & H2 & _); [lia |].
    exists before, after. split; [exact H2 | exact H0].
  - apply (Hwith Sample.severalReferences "Place the bottle on the table.");
      [reflexivity | simpl; lia].
  - apply Hthree.
    + reflexivity.
    + left. reflexivity.
    + right. eexists. split; reflexivity.
    + intros n H. discriminate H.
    + reflexivity.
Defined.

End AdverseTexts.

(** * Properties of the rest of the library and of the earlier endpoint *)

(** ** Traces and completions over any kind of step *)

Section StepsFacts.
Import Steps.
Context {E A B : Type}.

Lemma steps_trace_bind (m : M E A) (k : A → M E B) :
  trace (m ≫= k) =
    (trace m ++ match completion m with
                | Returned a => trace (k a)
                | Threw _ => []
                end)%list.
Proof.
  destruct m as [t [a | e]]; unfold mbind, M_bind, bind, trace, completion; simpl.
  - by destruct (k a).
  - by rewrite app_nil_r.
Qed.

Lemma steps_completion_bind (m : M E A) (k : A → M E B) :
  completion (m ≫= k) =
    match completion m with
    | Returned a => completion (k a)
    | Threw e => Threw e
    end.
Proof.
  destruct m as [t [a | e]]; unfold mbind, M_bind, bind, trace, completion; simpl.
  - by destruct (k a).
  - done.
Qed.

Lemma steps_trace_try_catch (m : M E A) (h : string → M E A) :
  trace (try_catch m h) =
    (trace m ++ match completion m with
                | Returned _ => []
                | Threw e => trace (h e)
                end)%list.
Proof.
  destruct m as [t [a | e]]; unfold try_catch, trace, completion; simpl.
  - by rewrite app_nil_r.
  - by destruct (h e).
Qed.

Lemma steps_completion_try_catch (m : M E A) (h : string → M E A) :
  completion (try_catch m h) =
    match completion m with
    | Returned a => Returned a
    | Threw e => completion (h e)
    end.
Proof.
  destruct m as [t [a | e]]; unfold try_catch, trace, completion; simpl.
  - done.
  - by destruct (h e).
Qed.

Lemma steps_trace_ret (a : A) : trace (mret a : M E A) = [].
Proof. reflexivity. Qed.

Lemma steps_completion_ret (a : A) : completion (mret a : M E A) = Returned a.
Proof. reflexivity. Qed.

Lemma steps_trace_throw (e : string) : trace (throw e : M E A) = [].
Proof. reflexivity. Qed.

Lemma steps_completion_throw (e : string) : completion (throw e : M E A) = Threw e.
Proof. reflexivity. Qed.

Lemma steps_trace_lift (c : Completion A) : trace (lift c : M E A) = [].
Proof. reflexivity. Qed.

Lemma steps_completion_lift (c : Completion A) : completion (lift c : M E A) = c.
Proof. reflexivity. Qed.

Lemma steps_trace_call (e : E) (c : Completion A) : trace (call e c) = [e].
Proof. reflexivity. Qed.

Lemma steps_completion_call (e : E) (c : Completion A) : completion (call e c) = c.
Proof. reflexivity. Qed.

End StepsFacts.

Lemma steps_trace_act {E : Type} (e : E) : Steps.trace (Steps.act e) = [e].
Proof. reflexivity. Qed.

Lemma steps_completion_act {E : Type} (e : E) :
  Steps.completion (Steps.act e) = Returned tt.
Proof. reflexivity. Qed.

Create Rewrite HintDb steps.
#[global] Hint Rewrite @steps_trace_bind @steps_completion_bind @steps_trace_try_catch
  @steps_completion_try_catch @steps_trace_ret @steps_completion_ret @steps_trace_throw
  @steps_completion_throw @steps_trace_lift @steps_completion_lift @steps_trace_call
  @steps_completion_call @steps_trace_act @steps_completion_act : steps.

(** Rewrites a composed computation into the traces of its parts. *)
Ltac walk := autorewrite with steps.

(** The same, with the appended lists brought to one shape. *)
Ltac settle := walk; rewrite ?app_nil_r, <- ?app_assoc; cbn [app].

(** ** Storylines *)

Section StorylineCount.
Import JS Steps Storylines StorylineGenerationParams.
Variable env : Env.
Variable toUpperCase : string → string.
Variable generateContent : StorylineRequest.t → Completion ContentResponse.t.

Local Abbreviation storylinesOf :=
  (generateAIStorylines env toUpperCase generateContent).

Lemma length_arrayFrom n f : length (arrayFrom n f) = Z.to_nat n.
Proof. unfold arrayFrom. by rewrite length_map, length_seq. Qed.

Lemma slice0_topUp (n : Z) (filler : Json) (storylines : list Json) :
  (0 ≤ n)%Z →
  slice0 n (topUp n filler storylines) =
    take (Z.to_nat n) storylines ++ replicate (Z.to_nat n - length storylines) filler.
Proof.
  intros Hn. unfold slice0, topUp. rewrite bool_decide_false by lia.
  rewrite take_app. f_equal. rewrite take_replicate. f_equal. lia.
Qed.

Lemma slice0_arrayFrom (n : Z) (filler : Json) f :
  slice0 n (topUp n filler (arrayFrom n f)) = arrayFrom n f.
Proof.
  unfold topUp. rewrite length_arrayFrom, Nat.sub_diag. cbn [replicate].
  rewrite app_nil_r. unfold slice0. case_bool_decide as Hn.
  - apply take_ge. rewrite length_arrayFrom. lia.
  - apply take_ge. rewrite length_arrayFrom. lia.
Qed.

(** What the function returns once a client exists. *)
Lemma storylines_with_key params key :
  TextModel.getClient env = Returned key →
  completion (storylinesOf params) =
    Returned
      match generateContent (request env toUpperCase params) with
      | Returned response =>
        slice0 (variantCount params)
          (topUp (variantCount params) (additional (trendType params))
             (parseStorylines env params
                (js_or (ContentResponse.firstText response) "[]")))
      | Threw _ => errorFallback (trendType params) (variantCount params)
      end.
Proof.
  intros Hkey. unfold generateAIStorylines. walk. rewrite Hkey. walk.
  by destruct (generateContent _).
Qed.

(** X1. With an API key the function raises nothing and returns exactly
    [variantCount] storylines, whatever the model answers. *)
Theorem storylines_have_the_requested_count params key :
  TextModel.getClient env = Returned key →
  (0 ≤ variantCount params)%Z →
  ∃ storylines,
    completion (storylinesOf params) = Returned storylines ∧
    length storylines = Z.to_nat (variantCount params).
Proof.
  intros Hkey Hn. rewrite (storylines_with_key params key Hkey).
  eexists. split; [reflexivity |].
  destruct (generateContent _) as [response | e].
  - rewrite slice0_topUp by done. rewrite length_app, length_take, length_replicate. lia.
  - apply length_arrayFrom.
Qed.

(** X2. A reply that is an array is cut to its first [variantCount]
    entries, or kept and completed with the same filler sentence. *)
Theorem storylines_reply_cut_or_filled params key response reply :
  TextModel.getClient env = Returned key →
  (0 ≤ variantCount params)%Z →
  generateContent (request env toUpperCase params) = Returned response →
  JSON_parse env (js_or (ContentResponse.firstText response) "[]") = Some (JArr reply) →
  completion (storylinesOf params) =
    Returned (take (Z.to_nat (variantCount params)) reply ++
              replicate (Z.to_nat (variantCount params) - length reply)
                (JStr ("Additional creative variant in " +:+ trendType params +:+
                       " style with distinct visual approach."))).
Proof.
  intros Hkey Hn Hcall Hparse. rewrite (storylines_with_key params key Hkey), Hcall.
  unfold parseStorylines. rewrite Hparse. by rewrite slice0_topUp.
Qed.

(** X3. When the call throws, and when the reply is not JSON or not an
    array, the storylines are numbered sentences, a different one in
    each of the two cases. *)
Theorem storylines_fall_back_to_numbered_sentences params key :
  TextModel.getClient env = Returned key →
  ((∃ message, generateContent (request env toUpperCase params) = Threw message) →
   completion (storylinesOf params) =
     Returned (map (λ i : nat,
                 JStr ("Creative variant " +:+ pretty (i + 1)%nat +:+ " in " +:+
                       trendType params +:+
                       " style. Professional composition optimized for TikTok."))
               (seq 0 (Z.to_nat (variantCount params))))) ∧
  (∀ response,
     generateContent (request env toUpperCase params) = Returned response →
     (∀ reply, JSON_parse env (js_or (ContentResponse.firstText response) "[]")
               ≠ Some (JArr reply)) →
     completion (storylinesOf params) =
       Returned (map (λ i : nat,
                   JStr ("Creative variant " +:+ pretty (i + 1)%nat +:+ " in " +:+
                         trendType params +:+
                         " style with unique composition and lighting."))
                 (seq 0 (Z.to_nat (variantCount params))))).
Proof.
  intros Hkey. rewrite (storylines_with_key params key Hkey). split.
  - intros [message ->]. reflexivity.
  - intros response -> Hnot. f_equal.
    assert (parseStorylines env params (js_or (ContentResponse.firstText response) "[]")
            = parseFallback (trendType params) (variantCount params)) as ->.
    { unfold parseStorylines.
      destruct (JSON_parse env _) as [[| | | | reply |] |]; try done.
      by destruct (Hnot reply). }
    apply slice0_arrayFrom.
Qed.

End StorylineCount.

(** ** The image generator *)

Section ImageWrapper.
Import JS Steps ImageClient.
Variable env : Env.
Variable IMAGE_MODEL_ID : option string.
Variable clock : Clock.
Variable generateContent : ImageRequest.t → Completion ContentResponse.t.

Local Abbreviation generateImage := (ImageClient.generateImage env IMAGE_MODEL_ID clock generateContent).
Local Abbreviation request := (ImageClient.request env IMAGE_MODEL_ID).

Lemma generateImage_with_key params key :
  TextModel.getClient env = Returned key →
  trace (generateImage params) = [request params] ∧
  completion (generateImage params) =
    match generateContent (request params) with
    | Returned response =>
      match ContentResponse.firstParts response ≫= scanParts clock with
      | Some result => Returned result
      | None => Threw "Image generation failed: Model did not return an image."
      end
    | Threw message => Threw ("Image generation failed: " +:+ message)
    end.
Proof.
  intros Hkey. unfold ImageClient.generateImage. walk. rewrite Hkey. walk.
  destruct (generateContent _) as [response | message]; [| done].
  by destruct (ContentResponse.firstParts response ≫= scanParts clock).
Qed.

Lemma scanParts_first skipped part rest :
  Forall (λ p, isImagePart p = false) skipped → isImagePart part = true →
  scanParts clock (skipped ++ part :: rest) = Some (imageResult clock part).
Proof.
  intros Hskipped Hpart. induction Hskipped as [| p skipped Hp _ IH]; cbn.
  - by rewrite Hpart.
  - by rewrite Hp.
Qed.

Lemma scanParts_none parts :
  scanParts clock parts = None ↔ Forall (λ p, isImagePart p = false) parts.
Proof.
  induction parts as [| p parts IH]; cbn.
  - split; [by constructor | done].
  - destruct (isImagePart p) eqn:Hp.
    + split; [done |]. intros H. apply Forall_cons in H as [H _]. congruence.
    + rewrite IH. split; [by constructor | by intros [_ ?]%Forall_cons].
Qed.

Lemma scanParts_some parts result :
  scanParts clock parts = Some result →
  ∃ skipped part rest,
    parts = skipped ++ part :: rest ∧
    Forall (λ p, isImagePart p = false) skipped ∧
    isImagePart part = true ∧ result = imageResult clock part.
Proof.
  induction parts as [| p parts IH]; cbn; [done |].
  destruct (isImagePart p) eqn:Hp.
  - intros [= <-]. by exists [], p, parts.
  - intros (skipped & part & rest & -> & Hs & Hpart & ->)%IH.
    exists (p :: skipped), part, rest. split_and!; try done. by constructor.
Qed.

(** X4. The request of [generateImage] is its only step; it holds one
    inline part per reference image, in their order and labelled as PNG,
    and the prompt last. Neither the request nor the outcome depends on
    the aspect ratio or on the number of images asked for. *)
Theorem image_request_is_references_then_prompt :
  (∀ params key, TextModel.getClient env = Returned key →
     trace (generateImage params) = [request params] ∧
     ImageRequest.parts (request params) =
       map (λ imageBuffer, ImageRequest.InlinePart "image/png" (base64 env imageBuffer))
           (default [] (ImageGenerationParams.referenceImages params))
       ++ [ImageRequest.TextPart (ImageGenerationParams.prompt params)]) ∧
  (∀ p1 p2,
     ImageGenerationParams.prompt p1 = ImageGenerationParams.prompt p2 →
     ImageGenerationParams.referenceImages p1 = ImageGenerationParams.referenceImages p2 →
     generateImage p1 = generateImage p2).
Proof.
  split.
  - intros params key Hkey. split; [by apply (generateImage_with_key params key) |].
    unfold ImageClient.request, requestParts. cbn.
    by destruct (ImageGenerationParams.referenceImages params) as [[| first others] |].
  - intros [prompt1 refs1 ratio1 count1] [prompt2 refs2 ratio2 count2]. cbn.
    by intros -> ->.
Qed.

(** X5. The result of [generateImage] is made from the first part of the
    first candidate whose MIME type starts with [image/]: its data URL
    carries that type and the data of that part, and the file name ends
    in [.png] whatever the type is. *)
Theorem image_result_is_first_image_part params key response skipped part rest
    mimeType data :
  TextModel.getClient env = Returned key →
  generateContent (request params) = Returned response →
  ContentResponse.firstParts response = Some (skipped ++ part :: rest) →
  Forall (λ p, isImagePart p = false) skipped →
  ContentPart.inlineData part =
    Some {| InlineData.mimeType := Some mimeType; InlineData.data := Some data |} →
  startsWith mimeType "image/" = true →
  completion (generateImage params) =
    Returned {| GenerationResult.type := image;
                GenerationResult.filePath := "data:" +:+ mimeType +:+ ";base64," +:+ data;
                GenerationResult.fileName :=
                  "image_" +:+ pretty (Date_now clock) +:+ "_" +:+
                  TextModel.drop 7 (Math_random_text clock) +:+ ".png";
                GenerationResult.mimeType := mimeType |}.
Proof.
  intros Hkey Hcall Hparts Hskipped Hinline Himage.
  destruct (generateImage_with_key params key Hkey) as [_ ->].
  rewrite Hcall, Hparts. cbn [mbind option_bind].
  rewrite scanParts_first; [| done |].
  - unfold imageResult. rewrite Hinline. reflexivity.
  - unfold isImagePart. by rewrite Hinline.
Qed.

(** X6. With an API key, [generateImage] fails in two cases only, and
    the message starts with the same words in both: the call of the
    model threw, or the first candidate holds no image part. *)
Theorem image_failures_are_labelled params key message :
  TextModel.getClient env = Returned key →
  completion (generateImage params) = Threw message →
  (∃ cause, generateContent (request params) = Threw cause ∧
            message = "Image generation failed: " +:+ cause) ∨
  (∃ response, generateContent (request params) = Returned response ∧
               (∀ parts, ContentResponse.firstParts response = Some parts →
                         Forall (λ p, isImagePart p = false) parts) ∧
               message = "Image generation failed: Model did not return an image.").
Proof.
  intros Hkey. destruct (generateImage_with_key params key Hkey) as [_ ->].
  destruct (generateContent _) as [response | cause].
  - destruct (ContentResponse.firstParts response) as [parts |] eqn:Hparts; cbn.
    + destruct (scanParts clock parts) eqn:Hscan; [done |].
      intros [= <-]. right. exists response. split_and!; try done.
      intros parts' Hsame. simplify_eq. by apply scanParts_none.
    + intros [= <-]. right. exists response. split_and!; [done | | done].
      intros parts Hsome. congruence.
  - intros [= <-]. left. by exists cause.
Qed.

End ImageWrapper.

(** ** The video generator *)

Section VideoWrapper.
Import JS Steps VideoJob.
Variable env : Env.
Variable clock : Clock.
Variable host : VideoHost.

Local Abbreviation pollLoop := (VideoJob.pollLoop host).
Local Abbreviation awaitVideo := (VideoJob.awaitVideo env host).
Local Abbreviation viaFile := (VideoJob.viaFile env host).
Local Abbreviation generateVideo := (VideoJob.generateVideo env clock host).
Local Abbreviation generateVideoEarlier := (VideoJob.generateVideoEarlier env clock host).
Local Abbreviation videoRequest := (VideoClient.generateVideosRequest env).

Lemma rounds_thirty : rounds = 30%nat.
Proof. reflexivity. Qed.

Lemma pollLoop_step fuel polls elapsed operation :
  pollLoop (S fuel) polls elapsed operation =
    if negb (VideoOperation.done operation) && bool_decide (elapsed < maxWaitTime)%Z
    then act (Wait pollInterval);;
         next ← call (GetVideosOperation operation)
                     (getVideosOperation host polls operation);
         pollLoop fuel (S polls) (elapsed + pollInterval)%Z next
    else mret operation.
Proof. reflexivity. Qed.

Lemma pollLoop_stop fuel polls elapsed operation :
  negb (VideoOperation.done operation) && bool_decide (elapsed < maxWaitTime)%Z = false →
  pollLoop fuel polls elapsed operation = mret operation.
Proof. intros H. destruct fuel; cbn [VideoJob.pollLoop]; by rewrite H. Qed.

(** The unrolling of the loop is deep enough: more fuel changes nothing. *)
Lemma pollLoop_fuel fuel extra polls elapsed operation :
  (maxWaitTime - elapsed ≤ pollInterval * Z.of_nat fuel)%Z →
  pollLoop (fuel + extra) polls elapsed operation = pollLoop fuel polls elapsed operation.
Proof.
  revert polls elapsed operation.
  induction fuel as [| fuel IH]; intros polls elapsed operation Hfuel.
  - rewrite !pollLoop_stop; [done | |];
      rewrite andb_false_iff; right; apply bool_decide_eq_false; lia.
  - change (S fuel + extra)%nat with (S (fuel + extra)). rewrite !pollLoop_step.
    destruct (negb _ && _); [| done].
    unfold mbind, M_bind, bind, act, call.
    destruct (getVideosOperation host polls operation) as [next | e]; [| done].
    rewrite IH; [done |]. unfold pollInterval in *. lia.
Qed.

Lemma pollLoop_shape fuel polls elapsed operation :
  ∃ operations,
    (length operations ≤ fuel)%nat ∧
    trace (pollLoop fuel polls elapsed operation) = pollRounds operations ∧
    (VideoOperation.done operation = true → operations = []).
Proof.
  revert polls elapsed operation.
  induction fuel as [| fuel IH]; intros polls elapsed operation.
  - exists []. split_and!; [done | | done].
    cbn [VideoJob.pollLoop]. by destruct (negb _ && _).
  - rewrite pollLoop_step.
    destruct (VideoOperation.done operation) eqn:Hdone; cbn [negb andb].
    { exists []. split_and!; [cbn; lia | done | done]. }
    destruct (bool_decide (elapsed < maxWaitTime)%Z).
    2: { exists []. split_and!; [cbn; lia | done | done]. }
    walk. destruct (getVideosOperation host polls operation) as [next | e].
    + destruct (IH (S polls) (elapsed + pollInterval)%Z next) as (operations & Hlen & -> & _).
      exists (operation :: operations). split_and!; [cbn; lia | done | done].
    + exists [operation]. split_and!; [cbn; lia | done | done].
Qed.

(** When no poll finds the operation done, every round is played. *)
Lemma pollLoop_never_done fuel polls operation :
  (∀ k o, ∃ next, getVideosOperation host k o = Returned next ∧
                  VideoOperation.done next = false) →
  VideoOperation.done operation = false → (fuel ≤ rounds)%nat →
  ∃ operations last,
    length operations = fuel ∧
    trace (pollLoop fuel polls (pollInterval * Z.of_nat (rounds - fuel)) operation)
      = pollRounds operations ∧
    completion (pollLoop fuel polls (pollInterval * Z.of_nat (rounds - fuel)) operation)
      = Returned last ∧
    VideoOperation.done last = false.
Proof.
  intros Hpoll. revert polls operation.
  induction fuel as [| fuel IH]; intros polls operation Hdone Hfuel.
  - exists [], operation. rewrite pollLoop_stop; [done |].
    rewrite andb_false_iff. right. apply bool_decide_eq_false.
    rewrite Nat.sub_0_r, rounds_thirty. unfold maxWaitTime, pollInterval. lia.
  - rewrite pollLoop_step, Hdone. cbn [negb andb].
    rewrite bool_decide_true.
    2: { rewrite rounds_thirty in *. unfold maxWaitTime, pollInterval. lia. }
    destruct (Hpoll polls operation) as (next & Hnext & Hnot).
    destruct (IH (S polls) next Hnot) as (operations & last & Hlen & Htrace & Hcompl & Hlast);
      [lia |].
    replace (pollInterval * Z.of_nat (rounds - S fuel) + pollInterval)%Z
      with (pollInterval * Z.of_nat (rounds - fuel))%Z.
    2: { unfold pollInterval. lia. }
    exists (operation :: operations), last. walk. rewrite Hnext. walk.
    rewrite Htrace, Hcompl. split_and!; [cbn; lia | done | done | done].
Qed.

Lemma awaitVideo_run params :
  trace (awaitVideo params) =
    GenerateVideos (videoRequest params) ::
    match generateVideos host (videoRequest params) with
    | Returned started => trace (pollLoop rounds 0 0 started)
    | Threw _ => []
    end ∧
  completion (awaitVideo params) =
    match generateVideos host (videoRequest params) with
    | Returned started =>
      match completion (pollLoop rounds 0 0 started) with
      | Returned operation =>
        if VideoOperation.done operation then
          match VideoOperation.video operation with
          | Some videoFile => Returned videoFile
          | None => Threw "No video in response"
          end
        else Threw "Video generation timed out after 5 minutes"
      | Threw e => Threw e
      end
    | Threw e => Threw e
    end.
Proof.
  unfold VideoJob.awaitVideo. walk.
  destruct (generateVideos host _) as [started | e]; [| done]. walk.
  destruct (completion (pollLoop rounds 0 0 started)) as [operation | e]; [| by settle].
  destruct (VideoOperation.done operation); cbn [negb]; [| by settle].
  destruct (VideoOperation.video operation); by settle.
Qed.

Lemma awaitVideo_shape params :
  ∃ operations,
    trace (awaitVideo params) = GenerateVideos (videoRequest params) :: pollRounds operations ∧
    (length operations ≤ 30)%nat ∧
    (∀ started, generateVideos host (videoRequest params) = Returned started →
                VideoOperation.done started = true → operations = []).
Proof.
  destruct (awaitVideo_run params) as [-> _].
  destruct (generateVideos host _) as [started | e].
  - destruct (pollLoop_shape rounds 0 0 started) as (operations & Hlen & -> & Hdone).
    exists operations. split_and!; [done | by rewrite rounds_thirty in Hlen |].
    intros ? [= <-]. exact Hdone.
  - exists []. split_and!; [done | cbn; lia | done].
Qed.

Lemma ensureOutputDir_run :
  trace (ensureOutputDir host) =
    ExistsSync (generatedDir host) ::
    (if existsSync host (generatedDir host) then [] else [MkdirSync (generatedDir host)]) ∧
  completion (ensureOutputDir host) =
    if existsSync host (generatedDir host) then Returned (generatedDir host)
    else match mkdirSync host (generatedDir host) with
         | Returned _ => Returned (generatedDir host)
         | Threw e => Threw e
         end.
Proof.
  unfold ensureOutputDir. walk.
  destruct (existsSync host _); walk; [done |].
  by destruct (mkdirSync host _).
Qed.

Lemma viaFile_transfers guarded videoFile fileName :
  Forall (λ s, isTransfer s = true) (trace (viaFile guarded videoFile fileName)).
Proof.
  unfold VideoJob.viaFile. walk.
  destruct ensureOutputDir_run as [-> ->].
  destruct (existsSync host _).
  - walk. destruct (download host _ _); walk; [| by repeat constructor].
    destruct (readFileSync host _); walk; [| by repeat constructor].
    destruct guarded; walk; destruct (unlinkSync host _); walk; by repeat constructor.
  - destruct (mkdirSync host _); walk; [| by repeat constructor].
    destruct (download host _ _); walk; [| by repeat constructor].
    destruct (readFileSync host _); walk; [| by repeat constructor].
    destruct guarded; walk; destruct (unlinkSync host _); walk; by repeat constructor.
Qed.

Lemma generateVideo_run params key :
  TextModel.getClient env = Returned key →
  trace (generateVideo params) =
    trace (awaitVideo params) ++
    match completion (awaitVideo params) with
    | Returned videoFile => trace (viaFile true videoFile (generateFileName clock "video" "mp4"))
    | Threw _ => []
    end ∧
  completion (generateVideo params) =
    match completion (awaitVideo params) with
    | Returned videoFile =>
      match completion (viaFile true videoFile (generateFileName clock "video" "mp4")) with
      | Returned dataUrl =>
        Returned (videoResult (generateFileName clock "video" "mp4") dataUrl)
      | Threw e => Threw ("Video generation failed: " +:+ e)
      end
    | Threw e => Threw ("Video generation failed: " +:+ e)
    end.
Proof.
  intros Hkey. unfold VideoJob.generateVideo. walk. rewrite Hkey. walk.
  destruct (completion (awaitVideo params)) as [videoFile | e]; walk;
    [| by rewrite !app_nil_r].
  destruct (completion (viaFile true videoFile _)); settle; by rewrite ?app_nil_r.
Qed.

Lemma generateVideoEarlier_run params key :
  TextModel.getClient env = Returned key →
  trace (generateVideoEarlier params) =
    trace (awaitVideo params) ++
    match completion (awaitVideo params) with
    | Returned videoFile =>
      trace (retrieveEarlier env host videoFile (generateFileName clock "video" "mp4"))
    | Threw _ => []
    end ∧
  completion (generateVideoEarlier params) =
    match completion (awaitVideo params) with
    | Returned videoFile =>
      match completion (retrieveEarlier env host videoFile
                          (generateFileName clock "video" "mp4")) with
      | Returned dataUrl =>
        Returned (videoResult (generateFileName clock "video" "mp4") dataUrl)
      | Threw e => Threw ("Video generation failed: " +:+ e)
      end
    | Threw e => Threw ("Video generation failed: " +:+ e)
    end.
Proof.
  intros Hkey. unfold VideoJob.generateVideoEarlier. walk. rewrite Hkey. walk.
  destruct (completion (awaitVideo params)) as [videoFile | e]; walk;
    [| by rewrite !app_nil_r].
  destruct (completion (retrieveEarlier env host videoFile _)); settle;
    by rewrite ?app_nil_r.
Qed.

Lemma retrieveEarlier_transfers videoFile fileName :
  Forall (λ s, isTransfer s = true) (trace (retrieveEarlier env host videoFile fileName)).
Proof.
  unfold retrieveEarlier.
  destruct (truthy_opt (VideoFile.uri videoFile)).
  { walk. destruct (fetch host _); walk; by repeat constructor. }
  destruct (truthy_opt (VideoFile.videoBytes videoFile)); [by constructor |].
  apply viaFile_transfers.
Qed.

Lemma pollRounds_steps operations :
  Forall (λ s, isTransfer s = false) (pollRounds operations) ∧
  length (filter (λ s, isPoll s = true) (pollRounds operations)) = length operations ∧
  length (filter (λ s, isWait s = true) (pollRounds operations)) = length operations.
Proof.
  induction operations as [| o operations (IH1 & IH2 & IH3)]; [by split_and! |].
  cbn [pollRounds flat_map app]. split_and!.
  - by repeat constructor.
  - rewrite filter_cons_False, filter_cons_True by done. cbn. by f_equal.
  - rewrite filter_cons_True, filter_cons_False by done. cbn. by f_equal.
Qed.

(** X7. Both versions of [generateVideo] send their request first, then
    play rounds of ten seconds' wait and one poll, thirty rounds at
    most, and only then reach for the file system or the network; an
    operation that is done at once is not polled. *)
Theorem video_polling_is_paced params key :
  TextModel.getClient env = Returned key →
  Paced (videoRequest params) (trace (generateVideo params)) ∧
  Paced (videoRequest params) (trace (generateVideoEarlier params)) ∧
  (∀ started,
     generateVideos host (videoRequest params) = Returned started →
     VideoOperation.done started = true →
     Forall (λ s, isPoll s = false ∧ isWait s = false) (trace (generateVideo params)) ∧
     Forall (λ s, isPoll s = false ∧ isWait s = false)
       (trace (generateVideoEarlier params))).
Proof.
  intros Hkey.
  destruct (generateVideo_run params key Hkey) as [Hcurrent _].
  destruct (generateVideoEarlier_run params key Hkey) as [Hearlier _].
  destruct (awaitVideo_shape params) as (operations & Hawait & Hlen & Hdone).
  rewrite Hawait in Hcurrent, Hearlier.
  assert (∀ transfers, Forall (λ s, isTransfer s = true) transfers →
            Forall (λ s, isPoll s = false ∧ isWait s = false) transfers) as Hquiet.
  { intros transfers H. eapply Forall_impl; [exact H |]. by intros []. }
  split_and!.
  - eexists operations, _. split_and!; [by rewrite Hcurrent | done |].
    destruct (completion (awaitVideo params)); [apply viaFile_transfers | constructor].
  - eexists operations, _. split_and!; [by rewrite Hearlier | done |].
    destruct (completion (awaitVideo params)); [apply retrieveEarlier_transfers | constructor].
  - intros started Hstarted Hnow. rewrite (Hdone started Hstarted Hnow) in Hcurrent, Hearlier.
    rewrite Hcurrent, Hearlier. split; (constructor; [done |]); apply Hquiet.
    + destruct (completion (awaitVideo params)); [apply viaFile_transfers | constructor].
    + destruct (completion (awaitVideo params));
        [apply retrieveEarlier_transfers | constructor].
Qed.

(** X8. An operation that no poll finds done is given up after thirty
    polls, five minutes of waiting in all; the call fails with the
    message of the timeout and nothing is downloaded. *)
Theorem video_times_out_after_thirty_polls params key started :
  TextModel.getClient env = Returned key →
  generateVideos host (videoRequest params) = Returned started →
  VideoOperation.done started = false →
  (∀ k operation, ∃ next, getVideosOperation host k operation = Returned next ∧
                          VideoOperation.done next = false) →
  completion (generateVideo params) =
    Threw "Video generation failed: Video generation timed out after 5 minutes" ∧
  ∃ operations,
    length operations = 30%nat ∧
    trace (generateVideo params) =
      GenerateVideos (videoRequest params) :: pollRounds operations ∧
    (Z.of_nat (length operations) * pollInterval = 300000)%Z.
Proof.
  intros Hkey Hstarted Hnot Hpoll.
  destruct (generateVideo_run params key Hkey) as [-> ->].
  destruct (awaitVideo_run params) as [-> ->]. rewrite Hstarted.
  destruct (pollLoop_never_done rounds 0 started Hpoll Hnot (le_n _))
    as (operations & last & Hlen & Htrace & Hcompl & Hlast).
  rewrite Nat.sub_diag, Z.mul_0_r in Htrace, Hcompl.
  rewrite Htrace, Hcompl, Hlast. split; [done |].
  exists operations. rewrite app_nil_r, Hlen, rounds_thirty. by split_and!.
Qed.

Lemma viaFile_read_back guarded videoFile fileName data :
  let filePath := path_join host (generatedDir host) fileName in
  (existsSync host (generatedDir host) = false →
   mkdirSync host (generatedDir host) = Returned tt) →
  download host videoFile filePath = Returned tt →
  readFileSync host filePath = Returned data →
  trace (viaFile guarded videoFile fileName) =
    ExistsSync (generatedDir host) ::
    (if existsSync host (generatedDir host) then [] else [MkdirSync (generatedDir host)]) ++
    [Download videoFile filePath; ReadFileSync filePath; UnlinkSync filePath] ∧
  completion (viaFile guarded videoFile fileName) =
    match unlinkSync host filePath with
    | Threw e => if guarded then Returned ("data:video/mp4;base64," +:+ base64 env data)
                 else Threw e
    | Returned _ => Returned ("data:video/mp4;base64," +:+ base64 env data)
    end.
Proof.
  intros filePath Hmkdir Hdownload Hread. unfold VideoJob.viaFile. walk.
  destruct ensureOutputDir_run as [-> ->].
  destruct (existsSync host (generatedDir host)) eqn:Hexists.
  - settle. fold filePath. rewrite Hdownload. settle. rewrite Hread. settle.
    destruct guarded; settle; destruct (unlinkSync host filePath); settle; by split.
  - rewrite (Hmkdir eq_refl). settle. fold filePath. rewrite Hdownload. settle.
    rewrite Hread. settle.
    destruct guarded; settle; destruct (unlinkSync host filePath); settle; by split.
Qed.

(** X9. Once the operation is done and holds a video, the video is
    downloaded to a file of the output directory, which is made when it
    is missing, read back and removed; the result is the data URL of
    what was read, whether or not the removal succeeds. *)
Theorem video_is_read_back_from_its_download params key videoFile data :
  let fileName := generateFileName clock "video" "mp4" in
  let filePath := path_join host (generatedDir host) fileName in
  TextModel.getClient env = Returned key →
  completion (awaitVideo params) = Returned videoFile →
  (existsSync host (generatedDir host) = false →
   mkdirSync host (generatedDir host) = Returned tt) →
  download host videoFile filePath = Returned tt →
  readFileSync host filePath = Returned data →
  completion (generateVideo params) =
    Returned {| GenerationResult.type := video;
                GenerationResult.filePath := "data:video/mp4;base64," +:+ base64 env data;
                GenerationResult.fileName := fileName;
                GenerationResult.mimeType := "video/mp4" |} ∧
  trace (generateVideo params) =
    trace (awaitVideo params) ++
    ExistsSync (generatedDir host) ::
    (if existsSync host (generatedDir host) then [] else [MkdirSync (generatedDir host)]) ++
    [Download videoFile filePath; ReadFileSync filePath; UnlinkSync filePath].
Proof.
  intros fileName filePath Hkey Hawait Hmkdir Hdownload Hread.
  destruct (generateVideo_run params key Hkey) as [-> ->]. rewrite Hawait.
  fold fileName.
  destruct (viaFile_read_back true videoFile fileName data Hmkdir Hdownload Hread)
    as [-> ->].
  fold filePath. split; [| done]. by destruct (unlinkSync host filePath).
Qed.

Lemma viaFile_guard videoFile fileName :
  trace (viaFile false videoFile fileName) = trace (viaFile true videoFile fileName) ∧
  (unlinkSync host (path_join host (generatedDir host) fileName) = Returned tt →
   completion (viaFile false videoFile fileName) =
     completion (viaFile true videoFile fileName)).
Proof.
  unfold VideoJob.viaFile. walk.
  destruct ensureOutputDir_run as [-> ->].
  destruct (existsSync host _).
  - walk. destruct (download host _ _); walk; [| done].
    destruct (readFileSync host _); walk; [| done].
    destruct (unlinkSync host _) as [[] | e]; walk; [done |]. by split.
  - destruct (mkdirSync host _); walk; [| done].
    destruct (download host _ _); walk; [| done].
    destruct (readFileSync host _); walk; [| done].
    destruct (unlinkSync host _) as [[] | e]; walk; [done |]. by split.
Qed.

(** X10. The earlier [generateVideo] fetches the video from its address
    when it has one and touches no file; with bytes and no address it
    takes the bytes as they are and does nothing more; with neither it
    makes the same steps as the current version. *)
Theorem earlier_video_prefers_address_then_bytes params key videoFile :
  let fileName := generateFileName clock "video" "mp4" in
  TextModel.getClient env = Returned key →
  completion (awaitVideo params) = Returned videoFile →
  (∀ uri, VideoFile.uri videoFile = Some uri → truthy uri = true →
     trace (generateVideoEarlier params) = trace (awaitVideo params) ++ [Fetch uri] ∧
     completion (generateVideoEarlier params) =
       match fetch host uri with
       | Returned data =>
         Returned (videoResult fileName ("data:video/mp4;base64," +:+ base64 env data))
       | Threw e => Threw ("Video generation failed: " +:+ e)
       end) ∧
  (∀ bytes, truthy_opt (VideoFile.uri videoFile) = false →
     VideoFile.videoBytes videoFile = Some bytes → truthy bytes = true →
     trace (generateVideoEarlier params) = trace (awaitVideo params) ∧
     completion (generateVideoEarlier params) =
       Returned (videoResult fileName ("data:video/mp4;base64," +:+ bytes))) ∧
  (truthy_opt (VideoFile.uri videoFile) = false →
   truthy_opt (VideoFile.videoBytes videoFile) = false →
   trace (generateVideoEarlier params) = trace (generateVideo params) ∧
   (unlinkSync host (path_join host (generatedDir host) fileName) = Returned tt →
    completion (generateVideoEarlier params) = completion (generateVideo params))).
Proof.
  intros fileName Hkey Hawait.
  destruct (generateVideoEarlier_run params key Hkey) as [-> ->].
  destruct (generateVideo_run params key Hkey) as [-> ->].
  rewrite Hawait. fold fileName. unfold retrieveEarlier. split_and!.
  - intros uri Huri Htruthy. unfold truthy_opt. rewrite Huri, Htruthy.
    cbn [default from_option id]. walk. destruct (fetch host uri); by settle.
  - intros bytes Hnone Hbytes Htruthy. rewrite Hnone.
    unfold truthy_opt at 1 2. rewrite Hbytes, Htruthy. cbn [default from_option id].
    by rewrite app_nil_r.
  - intros -> ->. destruct (viaFile_guard videoFile fileName) as [-> Hsame].
    split; [done |]. intros Hunlink. by rewrite (Hsame Hunlink).
Qed.

(** X11. A removal that fails makes the earlier [generateVideo] fail
    after the video was read, while the current one returns the video. *)
Theorem failed_removal_fails_the_earlier_version_only params key videoFile data e :
  let fileName := generateFileName clock "video" "mp4" in
  let filePath := path_join host (generatedDir host) fileName in
  TextModel.getClient env = Returned key →
  completion (awaitVideo params) = Returned videoFile →
  truthy_opt (VideoFile.uri videoFile) = false →
  truthy_opt (VideoFile.videoBytes videoFile) = false →
  (existsSync host (generatedDir host) = false →
   mkdirSync host (generatedDir host) = Returned tt) →
  download host videoFile filePath = Returned tt →
  readFileSync host filePath = Returned data →
  unlinkSync host filePath = Threw e →
  completion (generateVideoEarlier params) = Threw ("Video generation failed: " +:+ e) ∧
  completion (generateVideo params) =
    Returned (videoResult fileName ("data:video/mp4;base64," +:+ base64 env data)).
Proof.
  intros fileName filePath Hkey Hawait Huri Hbytes Hmkdir Hdownload Hread Hunlink.
  destruct (generateVideoEarlier_run params key Hkey) as [_ ->].
  destruct (generateVideo_run params key Hkey) as [_ ->].
  rewrite Hawait. fold fileName. unfold retrieveEarlier. rewrite Huri, Hbytes.
  destruct (viaFile_read_back true videoFile fileName data Hmkdir Hdownload Hread)
    as [_ ->].
  destruct (viaFile_read_back false videoFile fileName data Hmkdir Hdownload Hread)
    as [_ ->].
  fold filePath. by rewrite Hunlink.
Qed.

End VideoWrapper.

(** ** The API key and the words of a failure *)

Section KeyAndLabels.
Import JS Steps.
Variable env : Env.
Variable clock : Clock.
Variable host : VideoHost.
Variable IMAGE_MODEL_ID : option string.
Variable toUpperCase : string → string.
Variable imageContent : ImageRequest.t → Completion ContentResponse.t.
Variable storylineContent : StorylineRequest.t → Completion ContentResponse.t.

(** X12. Without an API key each of the generators raises the error of
    the missing key, as it is, before it takes any step. *)
Theorem missing_key_is_raised_before_any_step message :
  TextModel.getClient env = Threw message →
  (∀ params, ImageClient.generateImage env IMAGE_MODEL_ID clock imageContent params
             = ([], Threw message)) ∧
  (∀ params, VideoJob.generateVideo env clock host params = ([], Threw message)) ∧
  (∀ params, VideoJob.generateVideoEarlier env clock host params = ([], Threw message)) ∧
  (∀ params, Storylines.generateAIStorylines env toUpperCase storylineContent params
             = ([], Threw message)).
Proof.
  intros Hkey.
  unfold ImageClient.generateImage, VideoJob.generateVideo, VideoJob.generateVideoEarlier,
    Storylines.generateAIStorylines.
  rewrite Hkey. by split_and!.
Qed.

(** X13. A failure of either [generateVideo] is the error of the missing
    key or starts with the words [Video generation failed: ]; the
    storylines fail for the missing key only. *)
Theorem video_failures_name_the_generator message :
  (∀ params,
     completion (VideoJob.generateVideo env clock host params) = Threw message ∨
     completion (VideoJob.generateVideoEarlier env clock host params) = Threw message →
     TextModel.getClient env = Threw message ∨
     ∃ cause, message = "Video generation failed: " +:+ cause) ∧
  (∀ params,
     completion (Storylines.generateAIStorylines env toUpperCase storylineContent params)
       = Threw message →
     TextModel.getClient env = Threw message).
Proof.
  split.
  - intros params.
    destruct (TextModel.getClient env) as [key |] eqn:Hkey.
    + destruct (generateVideo_run env clock host params key Hkey) as [_ ->].
      destruct (generateVideoEarlier_run env clock host params key Hkey) as [_ ->].
      destruct (completion (VideoJob.awaitVideo env host params)) as [videoFile | e].
      * destruct (completion (VideoJob.viaFile _ _ _ _ _)),
          (completion (VideoJob.retrieveEarlier _ _ _ _));
          intros [[=] | [=]]; subst; right; by eexists.
      * intros [[= <-] | [= <-]]; right; by eexists.
    + unfold VideoJob.generateVideo, VideoJob.generateVideoEarlier. rewrite Hkey.
      intros [[= <-] | [= <-]]; by left.
  - intros params.
    destruct (TextModel.getClient env) as [key |] eqn:Hkey.
    + by rewrite (storylines_with_key env toUpperCase storylineContent params key Hkey).
    + unfold Storylines.generateAIStorylines. rewrite Hkey. by intros [= <-].
Qed.

End KeyAndLabels.

(** ** The trend prompt *)

Section TrendPromptFacts.
Import JS TrendPrompt.

Lemma modifier_own trendType contentType entry :
  assoc trendType modifiers = Some entry →
  modifier trendType contentType = forContent contentType entry.
Proof.
  intros Hentry. unfold modifier. rewrite Hentry. cbn [js_get].
  assert (truthy (forContent contentType entry) = true) as ->; [| done].
  unfold modifiers in Hentry. cbn [assoc] in Hentry.
  repeat case_match; simplify_eq; by destruct contentType.
Qed.

(** X14. For one of its five trends [buildTrendPrompt] puts the modifier
    of that trend and of the kind of content before the base prompt; for
    any other name, the names of inherited members included, it puts the
    modifier of [standard-promo]. The modifier is never empty. *)
Theorem trend_prompt_falls_back_to_standard_promo basePrompt trendType contentType :
  (∀ entry, assoc trendType modifiers = Some entry →
     buildTrendPrompt basePrompt trendType contentType =
       forContent contentType entry +:+ Prompt.nl +:+ Prompt.nl +:+ basePrompt) ∧
  (assoc trendType modifiers = None →
     buildTrendPrompt basePrompt trendType contentType =
       buildTrendPrompt basePrompt "standard-promo" contentType) ∧
  truthy (modifier trendType contentType) = true.
Proof.
  split_and!.
  - intros entry Hentry. unfold buildTrendPrompt. by rewrite (modifier_own _ _ entry).
  - intros Hnone. unfold buildTrendPrompt, modifier. rewrite Hnone. cbn [js_get].
    case_bool_decide; by destruct contentType.
  - destruct (assoc trendType modifiers) as [entry |] eqn:Hentry.
    + rewrite (modifier_own _ _ entry Hentry).
      unfold modifiers in Hentry. cbn [assoc] in Hentry.
      repeat case_match; simplify_eq; by destruct contentType.
    + unfold modifier. rewrite Hentry. cbn [js_get].
      case_bool_decide; by destruct contentType.
Qed.

End TrendPromptFacts.

(** ** The earlier endpoint *)

Section EarlierStretches.
Import Steps Observe EarlierRoute.

Lemma steps_trace_relabel {E F A : Type} (f : E → F) (m : M E A) :
  trace (relabel f m) = map f (trace m).
Proof. reflexivity. Qed.

Lemma steps_completion_relabel {E F A : Type} (f : E → F) (m : M E A) :
  completion (relabel f m) = completion m.
Proof. reflexivity. Qed.

Lemma earlier_trace_sendStatus message progress :
  trace (sendStatus message progress) = [Emit (EarlierStatus message progress)].
Proof. reflexivity. Qed.

Lemma earlier_completion_sendStatus message progress :
  completion (sendStatus message progress) = Returned tt.
Proof. reflexivity. Qed.

Lemma earlier_trace_sendError message :
  trace (sendError message) = [Emit (EarlierError message)].
Proof. reflexivity. Qed.

Lemma earlier_completion_sendError message :
  completion (sendError message) = Returned tt.
Proof. reflexivity. Qed.

Lemma Stretch_nil lo hi : (lo ≤ hi)%Z → Stretch lo hi 0 [].
Proof.
  intros H. split_and!; [by apply Climbs_nil | done | apply not_elem_of_nil].
Qed.

Lemma Stretch_status message p : Stretch p p 0 [Emit (EarlierStatus message p)].
Proof.
  split_and!; [apply Climbs_one | done |].
  rewrite list_elem_of_singleton. discriminate.
Qed.

Lemma Stretch_terminal lo hi event :
  (lo ≤ hi)%Z → statusOf (Emit event) = None →
  Stretch lo hi 1 [Emit event].
Proof.
  intros H Hs. split_and!.
  - unfold statuses. cbn [omap list_omap]. rewrite Hs. by apply Climbs_nil.
  - unfold terminals. cbn [omap list_omap]. by destruct event.
  - rewrite list_elem_of_singleton. discriminate.
Qed.

Lemma Stretch_app lo mid mid' hi n1 n2 t1 t2 :
  Stretch lo mid n1 t1 → Stretch mid' hi n2 t2 → (mid ≤ mid')%Z →
  Stretch lo hi (n1 + n2) (t1 ++ t2).
Proof.
  intros (C1 & T1 & X1) (C2 & T2 & X2) Hmid. split_and!.
  - unfold statuses. rewrite omap_app. by eapply Climbs_app.
  - unfold terminals. rewrite omap_app, length_app. unfold terminals in *. lia.
  - rewrite elem_of_app. tauto.
Qed.

Lemma Stretch_weaken lo hi lo' hi' n t :
  Stretch lo hi n t → (lo' ≤ lo)%Z → (hi ≤ hi')%Z → Stretch lo' hi' n t.
Proof.
  intros (C & T & X) Hlo Hhi. split_and!; [by eapply Climbs_weaken | done | done].
Qed.

Lemma Stretch_cons_status lo hi n t message p :
  Stretch lo hi n t → (p ≤ lo)%Z →
  Stretch p hi n (Emit (EarlierStatus message p) :: t).
Proof.
  intros H Hp.
  apply (Stretch_app p p lo hi 0 n [_] t); [apply Stretch_status | done | done].
Qed.

Lemma Stretch_cons_quiet lo hi n t s :
  Stretch lo hi n t →
  statusOf s = None → terminalOf s = None → s ≠ Finish →
  Stretch lo hi n (s :: t).
Proof.
  intros (C & T & X) Hs Ht Hc. unfold Stretch, statuses, terminals in *.
  cbn [omap list_omap]. rewrite Hs, Ht.
  split_and!; [done | done |]. rewrite not_elem_of_cons. by split.
Qed.

Lemma Stretch_quiet lo hi t :
  (lo ≤ hi)%Z →
  Forall (λ s, statusOf s = None ∧ terminalOf s = None ∧ s ≠ Finish) t →
  Stretch lo hi 0 t.
Proof.
  intros H Ht. induction Ht as [| s t (Hs & Hterm & Hc) _ IH]; [by apply Stretch_nil |].
  by apply Stretch_cons_quiet.
Qed.

End EarlierStretches.

#[global] Hint Rewrite @steps_trace_relabel @steps_completion_relabel
  earlier_trace_sendStatus earlier_completion_sendStatus
  earlier_trace_sendError earlier_completion_sendError : steps.

Section EarlierHandler.
Import JS Steps Observe EarlierRoute.
Variable env : Env.
Variable world : World.
Variable toUpperCase : string → string.
Variable storylineContent : StorylineRequest.t → Completion ContentResponse.t.
Variable parseConfig : string → Completion GenerationConfig.t.

Local Abbreviation POST := (EarlierRoute.POST env world toUpperCase storylineContent parseConfig).
Local Abbreviation storylineStep :=
  (EarlierRoute.storylineStep env toUpperCase storylineContent).
Local Abbreviation imageBranch :=
  (EarlierRoute.imageBranch env world toUpperCase storylineContent).
Local Abbreviation videoBranch := (EarlierRoute.videoBranch world).
Local Abbreviation unitParams := (EarlierRoute.unitParams env).
Local Abbreviation units config := (Z.to_nat (Route.variantCountOf config)).
Local Abbreviation earlierBranch :=
  (EarlierRoute.branch env world toUpperCase storylineContent).
Local Abbreviation EarlierEnd := EarlierRoute.ImageEnd.
Local Abbreviation EarlierAll := EarlierRoute.AllGenerated.
Local Abbreviation EarlierNone := EarlierRoute.NothingGenerated.
Local Abbreviation EarlierFailed := EarlierRoute.UnitFailed.

(** The steps of unit [i]. *)
Local Abbreviation unitSteps config uploaded trendPrompt storylines :=
  (λ i : nat,
     [ Emit (EarlierStatus (Route.unitMessage config i)
               (Route.progressBase i (Route.variantCountOf config)));
       AskImage (unitParams config uploaded trendPrompt storylines i) ]).

Lemma earlier_imageLoop_run config uploaded trendPrompt storylines (n : nat) :
  ∀ (a : nat) (results : list FileInfo.t),
  ∃ j : nat, (j ≤ n)%nat ∧
    trace (imageLoop env world config uploaded trendPrompt storylines (seq a n) results) =
      flat_map (unitSteps config uploaded trendPrompt storylines) (seq a j) ∧
    ((j = n ∧
      ∃ rs, completion (imageLoop env world config uploaded trendPrompt storylines
                          (seq a n) results) = Returned rs ∧
            length rs = (length results + n)%nat) ∨
     (∃ e, (0 < j)%nat ∧
           completion (imageLoop env world config uploaded trendPrompt storylines
                         (seq a n) results) = Threw e)).
Proof.
  induction n as [| n IH]; intros a results.
  - exists 0%nat. split_and!; [lia | reflexivity |].
    left. split; [done |]. exists results. split; [reflexivity | simpl; lia].
  - change (seq a (S n)) with (a :: seq (S a) n). cbn [imageLoop].
    unfold callGenerateImage. walk.
    destruct (generateImage world a _) as [r | e] eqn:Hout.
    + destruct (IH (S a) (results ++ [Route.fileInfo r])) as (j & Hj & Htrace & Hend).
      exists (S j). split_and!.
      * lia.
      * rewrite Htrace. reflexivity.
      * destruct Hend as [(-> & rs & Hrs & Hlen) | (e & Hpos & Hthrew)].
        -- left. split; [done |]. exists rs. split; [done |].
           rewrite Hlen, length_app. simpl. lia.
        -- right. exists e. split; [lia | done].
    + exists 1%nat. split_and!; [lia | reflexivity |].
      right. exists e. split; [lia | done].
Qed.

Lemma earlier_units_stretch config uploaded trendPrompt storylines (j : nat) : ∀ a : nat,
  (a + j ≤ units config)%nat →
  Stretch (Route.progressBase a (Route.variantCountOf config)) 85 0
    (flat_map (unitSteps config uploaded trendPrompt storylines) (seq a j)).
Proof.
  induction j as [| j IH]; intros a Ha.
  - apply Stretch_nil, progressBase_le_85. lia.
  - cbn [seq flat_map app].
    eapply Stretch_cons_status.
    + apply Stretch_cons_quiet; [apply (IH (S a)); lia | done ..].
    + apply progressBase_monotone; lia.
Qed.

Lemma storylineStep_run config :
  (Route.isTrue (GenerationConfig.useAIStoryline config) &&
   bool_decide (0 < Route.variantCountOf config)%Z = false ∧
   storylineStep config = mret None) ∨
  (Route.isTrue (GenerationConfig.useAIStoryline config) &&
   bool_decide (0 < Route.variantCountOf config)%Z = true ∧
   trace (storylineStep config) =
     Emit (EarlierStatus "AI generating unique creative concepts..." 22) ::
     map AskStorylines
       (trace (Storylines.generateAIStorylines env toUpperCase storylineContent
                 (storylineParams config))) ∧
   completion (storylineStep config) =
     match completion (Storylines.generateAIStorylines env toUpperCase storylineContent
                         (storylineParams config)) with
     | Returned storylines => Returned (Some storylines)
     | Threw e => Threw e
     end).
Proof.
  unfold EarlierRoute.storylineStep. destruct (_ && _); [right | by left].
  split; [done |]. settle.
  destruct (completion (Storylines.generateAIStorylines _ _ _ _)); by settle.
Qed.

Lemma storylineStep_stretch config : Stretch 22 22 0 (trace (storylineStep config)).
Proof.
  destruct (storylineStep_run config) as [[_ ->] | (_ & -> & _)]; [by apply Stretch_nil |].
  apply (Stretch_cons_status 22); [| lia].
  apply Stretch_quiet; [lia |]. apply Forall_map, Forall_true. done.
Qed.

Lemma earlier_imageBranch_run config uploaded trendPrompt :
  completion (imageBranch config uploaded trendPrompt) = Returned tt ∧
  match completion (storylineStep config) with
  | Threw message =>
    trace (imageBranch config uploaded trendPrompt) =
      Emit (EarlierStatus "Connecting to Nano Banana Pro (gemini-3-pro-image)..." 20) ::
      trace (storylineStep config) ++ [Emit (EarlierError message)]
  | Returned storylines =>
    ∃ (j : nat) (tail : list EarlierStep),
      EarlierEnd config j tail ∧
      trace (imageBranch config uploaded trendPrompt) =
        Emit (EarlierStatus "Connecting to Nano Banana Pro (gemini-3-pro-image)..." 20) ::
        trace (storylineStep config) ++
        flat_map (unitSteps config uploaded trendPrompt storylines) (seq 0 j) ++ tail
  end.
Proof.
  unfold EarlierRoute.imageBranch. walk.
  destruct (completion (storylineStep config)) as [storylines | e]; [| by settle].
  walk.
  destruct (earlier_imageLoop_run config uploaded trendPrompt storylines (units config) 0 [])
    as (j & Hj & Htrace & Hend).
  rewrite Htrace.
  destruct Hend as [(-> & rs & -> & Hlen) | (e & Hpos & ->)].
  - walk. destruct (imagesPayload config rs) as [event | message] eqn:Hpay.
    + split; [by walk |]. eexists _, _. split.
      * by apply (EarlierAll config rs event).
      * settle. reflexivity.
    + split; [by walk |]. destruct rs; [| done]. eexists _, _. split.
      * apply (EarlierNone config message). simpl in Hlen. lia.
      * settle. simpl in Hlen. rewrite <- Hlen. reflexivity.
  - split; [by walk |]. exists j. eexists. split.
    + by apply (EarlierFailed config j e).
    + settle. reflexivity.
Qed.

Lemma imagesPayload_terminal config results event :
  imagesPayload config results = Returned event → statusOf (Emit event) = None.
Proof. unfold imagesPayload. destruct results; [done |]. by intros [= <-]. Qed.

Lemma EarlierEnd_stretch config j tail :
  EarlierEnd config j tail → (j ≤ units config)%nat ∧ Stretch 85 95 1 tail.
Proof.
  intros [results event Hpay Hlen | message Hzero | k message Hk].
  - split; [done |]. apply (Stretch_weaken 90 95); [| lia | lia].
    apply (Stretch_cons_status 95); [| lia]. apply (Stretch_cons_status 95); [| lia].
    apply Stretch_terminal; [lia | by eapply imagesPayload_terminal].
  - split; [lia |]. apply (Stretch_weaken 90 95); [| lia | lia].
    apply (Stretch_cons_status 95); [| lia]. apply (Stretch_cons_status 95); [| lia].
    by apply Stretch_terminal.
  - split; [lia |]. by apply Stretch_terminal.
Qed.

Lemma earlier_imageBranch_stretch config uploaded trendPrompt :
  Stretch 20 95 1 (trace (imageBranch config uploaded trendPrompt)).
Proof.
  destruct (earlier_imageBranch_run config uploaded trendPrompt) as [_ Hrun].
  pose proof (storylineStep_stretch config) as Hstep.
  destruct (completion (storylineStep config)) as [storylines | e].
  - destruct Hrun as (j & tail & Hend & ->).
    destruct (EarlierEnd_stretch config j tail Hend) as [Hj Htail].
    apply (Stretch_cons_status 22); [| lia].
    apply (Stretch_app 22 22 22 95 0 1); [done | | lia].
    apply (Stretch_app 22 85 85 95 0 1); [| done | lia].
    eapply Stretch_weaken; [apply earlier_units_stretch; simpl; lia | | lia].
    rewrite progressBase_zero. lia.
  - rewrite Hrun. apply (Stretch_cons_status 22); [| lia].
    apply (Stretch_app 22 22 22 95 0 1); [done | | lia].
    by apply Stretch_terminal.
Qed.

Lemma earlier_videoBranch_run config anchors trendPrompt :
  completion (videoBranch config anchors trendPrompt) = Returned tt ∧
  trace (videoBranch config anchors trendPrompt) =
    [ Emit (EarlierStatus "Connecting to Veo 3.1..." 20);
      Emit (EarlierStatus "Processing anchor image and narrative..." 30);
      Emit (EarlierStatus "Generating video loop (this may take a few minutes)..." 40);
      AskVideo (videoParams config anchors trendPrompt) ] ++
    match generateVideo world (videoParams config anchors trendPrompt) with
    | Returned result =>
      [ Emit (EarlierStatus "Video generated successfully!" 90);
        Emit (EarlierStatus "Preparing for preview..." 95);
        Emit (videoResultEvent config result) ]
    | Threw message => [Emit (EarlierError message)]
    end.
Proof.
  unfold EarlierRoute.videoBranch, callGenerateVideo. walk.
  destruct (generateVideo world _); by settle.
Qed.

Lemma earlier_videoBranch_stretch config anchors trendPrompt :
  Stretch 20 95 1 (trace (videoBranch config anchors trendPrompt)).
Proof.
  destruct (earlier_videoBranch_run config anchors trendPrompt) as [_ ->]. cbn [app].
  apply (Stretch_cons_status 30); [| lia]. apply (Stretch_cons_status 40); [| lia].
  apply (Stretch_cons_status 40); [| lia]. apply Stretch_cons_quiet; [| done ..].
  destruct (generateVideo world _).
  - apply (Stretch_weaken 90 95); [| lia | lia].
    apply (Stretch_cons_status 95); [| lia]. apply (Stretch_cons_status 95); [| lia].
    by apply Stretch_terminal.
  - by apply Stretch_terminal.
Qed.

Lemma earlier_POST_run request :
  POST request =
    match formData request with
    | Threw e => [Emit (EarlierError e); Finish]
    | Returned entries =>
      match Route.configText entries with
      | None => [Emit (EarlierError "No configuration provided"); Finish]
      | Some text =>
        match parseConfig text with
        | Threw e => [Emit (EarlierError e); Finish]
        | Returned config =>
          [ Emit (EarlierStatus "Initializing AI generation..." 5);
            Emit (EarlierStatus ("Processing " +:+ pretty (Route.fileCount entries) +:+
                                 " uploaded file(s)...") 10);
            Emit (EarlierStatus ("Applying " +:+ TextModel.quoted
                                   (GenerationConfig.trendType config) +:+
                                 " trend style...") 15) ] ++
          trace (earlierBranch config entries) ++
          [Emit (EarlierStatus "Complete!" 100); Finish]
        end
      end
    end.
Proof.
  unfold EarlierRoute.POST, handle. walk.
  destruct (formData request) as [entries | e]; [| by settle].
  destruct (Route.configText entries) as [text |]; [| by settle].
  walk. destruct (parseConfig text) as [config | e]; [| by settle].
  unfold generate. walk. fold (earlierBranch config entries).
  assert (completion (earlierBranch config entries) = Returned tt) as ->.
  { unfold EarlierRoute.branch. destruct (GenerationConfig.protocolType config).
    - apply earlier_imageBranch_run.
    - apply earlier_videoBranch_run. }
  by settle.
Qed.

Lemma earlierBranch_stretch config entries :
  Stretch 20 95 1 (trace (earlierBranch config entries)).
Proof.
  unfold EarlierRoute.branch. destruct (GenerationConfig.protocolType config).
  - apply earlier_imageBranch_stretch.
  - apply earlier_videoBranch_stretch.
Qed.

End EarlierHandler.

Section EarlierStream.
Import JS Steps Observe EarlierRoute.
Variable env : Env.
Variable world : World.
Variable toUpperCase : string → string.
Variable storylineContent : StorylineRequest.t → Completion ContentResponse.t.
Variable parseConfig : string → Completion GenerationConfig.t.

Local Abbreviation POST := (EarlierRoute.POST env world toUpperCase storylineContent parseConfig).
Local Abbreviation earlierBranch :=
  (EarlierRoute.branch env world toUpperCase storylineContent).

Lemma earlier_POST_shape request :
  (Readable parseConfig request ∧
   ∃ pre, POST request = pre ++ [Emit (EarlierStatus "Complete!" 100); Finish] ∧
          Stretch 5 95 1 pre) ∨
  (¬ Readable parseConfig request ∧
   ∃ message, POST request = [Emit (EarlierError message); Finish]).
Proof.
  rewrite earlier_POST_run. unfold Readable.
  destruct (formData request) as [entries | e].
  2: { right. split; [intros (? & ? & ? & ? & _); discriminate | by eexists]. }
  destruct (Route.configText entries) as [text |] eqn:Hconfig.
  2: { right. split; [intros (? & ? & ? & ? & ? & _); simplify_eq | by eexists]. }
  destruct (parseConfig text) as [config | e] eqn:Hparse.
  2: { right. split; [intros (? & ? & ? & ? & ? & ?); simplify_eq; congruence | by eexists]. }
  left. split; [by exists entries, text, config |].
  eexists (_ :: _ :: _ :: trace (earlierBranch config entries)). split.
  - cbn [app]. reflexivity.
  - apply (Stretch_cons_status 10); [| lia]. apply (Stretch_cons_status 15); [| lia].
    apply (Stretch_cons_status 20); [| lia].
    apply earlierBranch_stretch.
Qed.

(** X15. Every stream of the earlier endpoint is closed once, at its
    end, and holds exactly one result or error event; its progress
    values never decrease. The stream ends with the status event of
    progress 100 and its close, or, when the request is aborted, with
    an error event and its close, and then every status event carries
    less than 100. A request whose form and configuration are read, the
    configuration being of the declared type, ends in the first way:
    no failure of the text model or of a generator aborts it. *)
Theorem earlier_stream_has_one_outcome (request : NextRequest) :
  (∃ pre, POST request = pre ++ [Finish] ∧ Finish ∉ pre) ∧
  (∃ event, terminals (POST request) = [event]) ∧
  StronglySorted Z.le (statuses (POST request)) ∧
  ((last (statuses (POST request)) = Some 100%Z ∧
    ∃ pre, POST request = pre ++ [Emit (EarlierStatus "Complete!" 100); Finish]) ∨
   (Forall (λ p, (p < 100)%Z) (statuses (POST request)) ∧
    ∃ pre message, POST request = pre ++ [Emit (EarlierError message); Finish])) ∧
  (Readable parseConfig request → last (statuses (POST request)) = Some 100%Z).
Proof.
  destruct (earlier_POST_shape request)
    as [(Hread & pre & -> & (_ & Hsorted & Hbound) & Hone & Hopen) | (Hnot & message & ->)].
  - split_and!.
    + exists (pre ++ [Emit (EarlierStatus "Complete!" 100)]). split.
      * by rewrite <- app_assoc.
      * rewrite elem_of_app, list_elem_of_singleton. intros [? | ?]; [done | discriminate].
    + unfold terminals in *. rewrite omap_app.
      destruct (omap terminalOf pre) as [| event [| ? ?]]; try done. by exists event.
    + unfold statuses in *. rewrite omap_app.
      apply StronglySorted_app_2; [| done | repeat constructor].
      intros x1 x2 Hx1 [-> | []%elem_of_nil]%elem_of_cons.
      rewrite Forall_forall in Hbound. specialize (Hbound x1 Hx1). simpl in Hbound. lia.
    + left. split; [| by exists pre].
      unfold statuses. rewrite omap_app. apply last_snoc.
    + intros _. unfold statuses. rewrite omap_app. apply last_snoc.
  - split_and!.
    + exists [Emit (EarlierError message)]. split; [done |].
      rewrite list_elem_of_singleton. discriminate.
    + by exists (EarlierError message).
    + constructor.
    + right. split; [constructor | by exists [], message].
    + intros Hread. done.
Qed.

End EarlierStream.

Section EarlierCalls.
Import JS Steps Observe EarlierRoute.
Variable env : Env.
Variable world : World.
Variable toUpperCase : string → string.
Variable storylineContent : StorylineRequest.t → Completion ContentResponse.t.
Variable parseConfig : string → Completion GenerationConfig.t.

Local Abbreviation POST := (EarlierRoute.POST env world toUpperCase storylineContent parseConfig).
Local Abbreviation storylineStep :=
  (EarlierRoute.storylineStep env toUpperCase storylineContent).
Local Abbreviation imageBranch :=
  (EarlierRoute.imageBranch env world toUpperCase storylineContent).
Local Abbreviation videoBranch := (EarlierRoute.videoBranch world).
Local Abbreviation unitParams := (EarlierRoute.unitParams env).
Local Abbreviation units config := (Z.to_nat (Route.variantCountOf config)).

Lemma earlier_calls_app t1 t2 :
  imageCalls (t1 ++ t2) = imageCalls t1 ++ imageCalls t2 ∧
  videoCalls (t1 ++ t2) = videoCalls t1 ++ videoCalls t2.
Proof. unfold imageCalls, videoCalls. by rewrite !omap_app. Qed.

Lemma earlier_calls_emit event t :
  imageCalls (Emit event :: t) = imageCalls t ∧ videoCalls (Emit event :: t) = videoCalls t.
Proof. done. Qed.

Lemma storylineStep_calls config :
  imageCalls (trace (storylineStep config)) = [] ∧
  videoCalls (trace (storylineStep config)) = [].
Proof.
  destruct (storylineStep_run env toUpperCase storylineContent config)
    as [[_ ->] | (_ & -> & _)]; [done |].
  unfold imageCalls, videoCalls. cbn [omap list_omap statusOf imageCallOf videoCallOf].
  generalize (trace (Storylines.generateAIStorylines env toUpperCase storylineContent
                       (storylineParams config))).
  intros t. induction t as [| r t [IH1 IH2]]; [done |]. by cbn.
Qed.

Lemma earlier_units_calls config uploaded trendPrompt storylines (j : nat) : ∀ a : nat,
  imageCalls (flat_map (λ i : nat,
     [ Emit (EarlierStatus (Route.unitMessage config i)
               (Route.progressBase i (Route.variantCountOf config)));
       AskImage (unitParams config uploaded trendPrompt storylines i) ]) (seq a j)) =
    map (unitParams config uploaded trendPrompt storylines) (seq a j) ∧
  videoCalls (flat_map (λ i : nat,
     [ Emit (EarlierStatus (Route.unitMessage config i)
               (Route.progressBase i (Route.variantCountOf config)));
       AskImage (unitParams config uploaded trendPrompt storylines i) ]) (seq a j)) = [].
Proof.
  induction j as [| j IH]; intros a; [done |].
  destruct (IH (S a)) as [IH1 IH2]. cbn [seq flat_map app map].
  unfold imageCalls, videoCalls in *. cbn [omap list_omap statusOf imageCallOf videoCallOf].
  by rewrite IH1, IH2.
Qed.

Lemma ImageEnd_calls config j tail :
  ImageEnd config j tail → imageCalls tail = [] ∧ videoCalls tail = [].
Proof. by intros [results event _ _ | message _ | k message _]. Qed.

(** The calls of the image branch, and the storylines that decided the
    prompts. *)
Lemma earlier_imageBranch_calls config uploaded trendPrompt :
  videoCalls (trace (imageBranch config uploaded trendPrompt)) = [] ∧
  ∃ storylines j, (j ≤ units config)%nat ∧
    imageCalls (trace (imageBranch config uploaded trendPrompt)) =
      map (unitParams config uploaded trendPrompt storylines) (seq 0 j) ∧
    (j = 0%nat ∨ completion (storylineStep config) = Returned storylines).
Proof.
  destruct (earlier_imageBranch_run env world toUpperCase storylineContent
              config uploaded trendPrompt) as [_ Hrun].
  destruct (storylineStep_calls config) as [Hsi Hsv].
  destruct (completion (storylineStep config)) as [storylines | e].
  - destruct Hrun as (j & tail & Hend & ->).
    destruct (ImageEnd_calls config j tail Hend) as [Hti Htv].
    destruct (earlier_units_calls config uploaded trendPrompt storylines j 0) as [Hui Huv].
    destruct (EarlierEnd_stretch config j tail Hend) as [Hj _].
    split.
    + rewrite (proj2 (earlier_calls_emit _ _)), !(proj2 (earlier_calls_app _ _)).
      by rewrite Hsv, Huv, Htv.
    + exists storylines, j. split_and!; [done | | by right].
      rewrite (proj1 (earlier_calls_emit _ _)), !(proj1 (earlier_calls_app _ _)).
      by rewrite Hsi, Hui, Hti, app_nil_r.
  - rewrite Hrun. split.
    + rewrite (proj2 (earlier_calls_emit _ _)), !(proj2 (earlier_calls_app _ _)).
      by rewrite Hsv.
    + exists None, 0%nat. split_and!; [lia | | by left].
      rewrite (proj1 (earlier_calls_emit _ _)), !(proj1 (earlier_calls_app _ _)).
      by rewrite Hsi.
Qed.

Lemma earlier_POST_calls request entries text config :
  formData request = Returned entries →
  Route.configText entries = Some text →
  parseConfig text = Returned config →
  imageCalls (POST request) =
    imageCalls (trace (EarlierRoute.branch env world toUpperCase storylineContent
                         config entries)) ∧
  videoCalls (POST request) =
    videoCalls (trace (EarlierRoute.branch env world toUpperCase storylineContent
                         config entries)).
Proof.
  intros Hform Hconfig Hparse. rewrite earlier_POST_run, Hform, Hconfig, Hparse.
  cbn [app]. rewrite !(proj1 (earlier_calls_emit _ _)), !(proj2 (earlier_calls_emit _ _)).
  rewrite (proj1 (earlier_calls_app _ _)), (proj2 (earlier_calls_app _ _)).
  by rewrite !app_nil_r.
Qed.

Lemma hintedPrompt_prefix config trendPrompt i :
  ∃ rest, hintedPrompt config trendPrompt i = trendPrompt +:+ rest.
Proof.
  unfold hintedPrompt.
  destruct (GenerationConfig.varianceFactors config) as [[| f rest] |];
    try (exists EmptyString; by rewrite append_empty_r).
  case_bool_decide; [| exists EmptyString; by rewrite append_empty_r].
  destruct (variationHints (f :: rest) i);
    [exists EmptyString; by rewrite append_empty_r | by eexists].
Qed.

Lemma variantPrompt_prefix config trendPrompt storylines i :
  ∃ rest, variantPrompt env config trendPrompt storylines i = trendPrompt +:+ rest.
Proof.
  unfold variantPrompt.
  destruct (storylines ≫= _) as [storyline |]; [| apply hintedPrompt_prefix].
  destruct (JsValue.truthy storyline); [by eexists | apply hintedPrompt_prefix].
Qed.

Lemma earlier_image_calls request entries text config :
  formData request = Returned entries →
  Route.configText entries = Some text →
  parseConfig text = Returned config →
  GenerationConfig.protocolType config = IMAGE →
  ∃ storylines j, (j ≤ units config)%nat ∧
    imageCalls (POST request) =
      map (λ i, Route.imageParams config (Route.uploadedImages entries)
                  (variantPrompt env config
                     (trendPromptOf config (Route.uploadedImages entries)) storylines i))
          (seq 0 j) ∧
    (j = 0%nat ∨ completion (storylineStep config) = Returned storylines).
Proof.
  intros Hform Hconfig Hparse Himage.
  destruct (earlier_POST_calls request entries text config Hform Hconfig Hparse)
    as [-> _].
  unfold EarlierRoute.branch. rewrite Himage.
  destruct (earlier_imageBranch_calls config (Route.uploadedImages entries)
              (trendPromptOf config (Route.uploadedImages entries)))
    as (_ & storylines & j & Hj & Hcalls & Hstep).
  by exists storylines, j.
Qed.

(** X16. An image request of the earlier endpoint calls the image
    generator for the first units of the loop, in order, and never the
    video generator; the prompt of unit [i] is chosen by storyline [i],
    and each prompt starts with the trend prompt of the request. *)
Theorem earlier_image_prompts_extend_the_trend_prompt request entries text config :
  let uploaded := Route.uploadedImages entries in
  let trendPrompt := trendPromptOf config uploaded in
  formData request = Returned entries →
  Route.configText entries = Some text →
  parseConfig text = Returned config →
  GenerationConfig.protocolType config = IMAGE →
  videoCalls (POST request) = [] ∧
  ∃ storylines j, (j ≤ units config)%nat ∧
    imageCalls (POST request) =
      map (λ i, Route.imageParams config uploaded
                  (variantPrompt env config trendPrompt storylines i)) (seq 0 j) ∧
    (j = 0%nat ∨ completion (storylineStep config) = Returned storylines) ∧
    ∀ params, params ∈ imageCalls (POST request) →
      ∃ rest, ImageGenerationParams.prompt params = trendPrompt +:+ rest.
Proof.
  intros uploaded trendPrompt Hform Hconfig Hparse Himage.
  destruct (earlier_POST_calls request entries text config Hform Hconfig Hparse)
    as [-> ->].
  unfold EarlierRoute.branch. rewrite Himage. fold uploaded trendPrompt.
  destruct (earlier_imageBranch_calls config uploaded trendPrompt)
    as (Hvideo & storylines & j & Hj & Hcalls & Hstep).
  split; [done |]. exists storylines, j. split_and!; [done | done | done |].
  intros params. rewrite Hcalls. intros (i & -> & _)%list_elem_of_fmap.
  apply variantPrompt_prefix.
Qed.

End EarlierCalls.

Section EarlierScenarios.
Import JS Steps Observe EarlierRoute.
Variable env : Env.
Variable world : World.
Variable toUpperCase : string → string.
Variable storylineContent : StorylineRequest.t → Completion ContentResponse.t.
Variable parseConfig : string → Completion GenerationConfig.t.

Local Abbreviation POST := (EarlierRoute.POST env world toUpperCase storylineContent parseConfig).
Local Abbreviation storylineStep :=
  (EarlierRoute.storylineStep env toUpperCase storylineContent).
Local Abbreviation units config := (Z.to_nat (Route.variantCountOf config)).

Lemma errorFallback_lookup trendType n i :
  (i < Z.to_nat n)%nat →
  Storylines.errorFallback trendType n !! i =
    Some (JStr ("Creative variant " +:+ pretty (i + 1)%nat +:+ " in " +:+ trendType +:+
                " style. Professional composition optimized for TikTok.")).
Proof.
  intros Hi. unfold Storylines.errorFallback, Storylines.arrayFrom.
  by rewrite list_lookup_fmap, lookup_seq_lt.
Qed.

(** X17. With storylines asked for and an API key, a text model that
    throws leaves every unit of an image request with the numbered
    sentence of the storyline fallback as its creative concept, after
    the trend prompt. *)
Theorem earlier_fallback_storylines_reach_the_prompts request entries text config key :
  let uploaded := Route.uploadedImages entries in
  let trendPrompt := trendPromptOf config uploaded in
  let trend := js_or (Some (GenerationConfig.trendType config)) "standard-promo" in
  formData request = Returned entries →
  Route.configText entries = Some text →
  parseConfig text = Returned config →
  GenerationConfig.protocolType config = IMAGE →
  GenerationConfig.useAIStoryline config = Some true →
  TextModel.getClient env = Returned key →
  (∃ message, storylineContent
                (Storylines.request env toUpperCase (storylineParams config))
              = Threw message) →
  ∃ j, (j ≤ units config)%nat ∧
    imageCalls (POST request) =
      map (λ i : nat,
             Route.imageParams config uploaded
               (trendPrompt +:+ Prompt.nl +:+ Prompt.nl +:+ "Creative Concept: " +:+
                "Creative variant " +:+ pretty (i + 1)%nat +:+ " in " +:+ trend +:+
                " style. Professional composition optimized for TikTok."))
          (seq 0 j).
Proof.
  intros uploaded trendPrompt trend Hform Hconfig Hparse Himage Hstory Hkey Hthrows.
  destruct (earlier_image_calls env world toUpperCase
              storylineContent parseConfig request entries text config
              Hform Hconfig Hparse Himage)
    as (storylines & j & Hj & Hcalls & Hstep).
  fold uploaded trendPrompt in Hcalls.
  exists j. split; [done |]. rewrite Hcalls.
  apply map_ext_in. intros i Hi%in_seq. f_equal.
  destruct Hstep as [-> | Hstep]; [lia |].
  destruct (storylineStep_run env toUpperCase storylineContent config)
    as [[Hoff _] | (_ & _ & Hcompl)].
  { rewrite Hstory in Hoff. cbn in Hoff. apply bool_decide_eq_false in Hoff. lia. }
  rewrite Hcompl, (storylines_with_key env toUpperCase storylineContent _ key Hkey)
    in Hstep.
  destruct Hthrows as [message Hthrows]. rewrite Hthrows in Hstep.
  injection Hstep as <-.
  unfold variantPrompt. cbn [mbind option_bind].
  rewrite errorFallback_lookup by (cbn; lia). reflexivity.
Qed.

End EarlierScenarios.

Section EarlierVideo.
Import JS Steps Observe EarlierRoute.
Variable env : Env.
Variable world : World.
Variable toUpperCase : string → string.
Variable storylineContent : StorylineRequest.t → Completion ContentResponse.t.
Variable parseConfig : string → Completion GenerationConfig.t.

Local Abbreviation POST := (EarlierRoute.POST env world toUpperCase storylineContent parseConfig).

Lemma target_duration_occurs config uploaded :
  GenerationConfig.protocolType config = VIDEO →
  occurs_in ("Target duration: " +:+ js_or (GenerationConfig.videoLength config) "6s")
    (videoPromptOf config (trendPromptOf config uploaded)).
Proof.
  intros Hvideo.
  assert (occurs_in ("Target duration: " +:+ js_or (GenerationConfig.videoLength config) "6s")
            (trendPromptOf config uploaded)) as Htrend.
  { unfold trendPromptOf, TrendPrompt.buildTrendPrompt.
    do 3 apply occurs_in_app_r. unfold buildBasePrompt.
    apply occurs_in_join. unfold baseParts. rewrite Hvideo.
    rewrite !elem_of_app, !elem_of_cons. tauto. }
  unfold videoPromptOf. destruct (truthy_opt (GenerationConfig.narrative config)); [| done].
  by apply occurs_in_app_l.
Qed.

(** X18. The earlier endpoint calls the video generator at most once and
    never together with the image generator. The call carries the
    requested duration, 6s by default, also when anchor images are
    passed with it, and its prompt states that same duration. *)
Theorem earlier_video_keeps_the_requested_duration request params :
  params ∈ videoCalls (POST request) →
  ∃ entries text config,
    formData request = Returned entries ∧
    Route.configText entries = Some text ∧
    parseConfig text = Returned config ∧
    videoCalls (POST request) = [params] ∧
    imageCalls (POST request) = [] ∧
    VideoGenerationParams.duration params =
      Some (js_or (GenerationConfig.videoLength config) "6s") ∧
    VideoGenerationParams.anchorImages params =
      (if bool_decide (0 < length (Route.anchorImageBuffers entries))%nat
       then Some (Route.anchorImageBuffers entries) else None) ∧
    occurs_in ("Target duration: " +:+ js_or (GenerationConfig.videoLength config) "6s")
      (VideoGenerationParams.prompt params).
Proof.
  intros Hin.
  assert (∃ entries text config,
            formData request = Returned entries ∧
            Route.configText entries = Some text ∧
            parseConfig text = Returned config) as (entries & text & config & Hf & Hc & Hp).
  { rewrite earlier_POST_run in Hin.
    destruct (formData request) as [entries | e] eqn:Hform;
      [| by apply elem_of_nil in Hin].
    destruct (Route.configText entries) as [text |] eqn:Hconfig;
      [| by apply elem_of_nil in Hin].
    destruct (parseConfig text) as [config | e] eqn:Hparse;
      [| by apply elem_of_nil in Hin].
    by exists entries, text, config. }
  exists entries, text, config.
  destruct (earlier_POST_calls env world toUpperCase storylineContent parseConfig
              request entries text config Hf Hc Hp) as [Hi Hv].
  rewrite Hi, Hv. rewrite Hv in Hin. clear Hi Hv. unfold EarlierRoute.branch in *.
  destruct (GenerationConfig.protocolType config) eqn:Hprotocol.
  { destruct (earlier_imageBranch_calls env world toUpperCase storylineContent config
                (Route.uploadedImages entries)
                (trendPromptOf config (Route.uploadedImages entries))) as [Hnone _].
    rewrite Hnone in Hin. by apply elem_of_nil in Hin. }
  destruct (earlier_videoBranch_run world config (Route.anchorImageBuffers entries)
              (trendPromptOf config (Route.uploadedImages entries))) as [_ Htrace].
  rewrite Htrace in *. clear Htrace.
  assert (videoCalls
            ([ Emit (EarlierStatus "Connecting to Veo 3.1..." 20);
               Emit (EarlierStatus "Processing anchor image and narrative..." 30);
               Emit (EarlierStatus
                       "Generating video loop (this may take a few minutes)..." 40);
               AskVideo (videoParams config (Route.anchorImageBuffers entries)
                           (trendPromptOf config (Route.uploadedImages entries))) ] ++
             match generateVideo world
                     (videoParams config (Route.anchorImageBuffers entries)
                        (trendPromptOf config (Route.uploadedImages entries))) with
             | Returned result =>
               [ Emit (EarlierStatus "Video generated successfully!" 90);
                 Emit (EarlierStatus "Preparing for preview..." 95);
                 Emit (videoResultEvent config result) ]
             | Threw message => [Emit (EarlierError message)]
             end)
          = [videoParams config (Route.anchorImageBuffers entries)
               (trendPromptOf config (Route.uploadedImages entries))]) as Hcalls
    by (by destruct (generateVideo world _)).
  rewrite Hcalls in *. apply list_elem_of_singleton in Hin as ->.
  split_and!; try done.
  - by destruct (generateVideo world _).
  - by apply target_duration_occurs.
Qed.

End EarlierVideo.

(** ** More on the structured-prompt endpoint *)

Section ImageRequests.
Import Effect Observe JS Route GenerationConfig Shape.
Variable env : Env.
Variable world : World.
Variable parseConfig : string → Completion GenerationConfig.t.

Local Abbreviation POST := (Route.POST env world parseConfig).
Local Abbreviation units config := (Z.to_nat (variantCountOf config)).
Local Abbreviation promptOf config entries trend :=
  (Prompt.buildStructuredPrompt env (structuredPromptParams config entries trend)).
Local Abbreviation branchOf config entries trend :=
  (imageBranch env world config (uploadedImages entries) (promptOf config entries trend)
     trend).

(** Of an image request whose trend step returns, the stream shows the
    calls and the terminal events of its image branch. *)
Lemma POST_image_observed request entries text config trend :
  formData request = Returned entries →
  configText entries = Some text →
  parseConfig text = Returned config →
  protocolType config = IMAGE →
  completion (trendStep env world config) = Returned trend →
  imageCalls (POST request) = imageCalls (trace (branchOf config entries trend)) ∧
  videoCalls (POST request) = videoCalls (trace (branchOf config entries trend)) ∧
  terminals (POST request) = terminals (trace (branchOf config entries trend)) ∧
  last (statuses (POST request)) = Some 100%Z.
Proof.
  intros Hform Hconfig Hparse Himage Hstep.
  rewrite POST_run, Hform, Hconfig, Hparse.
  pose proof (generate_run env world config entries) as Hrun.
  pose proof (trendStep_callFree env world config) as Hfree.
  rewrite Hstep in Hrun. destruct Hrun as [-> ->].
  unfold dispatch. rewrite Himage, imageBranch_completion, app_nil_r.
  set (branch := trace (branchOf config entries trend)).
  assert (callFree (Enqueue (StatusEvent "Initializing AI generation..." 5) ::
                 Enqueue (StatusEvent ("Processing " +:+ pretty (fileCount entries) +:+
                                       " uploaded file(s)...") 10) ::
                 trace (trendStep env world config) ++
                 [Enqueue (StatusEvent "Applying structured prompt template..." 15)]))
    as Hbefore.
  { do 2 apply callFree_status. by apply callFree_app. }
  replace (Enqueue (StatusEvent "Initializing AI generation..." 5) ::
           Enqueue (StatusEvent ("Processing " +:+ pretty (fileCount entries) +:+
                                 " uploaded file(s)...") 10) ::
           trace (trendStep env world config) ++
           Enqueue (StatusEvent "Applying structured prompt template..." 15) ::
           branch ++ [Enqueue (StatusEvent "Complete!" 100); Close])
    with ((Enqueue (StatusEvent "Initializing AI generation..." 5) ::
           Enqueue (StatusEvent ("Processing " +:+ pretty (fileCount entries) +:+
                                 " uploaded file(s)...") 10) ::
           trace (trendStep env world config) ++
           [Enqueue (StatusEvent "Applying structured prompt template..." 15)]) ++
          branch ++ [Enqueue (StatusEvent "Complete!" 100); Close])
    by (cbn [app]; by rewrite <- app_assoc).
  destruct (callFree_before _ (branch ++ [Enqueue (StatusEvent "Complete!" 100); Close])
              Hbefore) as (-> & -> & ->).
  destruct (callFree_after branch [Enqueue (StatusEvent "Complete!" 100); Close])
    as (-> & -> & ->); [done |].
  split_and!; try done.
  unfold statuses. rewrite !omap_app.
  change (omap statusOf [Enqueue (StatusEvent "Complete!" 100); Close]) with [100%Z].
  by rewrite !app_assoc, last_snoc.
Qed.

(** The calls of the image branch once its variation step returned. *)
Lemma imageBranch_calls config uploaded prompt trend specs :
  completion (variationSpecsStep env world config trend) = Returned specs →
  ∃ j tail,
    ImageEnd env world config uploaded prompt specs j tail ∧
    imageCalls (trace (imageBranch env world config uploaded prompt trend)) =
      map (unitParams env config uploaded prompt specs) (seq 0 j) ∧
    videoCalls (trace (imageBranch env world config uploaded prompt trend)) = [] ∧
    terminals (trace (imageBranch env world config uploaded prompt trend)) =
      terminals tail.
Proof.
  intros Hspecs.
  pose proof (imageBranch_run env world config uploaded prompt trend) as Hrun.
  pose proof (variationSpecsStep_callFree env world config trend) as Hfree.
  rewrite Hspecs in Hrun. destruct Hrun as (j & tail & Hend & ->).
  exists j, tail. split; [done |].
  destruct (units_observed env config uploaded prompt specs j 0) as (Hi & Hv & Ht).
  assert (imageCalls tail = [] ∧ videoCalls tail = []) as [Hti Htv].
  { destruct Hend as [results event _ _ Hpay _ -> | message _ _ _ ->
                     | k message _ _ _ _ ->]; [| done | done].
    unfold imageResultPayload in Hpay. destruct results; [done |].
    by injection Hpay as <-. }
  change (connecting :: ?t) with ([connecting] ++ t).
  destruct (callFree_before [connecting]
              (trace (variationSpecsStep env world config trend) ++
               flat_map (unitActions env config uploaded prompt specs) (seq 0 j) ++ tail))
    as (-> & -> & ->); [done |].
  destruct (callFree_before (trace (variationSpecsStep env world config trend))
              (flat_map (unitActions env config uploaded prompt specs) (seq 0 j) ++ tail)
              Hfree) as (-> & -> & ->).
  destruct (observed_app
              (flat_map (unitActions env config uploaded prompt specs) (seq 0 j)) tail)
    as (-> & -> & ->).
  rewrite Hi, Hv, Ht, Hti, Htv, app_nil_r. done.
Qed.

End ImageRequests.

Section FallbackPrompts.
Import Effect Observe JS Route GenerationConfig Shape.
Variable env : Env.
Variable world : World.
Variable parseConfig : string → Completion GenerationConfig.t.

Local Abbreviation POST := (Route.POST env world parseConfig).
Local Abbreviation units config := (Z.to_nat (variantCountOf config)).

Lemma factorsToVary_some config factors :
  factorsToVary config = Some factors →
  varianceFactors config = Some factors ∧ (1 < variantCountOf config)%Z ∧ factors ≠ [].
Proof.
  unfold factorsToVary. destruct (varianceFactors config) as [l |]; [| done].
  destruct (bool_decide (1 < variantCountOf config)%Z) eqn:Hn; [| done].
  destruct (bool_decide (0 < length l)%nat) eqn:Hl; [| done].
  intros [= ->]. apply bool_decide_eq_true in Hn, Hl.
  split_and!; [done | done |]. by destruct factors; [simpl in Hl; lia |].
Qed.

Lemma variantPrompt_fallback prompt factors n i :
  (i < Z.to_nat (n - 1))%nat →
  variantPrompt env prompt (TextModel.fallbackValue factors n) (S i) =
    prompt +:+ Prompt.separator +:+
    Prompt.VARIATION_HEADER +:+ pretty (S i + 1)%nat +:+ ":

Lighting: " +:+ VariationSpec.lighting (TextModel.fallbackVariation factors i) +:+ "

Environment: " +:+ VariationSpec.environment (TextModel.fallbackVariation factors i) +:+ "

Camera Angle: " +:+ VariationSpec.cameraAngle (TextModel.fallbackVariation factors i) +:+ "

Materials: " +:+ VariationSpec.materials (TextModel.fallbackVariation factors i).
Proof.
  intros Hi. unfold variantPrompt, TextModel.fallbackValue. cbn [JsValue.index].
  rewrite list_lookup_fmap, generateFallbackVariations_lookup by done. cbn [fmap option_fmap option_map].
  reflexivity.
Qed.

(** X19. When the text model throws, every variant after the first gets
    the fallback variation of its rank: the prompt of variant [i + 2] is
    the structured prompt, the separator and a variation section whose
    four lines are entry [i] of the fallback, and the first prompt is
    the structured prompt alone. *)
Theorem fallback_variations_reach_the_prompts request entries text config trend
    factors key :
  let uploaded := uploadedImages entries in
  let prompt := Prompt.buildStructuredPrompt env (structuredPromptParams config entries trend) in
  let fallback := TextModel.fallbackVariation factors in
  formData request = Returned entries →
  configText entries = Some text →
  parseConfig text = Returned config →
  protocolType config = IMAGE →
  completion (trendStep env world config) = Returned trend →
  factorsToVary config = Some factors →
  TextModel.getClient env = Returned key →
  (∃ message,
     generateContent world
       (TextModel.variationRequest (baseCreativeDirection config trend)
          (js_or (brandGuidelines config) EmptyString) factors (variantCountOf config))
     = ContentThrows message) →
  ∃ j, (j ≤ units config)%nat ∧
    imageCalls (POST request) =
      map (λ i : nat,
             imageParams config uploaded
               match i with
               | O => prompt
               | S k =>
                 prompt +:+ Prompt.separator +:+
                 "VARIATION SPECIFICATIONS FOR VARIANT #" +:+ pretty (i + 1)%nat +:+ ":

Lighting: " +:+ VariationSpec.lighting (fallback k) +:+ "

Environment: " +:+ VariationSpec.environment (fallback k) +:+ "

Camera Angle: " +:+ VariationSpec.cameraAngle (fallback k) +:+ "

Materials: " +:+ VariationSpec.materials (fallback k)
               end)
          (seq 0 j).
Proof.
  intros uploaded prompt fallback Hform Hconfig Hparse Himage Hstep Hfactors Hkey
    [message Hthrows]. subst uploaded prompt fallback.
  destruct (POST_image_observed env world parseConfig request entries text config trend
              Hform Hconfig Hparse Himage Hstep) as (-> & _).
  destruct (factorsToVary_some config factors Hfactors) as (_ & Hn & Hne).
  assert (completion (variationSpecsStep env world config trend) =
            Returned (TextModel.fallbackValue factors (variantCountOf config))) as Hspecs.
  { unfold variationSpecsStep. rewrite Hfactors. run.
    rewrite (generateVariationSpecs_with_key env world _ _ factors _ key) by done.
    by rewrite Hthrows. }
  destruct (imageBranch_calls env world config (uploadedImages entries)
              (Prompt.buildStructuredPrompt env (structuredPromptParams config entries trend))
              trend _ Hspecs)
    as (j & tail & Hend & -> & _).
  exists j. split; [destruct Hend; lia |].
  apply map_ext_in. intros i Hi%in_seq. unfold unitParams. f_equal.
  destruct i as [| k]; [done |].
  rewrite variantPrompt_fallback; [done |]. destruct Hend; lia.
Qed.

End FallbackPrompts.

Section ImageResults.
Import Effect Observe JS Route GenerationConfig Shape.
Variable env : Env.
Variable world : World.
Variable parseConfig : string → Completion GenerationConfig.t.

Local Abbreviation POST := (Route.POST env world parseConfig).
Local Abbreviation units config := (Z.to_nat (variantCountOf config)).

Lemma imageLoop_results config uploaded prompt specs
    (outcome : nat → GenerationResult.t) (n : nat) : ∀ (a : nat) (results : list FileInfo.t),
  (∀ i, (a ≤ i < a + n)%nat →
        unitOutcome env world config uploaded prompt specs i = Returned (outcome i)) →
  imageLoop env world config uploaded prompt specs (seq a n) results =
    (flat_map (unitActions env config uploaded prompt specs) (seq a n),
     Returned (results ++ map (λ i, fileInfo (outcome i)) (seq a n))).
Proof.
  induction n as [| n IH]; intros a results Hall.
  - cbn. by rewrite app_nil_r.
  - change (seq a (S n)) with (a :: seq (S a) n). cbn [imageLoop].
    unfold callGenerateImage.
    change (generateImage world a _)
      with (unitOutcome env world config uploaded prompt specs a).
    rewrite (Hall a) by lia.
    unfold sendStatus, act, lift, mbind, M_bind, bind. cbn [app].
    rewrite (IH (S a)) by (intros; apply Hall; lia).
    cbn [map flat_map app]. unfold unitActions at 1. cbn [app].
    by rewrite <- app_assoc.
Qed.


End ImageResults.

Section CallBounds.
Import Effect Observe JS Route GenerationConfig Shape.
Variable env : Env.
Variable world : World.
Variable parseConfig : string → Completion GenerationConfig.t.

Local Abbreviation POST := (Route.POST env world parseConfig).
Local Abbreviation units config := (Z.to_nat (variantCountOf config)).

Lemma ImageEnd_bound config uploaded prompt specs j tail :
  ImageEnd env world config uploaded prompt specs j tail → (j ≤ units config)%nat.
Proof. intros []; lia. Qed.

(** X21. No request calls both generators; the video generator is called
    once at most, and an image request calls the image generator
    [variantCount] times at most and the video generator never. *)
Theorem generation_calls_are_bounded request :
  (imageCalls (POST request) = [] ∨ videoCalls (POST request) = []) ∧
  (length (videoCalls (POST request)) ≤ 1)%nat ∧
  (∀ entries text config,
     formData request = Returned entries →
     configText entries = Some text →
     parseConfig text = Returned config →
     protocolType config = IMAGE →
     (length (imageCalls (POST request)) ≤ units config)%nat ∧
     videoCalls (POST request) = []).
Proof.
  split_and!.
  - destruct (POST_Calls env world parseConfig request)
      as [message Hi Hv _ | config uploaded prompt specs j tail _ Hi Hv _
         | entries text config trend _ _ _ Hi Hv _]; auto.
  - destruct (POST_Calls env world parseConfig request)
      as [message Hi Hv _ | config uploaded prompt specs j tail _ Hi Hv _
         | entries text config trend _ _ _ Hi Hv _]; rewrite Hv; cbn; lia.
  - intros entries text config Hform Hconfig Hparse Himage.
    destruct (completion (trendStep env world config)) as [trend | e] eqn:Hstep.
    + destruct (POST_image_observed env world parseConfig request entries text config trend
                  Hform Hconfig Hparse Himage Hstep) as (-> & -> & _).
      pose proof (imageBranch_run env world config (uploadedImages entries)
                    (Prompt.buildStructuredPrompt env
                       (structuredPromptParams config entries trend)) trend) as Hrun.
      pose proof (variationSpecsStep_callFree env world config trend) as Hfree.
      destruct (completion (variationSpecsStep env world config trend))
        as [specs | e] eqn:Hspecs.
      * destruct (imageBranch_calls env world config (uploadedImages entries)
                    (Prompt.buildStructuredPrompt env
                       (structuredPromptParams config entries trend)) trend specs Hspecs)
          as (j & tail & Hend & -> & -> & _).
        split; [| done]. rewrite length_map, length_seq.
        by eapply ImageEnd_bound.
      * rewrite Hrun. change (connecting :: ?t) with ([connecting] ++ t).
        destruct (callFree_before [connecting]
                    (trace (variationSpecsStep env world config trend) ++
                     [Enqueue (ErrorEvent e)])) as (-> & -> & _); [done |].
        destruct (callFree_before (trace (variationSpecsStep env world config trend))
                    [Enqueue (ErrorEvent e)] Hfree) as (-> & -> & _).
        split; [cbn; lia | done].
    + rewrite POST_run, Hform, Hconfig, Hparse.
      pose proof (generate_run env world config entries) as Hrun.
      pose proof (trendStep_callFree env world config) as Hfree.
      rewrite Hstep in Hrun. destruct Hrun as [-> ->].
      assert (callFree (Enqueue (StatusEvent "Initializing AI generation..." 5) ::
                 Enqueue (StatusEvent ("Processing " +:+ pretty (fileCount entries) +:+
                                       " uploaded file(s)...") 10) ::
                 trace (trendStep env world config))) as Hbefore.
      { by do 2 apply callFree_status. }
      destruct (callFree_before _ [Enqueue (ErrorEvent e); Close] Hbefore)
        as (-> & -> & _).
      split; [cbn; lia | done].
Qed.

End CallBounds.

(** ** Fences around a reply *)

Section Fences.
Import JS TextModel.
Variable env : Env.

Local Abbreviation tick := ("`"%char).

(** No backtick in [s]. *)
Local Abbreviation plain s := (¬ occurs_in "`" s).

Lemma plain_cons c s : plain (String c s) → c ≠ tick ∧ plain s.
Proof.
  intros Hplain. split.
  - intros ->. apply Hplain. by exists EmptyString, s.
  - intros (pre & post & ->). apply Hplain. by exists (String c pre), post.
Qed.

Lemma openFenceLength_other c s : c ≠ tick → openFenceLength (String c s) = 0%nat.
Proof.
  intros Hc. unfold openFenceLength. cbn [String.prefix].
  destruct (Ascii.ascii_dec tick c) as [<- | _]; [done | reflexivity].
Qed.

Lemma stripOpenFences_plain body rest :
  plain body →
  stripOpenFences 0 (body +:+ rest) = body +:+ stripOpenFences 0 rest.
Proof.
  induction body as [| c body IH]; intros Hplain; [done |].
  destruct (plain_cons c body Hplain) as [Hc Hbody].
  change (String c body +:+ rest) with (String c (body +:+ rest)).
  cbn [stripOpenFences]. rewrite (openFenceLength_other c _ Hc), IH by done. done.
Qed.

Lemma stripClosingFence_plain body :
  plain body →
  stripClosingFence (body +:+ nl +:+ backticks) = body +:+ nl.
Proof.
  induction body as [| c body IH]; intros Hplain; [reflexivity |].
  destruct (plain_cons c body Hplain) as [Hc Hbody].
  change (String c body +:+ ?r) with (String c (body +:+ r)).
  cbn [stripClosingFence]. rewrite IH by done.
  assert (String.eqb (String c (body +:+ nl +:+ backticks)) backticks = false) as ->; [| done].
  unfold backticks. cbn [String.eqb]. by apply Ascii.eqb_neq in Hc as ->.
Qed.

Lemma stripOpenFences_json rest :
  stripOpenFences 0 ("```json" +:+ nl +:+ rest) = stripOpenFences 0 rest.
Proof.
  assert (openFenceLength ("```json" +:+ nl +:+ rest) = 8%nat) as Hlength
    by (destruct rest; reflexivity).
  change ("```json" +:+ nl +:+ rest) with (String tick ("``json" +:+ nl +:+ rest)) in *.
  cbn [stripOpenFences]. rewrite Hlength. reflexivity.
Qed.

(** X22. A reply that does not start with three backticks is parsed as
    it is. A reply fenced with [```json] lines is parsed without its
    fences. A reply fenced with bare [```] lines loses the closing fence
    only: the opening one stays in the text given to [JSON.parse]. *)
Theorem only_json_fences_are_removed (text body : string) :
  (startsWith (trim env text) backticks = false → truthy (trim env text) = true →
   cleanJson env (Some text) = trim env text) ∧
  (plain body →
   trim env text = "```json" +:+ nl +:+ body +:+ nl +:+ backticks →
   cleanJson env (Some text) = trim env (body +:+ nl)) ∧
  (plain body →
   trim env text = backticks +:+ nl +:+ body +:+ nl +:+ backticks →
   cleanJson env (Some text) = trim env (backticks +:+ nl +:+ body +:+ nl)).
Proof.
  unfold cleanJson. cbn [fmap option_fmap option_map]. split_and!.
  - intros Hstart Htruthy. unfold js_or. by rewrite Htruthy, Hstart.
  - intros Hplain ->. unfold js_or.
    change (truthy _) with true. cbn match.
    change (startsWith _ backticks) with true. cbn match. f_equal.
    rewrite stripOpenFences_json, stripOpenFences_plain by done.
    change (stripOpenFences 0 (nl +:+ backticks)) with (nl +:+ backticks).
    by apply stripClosingFence_plain.
  - intros Hplain ->. unfold js_or.
    change (truthy _) with true. cbn match.
    change (startsWith _ backticks) with true. cbn match. f_equal.
    change (stripOpenFences 0 (backticks +:+ nl +:+ body +:+ nl +:+ backticks))
      with ("```" +:+ nl +:+ stripOpenFences 0 (body +:+ nl +:+ backticks)).
    rewrite stripOpenFences_plain by done.
    change (stripOpenFences 0 (nl +:+ backticks)) with (nl +:+ backticks).
    change (stripClosingFence ("```" +:+ nl +:+ body +:+ nl +:+ backticks))
      with ("```" +:+ nl +:+ stripClosingFence (body +:+ nl +:+ backticks)).
    by rewrite stripClosingFence_plain.
Qed.

End Fences.

(** ** The reader of the event stream *)

Section StreamFraming.

Import JS StreamReader.

Lemma splitFrom_pieces separator skip s : splitFrom separator skip s ≠ [].
Proof.
  revert skip. induction s as [|c r IH]; intros skip; [done|].
  cbn [splitFrom]. destruct skip; [|apply IH].
  destruct (startsWith _ _); [done|].
  specialize (IH 0%nat). by destruct (splitFrom separator 0 r).
Qed.

Lemma pieces_last (l : list string) : l ≠ [] → ∃ ms buf, l = ms ++ [buf].
Proof.
  intros H. destruct (exists_last H) as (ms & buf & ->). by exists ms, buf.
Qed.

(** A text shorter than the separator is one piece. *)
Lemma splitFrom_short separator s :
  (String.length s < String.length separator)%nat → splitFrom separator 0 s = [s].
Proof.
  induction s as [|c r IH]; [done|].
  intros Hlen. cbn [splitFrom].
  destruct (startsWith (String c r) separator) eqn:Hp.
  - apply startsWith_length in Hp. lia.
  - rewrite IH; [done|]. cbn in Hlen. lia.
Qed.

(** A text that is one piece is that piece. *)
Lemma splitFrom_single separator s buf : splitFrom separator 0 s = [buf] → buf = s.
Proof.
  revert buf. induction s as [|c r IH]; intros buf; [by intros [= <-]|].
  cbn [splitFrom]. destruct (startsWith _ _).
  - intros [= _ H]. by destruct (splitFrom_pieces _ _ _ H).
  - destruct (splitFrom separator 0 r) as [|p ps] eqn:Hr; [by destruct (splitFrom_pieces _ _ _ Hr)|].
    cbn. intros [= <- ->]. by rewrite (IH p).
Qed.

(** The pieces of a text that goes on are its pieces but the last,
    then the pieces of the last one with what follows. *)
Lemma splitFrom_app separator a b : ∀ skip ms buf,
  (skip ≤ String.length a)%nat →
  splitFrom separator skip a = ms ++ [buf] →
  splitFrom separator skip (a +:+ b) = ms ++ splitFrom separator 0 (buf +:+ b).
Proof.
  induction a as [|c r IH]; intros skip ms buf Hskip.
  - cbn in Hskip. assert (skip = 0%nat) as -> by lia.
    cbn [splitFrom]. intros H.
    destruct ms as [|m ms]; [by injection H as <-|].
    by destruct ms.
  - rewrite append_cons. cbn [splitFrom]. destruct skip as [|k].
    + destruct (startsWith (String c r) separator) eqn:Hp.
      * rewrite <- append_cons, (startsWith_more _ b _ Hp).
        apply startsWith_length in Hp. cbn in Hp.
        destruct ms as [|m ms]; cbn [app].
        -- intros [= _ H]. by destruct (splitFrom_pieces _ _ _ H).
        -- intros [= <- H]. f_equal. apply IH; [lia|done].
      * destruct (startsWith (String c (r +:+ b)) separator) eqn:Hq.
        -- (* the separator straddles the end of the text *)
           destruct (decide (String.length (String c r) < String.length separator)%nat)
             as [Hlt|Hge].
           ++ assert (splitFrom separator 0 r = [r]) as ->
                by (apply splitFrom_short; cbn in Hlt; lia).
              cbn. intros H. destruct ms as [|m ms]; [|by destruct ms].
              injection H as <-. cbn [app]. rewrite append_cons. cbn [splitFrom].
              by rewrite Hq.
           ++ exfalso. clear IH.
              assert (∀ p s t, (String.length p ≤ String.length s)%nat →
                        startsWith (s +:+ t) p = true → startsWith s p = true) as Hcut.
              { clear. induction p as [|d p IH]; intros s t Hlen; [intros _; apply startsWith_nil|].
                destruct s as [|c s]; [cbn in Hlen; lia|].
                rewrite append_cons, !startsWith_cons.
                intros [? ?]%andb_prop. apply andb_true_intro. split; [done|].
                apply (IH s t); [cbn in Hlen; lia|done]. }
              rewrite (Hcut separator (String c r) b) in Hp; [done|lia|done].
        -- destruct (pieces_last _ (splitFrom_pieces separator 0 r)) as (ms0 & buf0 & Hr).
           rewrite (IH 0%nat ms0 buf0) by (lia || done). rewrite Hr.
           destruct ms0 as [|m ms0]; cbn [app extend].
           ++ intros H. destruct ms as [|m ms]; [|by destruct ms].
              injection H as <-. cbn [app]. rewrite append_cons. cbn [splitFrom].
              apply splitFrom_single in Hr as ->. by rewrite Hq.
           ++ intros H. change (String c m :: ms0 ++ [buf0]) with ((String c m :: ms0) ++ [buf0]) in H.
              apply app_inj_tail in H as [<- <-]. done.
    + intros H. apply IH; [cbn in Hskip; lia|done].
Qed.

Lemma removelast_snoc {A} (l : list A) x : removelast (l ++ [x]) = l.
Proof. apply removelast_last. Qed.

Lemma turn_snoc buffer value ms buf :
  split (buffer +:+ value) (nl +:+ nl) = ms ++ [buf] →
  turn buffer value = (ms, buf).
Proof.
  unfold turn. intros ->. rewrite removelast_snoc, last_snoc.
  f_equal. by destruct buf.
Qed.

Lemma append_assoc (a b c : string) : (a +:+ b) +:+ c = a +:+ (b +:+ c).
Proof. induction a as [|x a IH]; [done|]. by rewrite !append_cons, IH. Qed.

Lemma append_nil_r (a : string) : a +:+ EmptyString = a.
Proof. induction a as [|x a IH]; [done|]. by rewrite append_cons, IH. Qed.

(** What the loop parses from a buffer that holds no blank line. *)
Lemma readFrom_split chunks : ∀ buffer,
  split buffer (nl +:+ nl) = [buffer] →
  readFrom buffer chunks =
    flat_map jsonTexts (removelast (split (buffer +:+ textOf chunks) (nl +:+ nl))).
Proof.
  induction chunks as [|value later IH]; intros buffer Hbuffer.
  - cbn [textOf foldr readFrom]. rewrite append_nil_r, Hbuffer. done.
  - cbn [textOf foldr readFrom]. fold (textOf later).
    destruct (pieces_last _ (splitFrom_pieces (nl +:+ nl) 0 (buffer +:+ value)))
      as (ms & buf & Hturn).
    rewrite (turn_snoc _ _ _ _ Hturn). cbn [fst snd].
    rewrite <- append_assoc.
    unfold split. rewrite (splitFrom_app _ _ (textOf later) 0 ms buf); [|lia|exact Hturn].
    assert (split buf (nl +:+ nl) = [buf]) as Hbuf.
    { generalize (splitFrom_app (nl +:+ nl) (buffer +:+ value) EmptyString 0 ms buf
                    ltac:(lia) Hturn).
      rewrite !append_nil_r, Hturn. intros H%app_inv_head. done. }
    rewrite (IH buf Hbuf).
    destruct (pieces_last _ (splitFrom_pieces (nl +:+ nl) 0 (buf +:+ textOf later)))
      as (ms' & buf' & Hrest).
    unfold split. rewrite Hrest, app_assoc, !removelast_snoc, flat_map_app. done.
Qed.

Lemma nl_cons : nl = String "010"%char EmptyString.
Proof. reflexivity. Qed.

Lemma oneLine_app a b : oneLine (a +:+ b) = oneLine a && oneLine b.
Proof.
  induction a as [|c a IH]; [done|].
  rewrite append_cons. cbn [oneLine]. by rewrite IH, andb_assoc.
Qed.

(** No separator that starts with a line feed is found where a line
    goes on. *)
Lemma oneLine_startsWith c r b p :
  oneLine (String c r) = true → startsWith (String c r +:+ b) (nl +:+ p) = false.
Proof.
  cbn [oneLine]. intros [Hc _]%andb_prop. apply negb_true_iff in Hc.
  rewrite nl_cons, !append_cons, startsWith_cons.
  rewrite bool_decide_false; [done|].
  intros <-. by rewrite Ascii.eqb_refl in Hc.
Qed.

Lemma oneLine_split s p : oneLine s = true → split s (nl +:+ p) = [s].
Proof.
  unfold split. induction s as [|c r IH]; [done|].
  intros Hs. cbn [splitFrom].
  generalize (oneLine_startsWith c r EmptyString p Hs). rewrite append_nil_r. intros ->.
  cbn [oneLine] in Hs. apply andb_prop in Hs as [_ Hr]. by rewrite (IH Hr).
Qed.

(** A line that ends with a blank line is the first piece. *)
Lemma split_blank_line x rest :
  oneLine x = true →
  split (x +:+ nl +:+ nl +:+ rest) (nl +:+ nl) = x :: split rest (nl +:+ nl).
Proof.
  unfold split. induction x as [|c r IH]; intros Hx.
  - by destruct rest.
  - rewrite append_cons. cbn [splitFrom]. rewrite <- append_cons.
    rewrite (oneLine_startsWith c r _ nl Hx).
    cbn [oneLine] in Hx. apply andb_prop in Hx as [_ Hr]. by rewrite (IH Hr).
Qed.

Lemma split_frames texts tail :
  Forall (λ text, oneLine text = true) texts →
  oneLine tail = true →
  split (textOf (map frame texts) +:+ tail) (nl +:+ nl) =
    map (String.append "data: ") texts ++ [tail].
Proof.
  intros Htexts Htail. induction Htexts as [|text texts Htext _ IH].
  - by apply oneLine_split.
  - cbn [map textOf foldr app]. fold (textOf (map frame texts)).
    unfold frame at 1. rewrite !append_assoc.
    rewrite <- (append_assoc "data: " text).
    rewrite split_blank_line, IH; [done|].
    by rewrite oneLine_app, Htext.
Qed.

Lemma jsonTexts_data text : oneLine text = true → jsonTexts ("data: " +:+ text) = [text].
Proof.
  intros Htext. unfold jsonTexts.
  rewrite (oneLine_split _ EmptyString) by (by rewrite oneLine_app, Htext).
  cbn [List.filter]. rewrite startsWith_app. cbn [map].
  f_equal. rewrite !append_cons. cbn [dropFirst].
  rewrite <- !append_cons, startsWith_app. reflexivity.
Qed.

Lemma read_split chunks :
  read chunks = flat_map jsonTexts (removelast (split (textOf chunks) (nl +:+ nl))).
Proof. unfold read. by rewrite readFrom_split. Qed.

(** X23. The dashboard parses the same texts however the response is cut
    into chunks: they are those of the pieces that the blank lines of
    the whole text end, the last piece being left unread. *)
Theorem reader_ignores_chunk_boundaries chunks :
  read chunks = flat_map jsonTexts (removelast (split (textOf chunks) (nl +:+ nl))) ∧
  ∀ others, textOf others = textOf chunks → read others = read chunks.
Proof.
  split; [apply read_split|].
  intros others Hsame. by rewrite !read_split, Hsame.
Qed.

(** X24. Texts without a line feed that are written as the endpoints
    write their events are read back by the dashboard, each once and in
    order, however the stream is cut into chunks; what follows the last
    blank line is never parsed. *)
Theorem framed_texts_are_read_back texts tail chunks :
  Forall (λ text, oneLine text = true) texts →
  oneLine tail = true →
  textOf chunks = textOf (map frame texts) +:+ tail →
  read chunks = texts.
Proof.
  intros Htexts Htail Hstream.
  rewrite read_split, Hstream, split_frames, removelast_snoc by done.
  clear Hstream. induction Htexts as [|text texts Htext _ IH]; [done|].
  cbn [map flat_map]. by rewrite jsonTexts_data, IH.
Qed.

End StreamFraming.

(** ** The properties on examples *)

Section Scenes.
Import JS Steps.

Lemma storylines_have_the_requested_count_witness :
  ∃ storylines,
    completion (Storylines.generateAIStorylines Sample.env Scene.upper Scene.storyDown
                  Scene.threeConcepts) = Returned storylines ∧
    length storylines = 3%nat.
Proof.
  apply (storylines_have_the_requested_count Sample.env Scene.upper Scene.storyDown
           Scene.threeConcepts "key").
  - reflexivity.
  - simpl. lia.
Defined.

Lemma storylines_reply_cut_or_filled_witness :
  completion (Storylines.generateAIStorylines Sample.env Scene.upper
                (Scene.storyAnswering "[]") Scene.threeConcepts) =
    Returned (replicate 3
                (JStr "Additional creative variant in go-analogue style with distinct visual approach.")).
Proof.
  apply (storylines_reply_cut_or_filled Sample.env Scene.upper (Scene.storyAnswering "[]")
           Scene.threeConcepts "key" (Scene.reply [Scene.textPart "[]"]) []).
  - reflexivity.
  - simpl. lia.
  - reflexivity.
  - reflexivity.
Defined.

Lemma storylines_fall_back_to_numbered_sentences_witness :
  completion (Storylines.generateAIStorylines Sample.env Scene.upper
                (Scene.storyAnswering "{}") Scene.threeConcepts) =
    Returned
      [ JStr "Creative variant 1 in go-analogue style with unique composition and lighting.";
        JStr "Creative variant 2 in go-analogue style with unique composition and lighting.";
        JStr "Creative variant 3 in go-analogue style with unique composition and lighting." ].
Proof.
  apply (proj2 (storylines_fall_back_to_numbered_sentences Sample.env Scene.upper
                  (Scene.storyAnswering "{}") Scene.threeConcepts "key" eq_refl)
           (Scene.reply [Scene.textPart "{}"])).
  - reflexivity.
  - intros reply. vm_compute. discriminate.
Defined.

Lemma image_request_is_references_then_prompt_witness :
  ImageClient.generateImage Sample.env None Scene.clock Scene.painting (Scene.bottle "1:1" 1) =
  ImageClient.generateImage Sample.env None Scene.clock Scene.painting (Scene.bottle "16:9" 4).
Proof.
  apply (proj2 (image_request_is_references_then_prompt Sample.env None Scene.clock
                  Scene.painting)); reflexivity.
Defined.

Lemma image_result_is_first_image_part_witness :
  completion (ImageClient.generateImage Sample.env None Scene.clock Scene.painting
                (Scene.bottle "1:1" 1)) =
    Returned {| GenerationResult.type := image;
                GenerationResult.filePath := "data:image/jpeg;base64,QUJD";
                GenerationResult.fileName := "image_1700000000000_82mvyr.png";
                GenerationResult.mimeType := "image/jpeg" |}.
Proof.
  etransitivity; [| vm_compute; reflexivity].
  apply (image_result_is_first_image_part Sample.env None Scene.clock Scene.painting
           (Scene.bottle "1:1" 1) "key"
           (Scene.reply [ Scene.textPart "Here is your image.";
                          Scene.imagePart "image/jpeg" "QUJD";
                          Scene.imagePart "image/png" "REVG" ])
           [Scene.textPart "Here is your image."]
           (Scene.imagePart "image/jpeg" "QUJD")
           [Scene.imagePart "image/png" "REVG"] "image/jpeg" "QUJD").
  - reflexivity.
  - reflexivity.
  - reflexivity.
  - repeat constructor.
  - reflexivity.
  - reflexivity.
Defined.

Lemma image_failures_are_labelled_witness :
  ∃ response,
    Scene.wordsOnly (ImageClient.request Sample.env None (Scene.bottle "1:1" 1))
      = Returned response ∧
    ∀ parts, ContentResponse.firstParts response = Some parts →
             Forall (λ p, ImageClient.isImagePart p = false) parts.
Proof.
  destruct (image_failures_are_labelled Sample.env None Scene.clock Scene.wordsOnly
              (Scene.bottle "1:1" 1) "key"
              "Image generation failed: Model did not return an image."
              eq_refl eq_refl)
    as [(cause & Hcall & _) | (response & Hcall & Hparts & _)].
  - discriminate Hcall.
  - exists response. split; [exact Hcall | exact Hparts].
Defined.

Lemma video_polling_is_paced_witness :
  VideoJob.Paced (VideoClient.generateVideosRequest Sample.env (Sample.clipOf "8s"))
    (trace (VideoJob.generateVideo Sample.env Scene.clock
              (Scene.host Scene.bareFile (Some 2%nat) (Returned tt))
              (Sample.clipOf "8s"))).
Proof.
  apply (video_polling_is_paced Sample.env Scene.clock
           (Scene.host Scene.bareFile (Some 2%nat) (Returned tt)) (Sample.clipOf "8s") "key").
  reflexivity.
Defined.

Lemma video_times_out_after_thirty_polls_witness :
  completion (VideoJob.generateVideo Sample.env Scene.clock
                (Scene.host Scene.bareFile None (Returned tt)) (Sample.clipOf "8s")) =
    Threw "Video generation failed: Video generation timed out after 5 minutes".
Proof.
  apply (video_times_out_after_thirty_polls Sample.env Scene.clock
           (Scene.host Scene.bareFile None (Returned tt)) (Sample.clipOf "8s") "key"
           Scene.pending).
  - reflexivity.
  - reflexivity.
  - reflexivity.
  - intros k operation. exists Scene.pending. split; reflexivity.
Defined.

Lemma video_is_read_back_from_its_download_witness :
  completion (VideoJob.generateVideo Sample.env Scene.clock
                (Scene.host Scene.bareFile (Some 2%nat) (Threw "EPERM"))
                (Sample.clipOf "8s")) =
    Returned {| GenerationResult.type := video;
                GenerationResult.filePath := "data:video/mp4;base64,AA==";
                GenerationResult.fileName := "video_1700000000000_82mvyr.mp4";
                GenerationResult.mimeType := "video/mp4" |}.
Proof.
  etransitivity; [| vm_compute; reflexivity].
  apply (video_is_read_back_from_its_download Sample.env Scene.clock
           (Scene.host Scene.bareFile (Some 2%nat) (Threw "EPERM")) (Sample.clipOf "8s")
           "key" Scene.bareFile Sample.png).
  - reflexivity.
  - vm_compute. reflexivity.
  - reflexivity.
  - reflexivity.
  - reflexivity.
Defined.

Lemma earlier_video_prefers_address_then_bytes_witness :
  trace (VideoJob.generateVideoEarlier Sample.env Scene.clock
           (Scene.host Scene.addressedFile (Some 1%nat) (Returned tt))
           (Sample.clipOf "8s")) =
    trace (VideoJob.awaitVideo Sample.env
             (Scene.host Scene.addressedFile (Some 1%nat) (Returned tt))
             (Sample.clipOf "8s")) ++
    [Fetch "https://videos.example/1"] ∧
  completion (VideoJob.generateVideoEarlier Sample.env Scene.clock
                (Scene.host Scene.bytesFile (Some 1%nat) (Returned tt))
                (Sample.clipOf "8s")) =
    Returned (VideoJob.videoResult (generateFileName Scene.clock "video" "mp4")
                "data:video/mp4;base64,AAAA").
Proof.
  split.
  - apply (proj1 (earlier_video_prefers_address_then_bytes Sample.env Scene.clock
                    (Scene.host Scene.addressedFile (Some 1%nat) (Returned tt))
                    (Sample.clipOf "8s") "key" Scene.addressedFile eq_refl
                    ltac:(vm_compute; reflexivity))
             "https://videos.example/1"); reflexivity.
  - apply (proj1 (proj2 (earlier_video_prefers_address_then_bytes Sample.env Scene.clock
                    (Scene.host Scene.bytesFile (Some 1%nat) (Returned tt))
                    (Sample.clipOf "8s") "key" Scene.bytesFile eq_refl
                    ltac:(vm_compute; reflexivity)))
             "AAAA"); reflexivity.
Defined.

Lemma failed_removal_fails_the_earlier_version_only_witness :
  completion (VideoJob.generateVideoEarlier Sample.env Scene.clock
                (Scene.host Scene.bareFile (Some 2%nat) (Threw "EPERM"))
                (Sample.clipOf "8s")) =
    Threw "Video generation failed: EPERM".
Proof.
  apply (failed_removal_fails_the_earlier_version_only Sample.env Scene.clock
           (Scene.host Scene.bareFile (Some 2%nat) (Threw "EPERM")) (Sample.clipOf "8s")
           "key" Scene.bareFile Sample.png "EPERM").
  - reflexivity.
  - vm_compute. reflexivity.
  - reflexivity.
  - reflexivity.
  - reflexivity.
  - reflexivity.
  - reflexivity.
  - reflexivity.
Defined.

Lemma missing_key_is_raised_before_any_step_witness :
  VideoJob.generateVideo Sample.envWithoutKey Scene.clock
    (Scene.host Scene.bareFile (Some 2%nat) (Returned tt)) (Sample.clipOf "8s") =
    ([], Threw "GOOGLE_API_KEY or GEMINI_API_KEY must be set in .env.local").
Proof.
  apply (missing_key_is_raised_before_any_step Sample.envWithoutKey Scene.clock
           (Scene.host Scene.bareFile (Some 2%nat) (Returned tt)) None Scene.upper
           Scene.painting Scene.storyDown
           "GOOGLE_API_KEY or GEMINI_API_KEY must be set in .env.local").
  reflexivity.
Defined.

Lemma video_failures_name_the_generator_witness :
  TextModel.getClient Sample.env =
    Threw "Video generation failed: Video generation timed out after 5 minutes" ∨
  ∃ cause, "Video generation failed: Video generation timed out after 5 minutes" =
           "Video generation failed: " +:+ cause.
Proof.
  apply (proj1 (video_failures_name_the_generator Sample.env Scene.clock
                  (Scene.host Scene.bareFile None (Returned tt)) Scene.upper
                  Scene.storyDown
                  "Video generation failed: Video generation timed out after 5 minutes")
           (Sample.clipOf "8s")).
  left. vm_compute. reflexivity.
Defined.

Lemma trend_prompt_falls_back_to_standard_promo_witness :
  TrendPrompt.buildTrendPrompt "A bottle on a table." "constructor" image =
  TrendPrompt.buildTrendPrompt "A bottle on a table." "standard-promo" image.
Proof.
  apply (proj1 (proj2 (trend_prompt_falls_back_to_standard_promo
                         "A bottle on a table." "constructor" image))).
  reflexivity.
Defined.

Lemma earlier_stream_has_one_outcome_witness :
  last (EarlierRoute.statuses
          (EarlierRoute.POST Sample.env Sample.secondImageFails Scene.upper Scene.storyDown
             Scene.parseConfig Scene.conceptImagesRequest)) = Some 100%Z.
Proof.
  apply (proj2 (proj2 (proj2 (proj2
           (earlier_stream_has_one_outcome Sample.env Sample.secondImageFails Scene.upper
              Scene.storyDown Scene.parseConfig Scene.conceptImagesRequest))))).
  exists [ ("config", FormText Scene.conceptImagesText);
           ("productImage_0", FormFile Sample.png) ],
         Scene.conceptImagesText, Scene.conceptImages.
  split_and!; reflexivity.
Defined.

Lemma earlier_image_prompts_extend_the_trend_prompt_witness :
  EarlierRoute.videoCalls
    (EarlierRoute.POST Sample.env Sample.textModelDown Scene.upper Scene.storyDown
       Scene.parseConfig Sample.threeImagesRequest) = [].
Proof.
  apply (earlier_image_prompts_extend_the_trend_prompt Sample.env Sample.textModelDown
           Scene.upper Scene.storyDown Scene.parseConfig Sample.threeImagesRequest
           [ ("config", FormText Sample.threeImagesText);
             ("productImage_0", FormFile Sample.png) ]
           Sample.threeImagesText Sample.threeImages); reflexivity.
Defined.

Lemma earlier_fallback_storylines_reach_the_prompts_witness :
  ∃ j, (j ≤ 2)%nat ∧
    map ImageGenerationParams.prompt
      (EarlierRoute.imageCalls
         (EarlierRoute.POST Sample.env Sample.textModelDown Scene.upper Scene.storyDown
            Scene.parseConfig Scene.conceptImagesRequest)) =
    map (λ i : nat,
           EarlierRoute.trendPromptOf Scene.conceptImages [Sample.png] +:+ Prompt.nl +:+
           Prompt.nl +:+ "Creative Concept: " +:+ "Creative variant " +:+
           pretty (i + 1)%nat +:+ " in standard-promo style. " +:+
           "Professional composition optimized for TikTok.")
        (seq 0 j).
Proof.
  destruct (earlier_fallback_storylines_reach_the_prompts Sample.env Sample.textModelDown
              Scene.upper Scene.storyDown Scene.parseConfig Scene.conceptImagesRequest
              [ ("config", FormText Scene.conceptImagesText);
                ("productImage_0", FormFile Sample.png) ]
              Scene.conceptImagesText Scene.conceptImages "key"
              eq_refl eq_refl eq_refl eq_refl eq_refl eq_refl
              (ex_intro _ "fetch failed" eq_refl)) as (j & Hj & Hcalls).
  exists j. split; [exact Hj |]. rewrite Hcalls, map_map. reflexivity.
Defined.

Lemma earlier_video_keeps_the_requested_duration_witness :
  ∃ params,
    EarlierRoute.videoCalls
      (EarlierRoute.POST Sample.env Sample.textModelDown Scene.upper Scene.storyDown
         Scene.parseConfig Sample.anchoredVideoRequest) = [params] ∧
    VideoGenerationParams.duration params = Some "4s" ∧
    VideoGenerationParams.anchorImages params = Some [Sample.png; Sample.png].
Proof.
  exists (EarlierRoute.videoParams Sample.anchoredVideo [Sample.png; Sample.png]
            (EarlierRoute.trendPromptOf Sample.anchoredVideo [])).
  destruct (earlier_video_keeps_the_requested_duration Sample.env Sample.textModelDown
              Scene.upper Scene.storyDown Scene.parseConfig Sample.anchoredVideoRequest
              (EarlierRoute.videoParams Sample.anchoredVideo [Sample.png; Sample.png]
                 (EarlierRoute.trendPromptOf Sample.anchoredVideo [])))
    as (entries & text & config & _ & _ & _ & Hcalls & _).
  - vm_compute. left.
  - split; [exact Hcalls | split; reflexivity].
Defined.

Lemma fallback_variations_reach_the_prompts_witness :
  ∃ j, (j ≤ 3)%nat ∧
    length (Observe.imageCalls
              (Route.POST Sample.env Sample.textModelDown Scene.parseConfig
                 Scene.variedImagesRequest)) = j.
Proof.
  destruct (fallback_variations_reach_the_prompts Sample.env Sample.textModelDown
              Scene.parseConfig Scene.variedImagesRequest
              [ ("config", FormText Scene.variedImagesText);
                ("productImage_0", FormFile Sample.png) ]
              Scene.variedImagesText Scene.variedImages None ["lighting"] "key"
              eq_refl eq_refl eq_refl eq_refl eq_refl eq_refl eq_refl
              (ex_intro _ "fetch failed" eq_refl)) as (j & Hj & Hcalls).
  exists j. split; [exact Hj |]. by rewrite Hcalls, length_map, length_seq.
Defined.


Lemma generation_calls_are_bounded_witness :
  (length (Observe.imageCalls
             (Route.POST Sample.env Sample.secondImageFails Sample.parseConfig
                Sample.threeImagesRequest)) ≤ 3)%nat.
Proof.
  apply (proj2 (proj2 (generation_calls_are_bounded Sample.env Sample.secondImageFails
                         Sample.parseConfig Sample.threeImagesRequest))
           [ ("config", FormText Sample.threeImagesText);
             ("productImage_0", FormFile Sample.png) ]
           Sample.threeImagesText Sample.threeImages); reflexivity.
Defined.

Lemma only_json_fences_are_removed_witness :
  TextModel.cleanJson Sample.env
    (Some ("```json" +:+ TextModel.nl +:+ "[]" +:+ TextModel.nl +:+ TextModel.backticks))
  = "[]" +:+ TextModel.nl ∧
  TextModel.cleanJson Sample.env
    (Some (TextModel.backticks +:+ TextModel.nl +:+ "[]" +:+ TextModel.nl +:+
           TextModel.backticks))
  = TextModel.backticks +:+ TextModel.nl +:+ "[]" +:+ TextModel.nl.
Proof.
  split.
  - apply (proj1 (proj2 (only_json_fences_are_removed Sample.env
             ("```json" +:+ TextModel.nl +:+ "[]" +:+ TextModel.nl +:+ TextModel.backticks)
             "[]"))).
    + intros (pre & post & H). destruct pre as [| ? [| ? [| ? ?]]]; discriminate H.
    + reflexivity.
  - apply (proj2 (proj2 (only_json_fences_are_removed Sample.env
             (TextModel.backticks +:+ TextModel.nl +:+ "[]" +:+ TextModel.nl +:+
              TextModel.backticks)
             "[]"))).
    + intros (pre & post & H). destruct pre as [| ? [| ? [| ? ?]]]; discriminate H.
    + reflexivity.
Defined.

End Scenes.

(** ** The reader on a stream cut inside its frames *)

Section StreamScenes.

Import JS StreamReader.

Lemma reader_ignores_chunk_boundaries_witness :
  read ["data: [1]" +:+ nl; nl +:+ "da"; "ta: [2]" +:+ nl +:+ nl +:+ "data: [3]"] =
  read ["data: [1]" +:+ nl +:+ nl +:+ "data: [2]" +:+ nl +:+ nl +:+ "data: [3]"].
Proof.
  apply (proj2 (reader_ignores_chunk_boundaries
                  ["data: [1]" +:+ nl +:+ nl +:+ "data: [2]" +:+ nl +:+ nl +:+ "data: [3]"])).
  reflexivity.
Defined.

Lemma framed_texts_are_read_back_witness :
  read ["data: [1]" +:+ nl; nl +:+ "da"; "ta: [2]" +:+ nl +:+ nl +:+ "data: [3]"] =
  ["[1]"; "[2]"].
Proof.
  apply (framed_texts_are_read_back ["[1]"; "[2]"] "data: [3]").
  - repeat constructor.
  - reflexivity.
  - reflexivity.
Defined.

End StreamScenes.
